(** * nuitkaty: command generation, build runner and log tailer

    A shallow embedding of the core of the nuitkaty repository:
    - [src/core/config.py]            (Config.update, Config.temp,
                                       Config.to_command, Config._quote_path)
    - [src/core/nuitka_runner.py]     (NuitkaRunner.run, stop, _parse_command,
                                       _parse_progress, _write_log, ...)
    - [src/core/log_reader_thread.py] (LogReaderThread._read_new_logs)
    - [src/models/embedded_files.py]  (EmbeddedFile.validate)
    - [src/models/build_task.py]      (BuildTask, TaskStatus, LogEntry)
    - [src/models/plugin_config.py]   (PluginConfiguration)
    - [src/core/plugin_analyzer.py]   (PluginAnalyzer)
    - [src/core/path_detector.py]     (PathDetector._deduplicate_pythons)
    - [src/utils/validation.py], [src/utils/path_utils.py],
      [src/utils/file_utils.py]       (the validators and path helpers)
    - [src/ui/pages/plugin_page.py]   (PluginPage._save_plugins)

    Python [str] is modelled as [string] (a sequence of bytes), Python [int]
    as [Z], ordered [dict]s as association lists, exceptions as an error
    result, and the outside world (disk, clock, child process) as explicit
    arguments. *)

From Stdlib Require Import String Ascii List ZArith Lia Bool DecimalString.
Import ListNotations.
Open Scope string_scope.

(** ** Python string primitives *)

Module PyStr.

Definition dquote : ascii := ascii_of_nat 34.
Definition backslash : ascii := ascii_of_nat 92.
Definition slash : ascii := ascii_of_nat 47.
Definition LF : ascii := ascii_of_nat 10.
Definition CR : ascii := ascii_of_nat 13.
Definition TAB : ascii := ascii_of_nat 9.
Definition SP : ascii := ascii_of_nat 32.

Definition str1 (c : ascii) : string := String c EmptyString.

(** [sub in s] *)
Fixpoint contains (sub s : string) : bool :=
  String.prefix sub s ||
  match s with
  | EmptyString => false
  | String _ rest => contains sub rest
  end.

(** [c in s] for a single character *)
Fixpoint has_char (c : ascii) (s : string) : bool :=
  match s with
  | EmptyString => false
  | String d rest => Ascii.eqb c d || has_char c rest
  end.

(** [s.startswith(p)] *)
Definition startswith (p s : string) : bool := String.prefix p s.

(** [s.endswith(suffix)] *)
Definition endswith (suffix s : string) : bool :=
  let n := String.length s in
  let m := String.length suffix in
  (m <=? n)%nat && String.eqb (String.substring (n - m) m s) suffix.

(** [s.replace(c, r)] where [c] is one character *)
Fixpoint replace_char (c : ascii) (r : string) (s : string) : string :=
  match s with
  | EmptyString => EmptyString
  | String d rest =>
      if Ascii.eqb d c then r ++ replace_char c r rest
      else String d (replace_char c r rest)
  end.

(** [sep.join(parts)] *)
Definition join (sep : string) (parts : list string) : string :=
  String.concat sep parts.

(** [s.split(c)] for a one-character separator: always at least one piece *)
Fixpoint split_char (c : ascii) (s : string) : list string :=
  match s with
  | EmptyString => [EmptyString]
  | String d rest =>
      if Ascii.eqb d c then EmptyString :: split_char c rest
      else match split_char c rest with
           | [] => [str1 d]
           | w :: ws => String d w :: ws
           end
  end.

(** [str(n)] for an [int] *)
Definition of_Z (n : Z) : string := NilZero.string_of_int (Z.to_int n).

(** [s.rstrip(chars)] *)
Fixpoint rstrip (chars : string) (s : string) : string :=
  match s with
  | EmptyString => EmptyString
  | String d rest =>
      match rstrip chars rest with
      | EmptyString => if has_char d chars then EmptyString else str1 d
      | r => String d r
      end
  end.

(** ASCII part of [s.lower()] *)
Definition lower_char (c : ascii) : ascii :=
  let n := nat_of_ascii c in
  if ((65 <=? n) && (n <=? 90))%nat then ascii_of_nat (n + 32) else c.

Fixpoint lower (s : string) : string :=
  match s with
  | EmptyString => EmptyString
  | String d rest => String (lower_char d) (lower rest)
  end.

Definition is_digit (c : ascii) : bool :=
  let n := nat_of_ascii c in ((48 <=? n) && (n <=? 57))%nat.

Definition nonempty (s : string) : bool :=
  match s with EmptyString => false | _ => true end.

End PyStr.

(** ** Exceptions

    A call either returns or raises.  [NotModelled] marks the calls whose
    outcome this development does not follow (stated at each use). *)

Inductive Exn : Type :=
| RuntimeError
| AttributeError
| TypeError
| ValueError
| NotModelled.

Inductive result (A : Type) : Type :=
| Ok (a : A)
| Raise (e : Exn).
Arguments Ok {A} a.
Arguments Raise {A} e.

Definition bind {A B : Type} (m : result A) (k : A -> result B) : result B :=
  match m with
  | Ok a => k a
  | Raise e => Raise e
  end.

Notation "x <- m ;; k" := (bind m (fun x => k))
  (at level 61, m at next level, right associativity).
Notation "' pat <- m ;; k" :=
  (bind m (fun x => match x with pat => k end))
  (at level 61, pat pattern, m at next level, right associativity).

(** ** Configuration documents (OmegaConf) *)

(** A node of the document.  [VDict] is a DictConfig (insertion ordered),
    [VList] a ListConfig.  Floats, interpolations and mandatory missing
    values are not modelled. *)
#[warnings="-register-all"]
Inductive Value : Type :=
| VNone
| VBool (b : bool)
| VInt (n : Z)
| VStr (s : string)
| VList (items : list Value)
| VDict (entries : list (string * Value)).

Definition Doc : Type := list (string * Value).

(** Python truthiness, [bool(v)] *)
Definition truthy (v : Value) : bool :=
  match v with
  | VNone => false
  | VBool b => b
  | VInt n => negb (n =? 0)%Z
  | VStr s => PyStr.nonempty s
  | VList items => match items with [] => false | _ => true end
  | VDict entries => match entries with [] => false | _ => true end
  end.

(** [v is True] *)
Definition is_True (v : option Value) : bool :=
  match v with
  | Some (VBool true) => true
  | _ => false
  end.

(** [d.get(k)] on an ordered mapping *)
Fixpoint lookup {A : Type} (k : string) (d : list (string * A)) : option A :=
  match d with
  | [] => None
  | (k', v) :: rest => if String.eqb k k' then Some v else lookup k rest
  end.

(** [d[k] = v]: an existing key keeps its position, a new key goes last *)
Fixpoint set_entry {A : Type} (k : string) (v : A) (d : list (string * A))
  : list (string * A) :=
  match d with
  | [] => [(k, v)]
  | (k', v') :: rest =>
      if String.eqb k k' then (k, v) :: rest
      else (k', v') :: set_entry k v rest
  end.

Module OmegaConf.

(** Dotted keys.  The bracket form [a[b]] of OmegaConf keys is not
    modelled: a key is split at its dots only. *)
Definition split_key (key : string) : list string :=
  PyStr.split_char "." key.

(** [OmegaConf.select(cfg, key)] with the default [None] for a path that
    does not resolve.  A path that runs into a node that is not a mapping
    is not modelled (OmegaConf 2.1 raises there, 2.0 returns the default;
    a ListConfig would be indexed). *)
Fixpoint select_path (path : list string) (d : Doc) : result (option Value) :=
  match path with
  | [] => Raise NotModelled
  | k :: rest =>
      match rest with
      | [] => Ok (lookup k d)
      | _ :: _ =>
          match lookup k d with
          | Some (VDict sub) => select_path rest sub
          | None => Ok None
          | Some _ => Raise NotModelled
          end
      end
  end.

Definition select (cfg : Doc) (key : string) : result (option Value) :=
  select_path (split_key key) cfg.

(** The assignment at the last key of [OmegaConf.update] (merge=True).
    A list written over a ListConfig replaces its content; a scalar is
    assigned.  Merging a mapping into an existing container, and writing
    a list over a DictConfig, are not modelled. *)
Definition assign (k : string) (value : Value) (d : Doc) : result Doc :=
  match value with
  | VDict _ =>
      match lookup k d with
      | Some (VDict _) | Some (VList _) => Raise NotModelled
      | _ => Ok (set_entry k value d)
      end
  | VList _ =>
      match lookup k d with
      | Some (VDict _) => Raise NotModelled
      | _ => Ok (set_entry k value d)
      end
  | _ => Ok (set_entry k value d)
  end.

(** [OmegaConf.update(cfg, key, value)]: walk the key, replacing every
    intermediate node that is not a container by an empty mapping, then
    assign at the last key.  Indexing into a ListConfig is not modelled. *)
Fixpoint update_path (path : list string) (value : Value) (d : Doc)
  : result Doc :=
  match path with
  | [] => Raise NotModelled
  | k :: rest =>
      match rest with
      | [] => assign k value d
      | _ :: _ =>
          match lookup k d with
          | Some (VDict sub) =>
              sub' <- update_path rest value sub ;;
              Ok (set_entry k (VDict sub') d)
          | Some (VList _) => Raise NotModelled
          | _ =>
              sub' <- update_path rest value [] ;;
              Ok (set_entry k (VDict sub') d)
          end
      end
  end.

Definition update (cfg : Doc) (key : string) (value : Value) : result Doc :=
  update_path (split_key key) value cfg.

(** The value read at a path, [None] when it does not resolve. *)
Definition value_at (path : list string) (cfg : Doc) : Value :=
  match select_path path cfg with
  | Ok (Some v) => v
  | _ => VNone
  end.

End OmegaConf.

(** ** src/core/config.py *)

Module Config.

(** The instance attributes read or written by the modelled methods.
    [_config = None] is the state before [load] (or after [delete]). *)
Record t : Type := mk {
  _config : option Doc;
  _deleted : bool;
  _entry_file : string;
  _output_dir : string;
  _output_filename : string;
  _icon_path : string
}.

(** What [OmegaConf.load(self._config_path)] finds: [None] when the file
    is missing or does not parse. *)
Definition Disk : Type := option Doc.

Definition SPECIAL_KEYS : list string :=
  ["enabled-plugins"; "disabled-plugins"; "embedded-files"].

Definition set_config (c : t) (d : option Doc) : t :=
  mk d (_deleted c) (_entry_file c) (_output_dir c) (_output_filename c)
     (_icon_path c).

(** [Config.load] *)
Definition load (disk : Disk) (c : t) : result (t * Doc) :=
  match disk with
  | Some d => Ok (set_config c (Some d), d)
  | None => Raise RuntimeError
  end.

(** [if self._config is None: self.load()] *)
Definition ensure_loaded (disk : Disk) (c : t) : result (t * Doc) :=
  match _config c with
  | Some d => Ok (c, d)
  | None => load disk c
  end.

(** Keyword arguments: a Python dict, so an ordered list of pairs whose
    keys are pairwise distinct. *)
Definition Kwargs : Type := list (string * Value).

(** [for key, value in kwargs.items(): OmegaConf.update(cfg, key, value)] *)
Fixpoint apply_updates (kwargs : Kwargs) (cfg : Doc) : result Doc :=
  match kwargs with
  | [] => Ok cfg
  | (key, value) :: rest =>
      cfg' <- OmegaConf.update cfg key value ;;
      apply_updates rest cfg'
  end.

(** The scan for the mode keys:
    [if 'standalone' in key: standalone_key = key
     elif 'onefile' in key: onefile_key = key] *)
Fixpoint scan_mode_keys (kwargs : Kwargs)
    (standalone_key onefile_key : option string)
  : option string * option string :=
  match kwargs with
  | [] => (standalone_key, onefile_key)
  | (key, _) :: rest =>
      if PyStr.contains "standalone" key
      then scan_mode_keys rest (Some key) onefile_key
      else if PyStr.contains "onefile" key
      then scan_mode_keys rest standalone_key (Some key)
      else scan_mode_keys rest standalone_key onefile_key
  end.

(** One arm of the mutual exclusion: [mine] was set to [True], so force
    the other flag, written in this call under [other_key] or stored at
    [other_default], to [False]. *)
Definition force_off (kwargs : Kwargs) (mine other_key : option string)
    (other_default : string) (cfg : Doc) : result Doc :=
  match mine with
  | Some k =>
      if is_True (lookup k kwargs) then
        match other_key with
        | Some o => OmegaConf.update cfg o (VBool false)
        | None =>
            stored <- OmegaConf.select cfg other_default ;;
            match stored with
            | Some v =>
                if truthy v
                then OmegaConf.update cfg other_default (VBool false)
                else Ok cfg
            | None => Ok cfg
            end
        end
      else Ok cfg
  | None => Ok cfg
  end.

(** The body of [Config.update] on the loaded document. *)
Definition update_doc (kwargs : Kwargs) (cfg : Doc) : result Doc :=
  cfg1 <- apply_updates kwargs cfg ;;
  let '(standalone_key, onefile_key) := scan_mode_keys kwargs None None in
  cfg2 <- force_off kwargs standalone_key onefile_key "nuitka.onefile" cfg1 ;;
  force_off kwargs onefile_key standalone_key "nuitka.standalone" cfg2.

(** [Config.update]: load if needed, update, save to disk.  When a step
    raises, the document in memory stays as changed so far and nothing is
    saved; the model keeps the exception only. *)
Definition update (kwargs : Kwargs) (disk : Disk) (c : t)
  : result (t * Disk) :=
  '(c1, cfg) <- ensure_loaded disk c ;;
  cfg' <- update_doc kwargs cfg ;;
  Ok (set_config c1 (Some cfg'), Some cfg').

(** [OmegaConf.select] inside [try ... except Exception: return default]
    with the default [None]: a path that does not resolve, by either
    route, reads as [None].  A string is read as it is stored: the
    missing marker and interpolations are not modelled (see [Value]). *)
Definition get_value (cfg : Doc) (key : string) : Value :=
  match OmegaConf.select cfg key with
  | Ok (Some v) => v
  | Ok None | Raise _ => VNone
  end.

(** [Config.get(key)] *)
Definition get (key : string) (disk : Disk) (c : t) : result (t * Value) :=
  match _config c with
  | Some cfg => Ok (c, get_value cfg key)
  | None =>
      if _deleted c then Ok (c, VNone)
      else '(c1, cfg) <- load disk c ;; Ok (c1, get_value cfg key)
  end.

(** [Config.set(key, value)] *)
Definition set (key : string) (value : Value) (disk : Disk) (c : t)
  : result (t * Disk) :=
  update [(key, value)] disk c.

(** [Config.temp] with string values: only the four runtime
    parameters are stored, in the instance and not in the document. *)
Fixpoint temp_loop (kwargs : list (string * string)) (c : t) : t :=
  match kwargs with
  | [] => c
  | (key, value) :: rest =>
      let c' :=
        if String.eqb key "nuitka.entry-file" then
          mk (_config c) (_deleted c) value (_output_dir c)
             (_output_filename c) (_icon_path c)
        else if String.eqb key "nuitka.output-dir" then
          mk (_config c) (_deleted c) (_entry_file c) value
             (_output_filename c) (_icon_path c)
        else if String.eqb key "nuitka.output-filename" then
          mk (_config c) (_deleted c) (_entry_file c) (_output_dir c)
             value (_icon_path c)
        else if String.eqb key "nuitka.windows-icon-from-ico" then
          mk (_config c) (_deleted c) (_entry_file c) (_output_dir c)
             (_output_filename c) value
        else c in
      temp_loop rest c'
  end.

Definition temp (kwargs : list (string * string)) (disk : Disk) (c : t)
  : result t :=
  '(c1, _) <- ensure_loaded disk c ;;
  Ok (temp_loop kwargs c1).

(** [Config._quote_path]: backslashes become slashes, every double quote
    gets a backslash in front; no surrounding quotes are added. *)
Definition _quote_path (path : string) : string :=
  let normalized_path :=
    PyStr.replace_char PyStr.backslash (PyStr.str1 PyStr.slash) path in
  if PyStr.has_char PyStr.dquote normalized_path
  then PyStr.replace_char PyStr.dquote
         (String PyStr.backslash (PyStr.str1 PyStr.dquote)) normalized_path
  else normalized_path.

(** [str(v)] as used by the f-strings.  The text of a nested container
    is not modelled. *)
Definition py_str (v : Value) : result string :=
  match v with
  | VNone => Ok "None"
  | VBool true => Ok "True"
  | VBool false => Ok "False"
  | VInt n => Ok (PyStr.of_Z n)
  | VStr s => Ok s
  | VList _ | VDict _ => Raise NotModelled
  end.

(** [value is None or value in [...]] for the list of the strings auto,
    none, the empty string, False and false and the values [0] and [False]
    ([in] compares with [==], so [False] and [0] both match [0]). *)
Definition is_absent (value : Value) : bool :=
  match value with
  | VNone => true
  | VStr s => existsb (String.eqb s) ["auto"; "none"; EmptyString; "False"; "false"]
  | VInt n => (n =? 0)%Z
  | VBool b => negb b
  | VList _ | VDict _ => false
  end.

(** [for item in value: if item is not None and item != '': ...] *)
Fixpoint list_flags (key : string) (items : list Value)
  : result (list string) :=
  match items with
  | [] => Ok []
  | item :: rest =>
      match item with
      | VNone => list_flags key rest
      | VStr EmptyString => list_flags key rest
      | _ =>
          text <- py_str item ;;
          more <- list_flags key rest ;;
          Ok (("--" ++ key ++ "=" ++ text) :: more)
      end
  end.

(** One turn of [for key, value in nuitka.items()]. *)
Definition option_flags (key : string) (value : Value)
  : result (list string) :=
  if existsb (String.eqb key) SPECIAL_KEYS then Ok []
  else
    match value with
    | VList items => list_flags key items
    | VDict _ => Ok []
    | _ =>
        if is_absent value then Ok []
        else
          match value with
          | VBool b => Ok (if b then ["--" ++ key] else [])
          | VStr s => Ok ["--" ++ key ++ "=" ++ _quote_path s]
          | _ => text <- py_str value ;; Ok ["--" ++ key ++ "=" ++ text]
          end
    end.

Fixpoint generic_flags (entries : Doc) : result (list string) :=
  match entries with
  | [] => Ok []
  | (key, value) :: rest =>
      here <- option_flags key value ;;
      more <- generic_flags rest ;;
      Ok (here ++ more)%list
  end.

Fixpoint chars_of (s : string) : list Value :=
  match s with
  | EmptyString => []
  | String c rest => VStr (PyStr.str1 c) :: chars_of rest
  end.

(** The values produced by [for x in v] *)
Definition iterate (v : Value) : result (list Value) :=
  match v with
  | VList items => Ok items
  | VStr s => Ok (chars_of s)
  | VDict entries => Ok (map (fun kv => VStr (fst kv)) entries)
  | VNone | VBool _ | VInt _ => Raise TypeError
  end.

(** [nuitka.get(name, [])] followed by
    [if plugins: for plugin in plugins: parts.append(f"--{flag}={plugin}")] *)
Definition plugin_flags (flag : string) (plugins : option Value)
  : result (list string) :=
  match plugins with
  | None => Ok []
  | Some v =>
      if truthy v then
        items <- iterate v ;;
        (fix each (l : list Value) : result (list string) :=
           match l with
           | [] => Ok []
           | plugin :: rest =>
               text <- py_str plugin ;;
               more <- each rest ;;
               Ok (("--" ++ flag ++ "=" ++ text) :: more)
           end) items
      else Ok []
  end.

(** [isinstance(file_info, dict)]: the items of a ListConfig that are
    mappings are DictConfig objects, and DictConfig is not a subclass of
    the builtin [dict], so the test fails for every item of a document. *)
Definition isinstance_dict (file_info : Value) : bool := false.

Definition embedded_flag (file_info : Value) : list string :=
  if isinstance_dict file_info then
    match file_info with
    | VDict entries =>
        match lookup "source-path" entries,
              lookup "destination-path" entries with
        | Some (VStr source), Some (VStr dest) =>
            if PyStr.nonempty source && PyStr.nonempty dest
            then ["--include-data-files=" ++ _quote_path source ++ "=" ++ dest]
            else []
        | _, _ => []
        end
    | _ => []
    end
  else [].

Definition embedded_flags (embedded_files : option Value)
  : result (list string) :=
  match embedded_files with
  | None => Ok []
  | Some v =>
      if truthy v then
        items <- iterate v ;;
        Ok (flat_map embedded_flag items)
      else Ok []
  end.

(** [Config.to_command].  The result pairs the instance after the call
    (which may have loaded the document) with the command or the
    exception.  A [python.path] that is [None] is not modelled. *)
Definition command_of (c : t) (cfg : Doc) : result string :=
  python <-
    match lookup "python" cfg with
    | Some (VDict section) =>
        match lookup "path" section with
        | None => Ok (VStr EmptyString)
        | Some VNone => Raise NotModelled
        | Some v => Ok v
        end
    | Some (VList _) => Raise NotModelled
    | _ => Raise AttributeError
    end ;;
  nuitka <-
    match lookup "nuitka" cfg with
    | None => Ok []
    | Some (VDict entries) => Ok entries
    | Some v => if truthy v then Raise AttributeError else Ok []
    end ;;
  let output_dir :=
    if PyStr.nonempty (_output_dir c)
    then ["--output-dir=" ++ _quote_path (_output_dir c)] else [] in
  let output_filename :=
    if PyStr.nonempty (_output_filename c) then
      let name :=
        if PyStr.endswith ".exe" (_output_filename c)
        then _output_filename c else _output_filename c ++ ".exe" in
      ["--output-filename=" ++ _quote_path name]
    else [] in
  let icon :=
    if PyStr.nonempty (_icon_path c)
    then ["--windows-icon-from-ico=" ++ _quote_path (_icon_path c)]
    else [] in
  generic <- generic_flags nuitka ;;
  enabled <- plugin_flags "enable-plugin" (lookup "enabled-plugins" nuitka) ;;
  disabled <- plugin_flags "disable-plugin" (lookup "disabled-plugins" nuitka) ;;
  embedded <- embedded_flags (lookup "embedded-files" nuitka) ;;
  let entry :=
    if PyStr.nonempty (_entry_file c) then [_quote_path (_entry_file c)]
    else [] in
  match python with
  | VStr interpreter =>
      Ok (PyStr.join " "
            ([interpreter; "-m"; "nuitka"] ++ output_dir ++ output_filename
             ++ icon ++ generic ++ enabled ++ disabled ++ embedded
             ++ entry)%list)
  | _ => Raise TypeError
  end.

Definition to_command (disk : Disk) (c : t) : t * result string :=
  match ensure_loaded disk c with
  | Ok (c1, cfg) => (c1, command_of c1 cfg)
  | Raise e => (c, Raise e)
  end.

End Config.


(** ** src/models/embedded_files.py *)

Module EmbeddedFile.

Inductive FileType : Type := FILE | DIRECTORY | PATTERN.

Definition FileType_eqb (a b : FileType) : bool :=
  match a, b with
  | FILE, FILE | DIRECTORY, DIRECTORY | PATTERN, PATTERN => true
  | _, _ => false
  end.

Record t : Type := mk {
  source_path : string;
  destination_path : string;
  file_type : FileType;
  recursive : bool;
  pattern : option string
}.

(** [not self.pattern] for an [Optional[str]] *)
Definition pattern_missing (p : option string) : bool :=
  match p with
  | None => true
  | Some text => negb (PyStr.nonempty text)
  end.

(** [EmbeddedFile.validate]; [path_exists] is [os.path.exists]. *)
Definition validate (path_exists : string -> bool) (f : t) : bool * string :=
  if negb (path_exists (source_path f))
  then (false, "源路径不存在: " ++ source_path f)
  else if PyStr.has_char PyStr.backslash (destination_path f)
  then (false, "目标路径不能包含反斜杠: " ++ destination_path f)
  else if PyStr.startswith "/" (destination_path f)
  then (false, "目标路径不能以/开头: " ++ destination_path f)
  else if FileType_eqb (file_type f) PATTERN && pattern_missing (pattern f)
  then (false, "PATTERN类型必须指定pattern参数")
  else (true, EmptyString).

End EmbeddedFile.

(** ** src/core/log_reader_thread.py *)

Module LogReaderThread.

(** The two fields [_read_new_logs] reads and writes. *)
Record t : Type := mk {
  _last_position : nat;
  _log_file_exists : bool
}.

Definition initial : t := mk 0 false.

(** What the exception handlers of [_read_new_logs] tell apart. *)
Inductive ReadFailure : Type :=
| OSError
| ValueErr (message : string)
| Unexpected (message : string).

(** What one poll finds at [log_file_path].  The file is a sequence of
    bytes; decoding is taken as the identity on them (the replacement of
    malformed UTF-8 is not modelled). *)
Inductive Observation : Type :=
| Absent
| Present (content : string)
| Unreadable (failure : ReadFailure).

Inductive Event : Type :=
| logs_received (lines : list string)
| read_error (message : string).

(** [f.seek(n)] then read: the bytes from offset [n] on *)
Fixpoint drop (n : nat) (s : string) : string :=
  match n, s with
  | O, _ => s
  | S m, EmptyString => EmptyString
  | S m, String _ rest => drop m rest
  end.

(** [f.readlines()] of a text file opened with the default [newline=None]:
    LF, CR LF and CR each end a line and are read as one LF. *)
Fixpoint readlines_from (line : string) (data : string) : list string :=
  match data with
  | EmptyString => if PyStr.nonempty line then [line] else []
  | String c rest =>
      if Ascii.eqb c PyStr.LF
      then (line ++ PyStr.str1 PyStr.LF) :: readlines_from EmptyString rest
      else if Ascii.eqb c PyStr.CR then
        match rest with
        | String c2 rest2 =>
            if Ascii.eqb c2 PyStr.LF
            then (line ++ PyStr.str1 PyStr.LF)
                   :: readlines_from EmptyString rest2
            else (line ++ PyStr.str1 PyStr.LF)
                   :: readlines_from EmptyString rest
        | EmptyString => [line ++ PyStr.str1 PyStr.LF]
        end
      else readlines_from (line ++ PyStr.str1 c) rest
  end.

Definition readlines (data : string) : list string :=
  readlines_from EmptyString data.

(** [line.rstrip('\n\r')] *)
Definition strip_newlines (line : string) : string :=
  PyStr.rstrip (String PyStr.LF (PyStr.str1 PyStr.CR)) line.

(** The loop that strips every line and keeps the non-empty ones. *)
Fixpoint filter_lines (new_lines : list string) : list string :=
  match new_lines with
  | [] => []
  | line :: rest =>
      let stripped := strip_newlines line in
      if PyStr.nonempty stripped then stripped :: filter_lines rest
      else filter_lines rest
  end.

(** The three [except] clauses. *)
Definition on_failure (failure : ReadFailure) : list Event :=
  match failure with
  | ValueErr message =>
      if PyStr.contains "closed file" message
         || PyStr.contains "I/O operation" message
      then []
      else [read_error ("读取日志失败: " ++ message)]
  | OSError => []
  | Unexpected message => [read_error ("读取日志失败: " ++ message)]
  end.

(** [LogReaderThread._read_new_logs]: one poll. *)
Definition _read_new_logs (obs : Observation) (s : t) : t * list Event :=
  match obs with
  | Absent =>
      if _log_file_exists s then (mk 0 false, []) else (s, [])
  | _ =>
      let s1 := if negb (_log_file_exists s) then mk 0 true else s in
      match obs with
      | Present content =>
          let file_size := String.length content in
          if (file_size =? 0)%nat || (file_size <=? _last_position s1)%nat
          then (s1, [])
          else
            let new_lines := readlines (drop (_last_position s1) content) in
            let s2 := mk (String.length content) (_log_file_exists s1) in
            match new_lines with
            | [] => (s2, [])
            | _ :: _ =>
                match filter_lines new_lines with
                | [] => (s2, [])
                | filtered => (s2, [logs_received filtered])
                end
            end
      | Unreadable failure => (s1, on_failure failure)
      | Absent => (s1, [])
      end
  end.

(** [reset_position] *)
Definition reset_position (s : t) : t := mk 0 (_log_file_exists s).

(** A run of polls, oldest observation first, with the events in the
    order they are emitted. *)
Fixpoint polls (observations : list Observation) (s : t)
  : t * list Event :=
  match observations with
  | [] => (s, [])
  | obs :: rest =>
      let '(s1, events1) := _read_new_logs obs s in
      let '(s2, events2) := polls rest s1 in
      (s2, (events1 ++ events2)%list)
  end.

End LogReaderThread.


(** ** src/models/build_task.py *)

Definition Time : Type := nat.

Inductive TaskStatus : Type := PENDING | RUNNING | COMPLETED | FAILED.

Record LogEntry : Type := mkLogEntry {
  timestamp : Time;
  level : string;
  message : string;
  source : string
}.

Record BuildTask : Type := mkBuildTask {
  task_id : string;
  entry_file : string;
  output_dir : string;
  output_filename : string;
  icon_path : option string;
  command : string;
  log_file_path : option string;
  status : TaskStatus;
  progress : Z;
  start_time : option Time;
  end_time : option Time;
  exit_code : option Z;
  logs : list LogEntry
}.

(** ** src/core/nuitka_runner.py *)

Module NuitkaRunner.

(** *** [_parse_command]: [shlex.split(command, posix=False)] *)

Inductive LexState : Type :=
| Blank                 (* between tokens *)
| Word                  (* inside an unquoted token *)
| Quoted (q : ascii).   (* inside a token that began with the quote [q] *)

(** [shlex.whitespace] *)
Definition is_shlex_space (c : ascii) : bool :=
  Ascii.eqb c PyStr.SP || Ascii.eqb c PyStr.TAB
  || Ascii.eqb c PyStr.CR || Ascii.eqb c PyStr.LF.

(** [shlex.quotes] *)
Definition is_quote (c : ascii) : bool :=
  Ascii.eqb c PyStr.dquote || Ascii.eqb c (ascii_of_nat 39).

(** The token reader of [shlex] with [posix=False], [whitespace_split=True]
    and no comment characters.  A quote opens a quoted token only at the
    start of a token; the token then ends with the matching quote and keeps
    both.  Inside a word a quote is an ordinary character, and a backslash
    is never an escape.  End of input inside a quoted token raises
    [ValueError] (no closing quotation). *)
Fixpoint lex (st : LexState) (token : string) (input : string)
  : result (list string) :=
  match input with
  | EmptyString =>
      match st with
      | Blank => Ok []
      | Word => Ok [token]
      | Quoted _ => Raise ValueError
      end
  | String c rest =>
      match st with
      | Blank =>
          if is_shlex_space c then lex Blank EmptyString rest
          else if is_quote c then lex (Quoted c) (PyStr.str1 c) rest
          else lex Word (PyStr.str1 c) rest
      | Word =>
          if is_shlex_space c then
            more <- lex Blank EmptyString rest ;;
            Ok (token :: more)
          else lex Word (token ++ PyStr.str1 c) rest
      | Quoted q =>
          if Ascii.eqb c q then
            more <- lex Blank EmptyString rest ;;
            Ok ((token ++ PyStr.str1 c) :: more)
          else lex (Quoted q) (token ++ PyStr.str1 c) rest
      end
  end.

Definition shlex_split (command : string) : result (list string) :=
  lex Blank EmptyString command.

(** ASCII whitespace of [str.split()] *)
Definition is_space (c : ascii) : bool :=
  let n := nat_of_ascii c in
  (Nat.eqb n 32 || ((9 <=? n) && (n <=? 13)) || ((28 <=? n) && (n <=? 31)))%nat.

(** [command.split()] *)
Fixpoint split_ws (token : string) (input : string) : list string :=
  match input with
  | EmptyString => if PyStr.nonempty token then [token] else []
  | String c rest =>
      if is_space c then
        if PyStr.nonempty token then token :: split_ws EmptyString rest
        else split_ws EmptyString rest
      else split_ws (token ++ PyStr.str1 c) rest
  end.

Definition _parse_command (command : string) : list string :=
  match shlex_split command with
  | Ok parts => parts
  | Raise _ => split_ws EmptyString command
  end.

(** *** [_parse_progress] *)

Definition progress_keywords : list (string * Z) :=
  [("starting", 5); ("parsing", 10); ("importing", 15); ("compiling", 30);
   ("linking", 70); ("copying", 90); ("done", 100); ("completed", 100);
   ("finished", 100)]%Z.

Fixpoint first_keyword (table : list (string * Z)) (line_lower : string)
  : option Z :=
  match table with
  | [] => None
  | (keyword, value) :: rest =>
      if PyStr.contains keyword line_lower then Some value
      else first_keyword rest line_lower
  end.

(** [re.search(r'(\d+)%', line)] and [int] of its group, for ASCII
    digits: the leftmost run of digits that a percent sign follows. *)
Fixpoint percent_match (digits : option Z) (line : string) : option Z :=
  match line with
  | EmptyString => None
  | String c rest =>
      if PyStr.is_digit c then
        let d := Z.of_nat (nat_of_ascii c - 48) in
        percent_match
          (Some (match digits with Some n => 10 * n + d | None => d end)%Z)
          rest
      else if Ascii.eqb c "%" then
        match digits with
        | Some n => Some n
        | None => percent_match None rest
        end
      else percent_match None rest
  end.

Definition _parse_progress (line : string) : option Z :=
  match first_keyword progress_keywords (PyStr.lower line) with
  | Some value => Some value
  | None => percent_match None line
  end.

(** *** The worker and its world *)

Inductive Signal : Type :=
| build_finished (code : Z)
| build_failed (error_msg : string).

(** The runner object together with the part of the world it acts on:
    the clock read by [datetime.now()], the lines of the log file on disk,
    the signals emitted and the lines printed so far. *)
Record t : Type := mk {
  task : BuildTask;
  process : option Z;              (* the pid of the Popen object *)
  _is_running : bool;
  _log_file : bool;                (* an open handle is held *)
  clock : Time;
  log_lines : list string;
  emitted : list Signal;
  printed : list string
}.

Definition init (task0 : BuildTask) (clock0 : Time) : t :=
  mk task0 None false false clock0 [] [] [].

(** How the child process ends: [process.wait()] returns an exit code, or
    an exception is raised while its output is read or it is waited for. *)
Inductive Ending : Type :=
| Exits (code : Z)
| Breaks (e : string).

(** What [subprocess.Popen] does: it raises [FileNotFoundError], raises
    something else, or starts a child that writes [output] and then ends. *)
Inductive Spawn : Type :=
| NotFound (e : string)
| SpawnError (e : string)
| Started (pid : Z) (output : list string) (ending : Ending).

(** The outside world during one [run]: [open_error] is the exception of
    [os.makedirs] or [open] for the log file, if any. *)
Record RunEnv : Type := mkRunEnv {
  open_error : option string;
  popen : list string -> Spawn
}.

(** [process.terminate()] followed by [process.wait(timeout=3)] *)
Inductive Terminate : Type :=
| TermOk
| TermTimeout (kill_error : option string)
| TermError (e : string).

(** The outside world during one [stop]. *)
Record StopEnv : Type := mkStopEnv {
  win32 : bool;
  taskkill_error : option string;
  terminate : Terminate
}.

Section Run.

(** [strftime('%Y-%m-%d %H:%M:%S')] of a clock reading *)
Variable strftime : Time -> string.

Definition with_task (f : BuildTask -> BuildTask) (s : t) : t :=
  mk (f (task s)) (process s) (_is_running s) (_log_file s) (clock s)
     (log_lines s) (emitted s) (printed s).

Definition set_status (st : TaskStatus) (b : BuildTask) : BuildTask :=
  mkBuildTask (task_id b) (entry_file b) (output_dir b) (output_filename b)
    (icon_path b) (command b) (log_file_path b) st (progress b)
    (start_time b) (end_time b) (exit_code b) (logs b).

Definition set_progress (p : Z) (b : BuildTask) : BuildTask :=
  mkBuildTask (task_id b) (entry_file b) (output_dir b) (output_filename b)
    (icon_path b) (command b) (log_file_path b) (status b) p
    (start_time b) (end_time b) (exit_code b) (logs b).

Definition set_start_time (x : Time) (b : BuildTask) : BuildTask :=
  mkBuildTask (task_id b) (entry_file b) (output_dir b) (output_filename b)
    (icon_path b) (command b) (log_file_path b) (status b) (progress b)
    (Some x) (end_time b) (exit_code b) (logs b).

Definition set_end_time (x : Time) (b : BuildTask) : BuildTask :=
  mkBuildTask (task_id b) (entry_file b) (output_dir b) (output_filename b)
    (icon_path b) (command b) (log_file_path b) (status b) (progress b)
    (start_time b) (Some x) (exit_code b) (logs b).

Definition set_exit_code (code : Z) (b : BuildTask) : BuildTask :=
  mkBuildTask (task_id b) (entry_file b) (output_dir b) (output_filename b)
    (icon_path b) (command b) (log_file_path b) (status b) (progress b)
    (start_time b) (end_time b) (Some code) (logs b).

Definition append_log (e : LogEntry) (b : BuildTask) : BuildTask :=
  mkBuildTask (task_id b) (entry_file b) (output_dir b) (output_filename b)
    (icon_path b) (command b) (log_file_path b) (status b) (progress b)
    (start_time b) (end_time b) (exit_code b) (logs b ++ [e])%list.

(** [datetime.now()]: read the clock, which then moves on. *)
Definition now (s : t) : Time * t :=
  (clock s,
   mk (task s) (process s) (_is_running s) (_log_file s) (S (clock s))
      (log_lines s) (emitted s) (printed s)).

Definition set_running (b : bool) (s : t) : t :=
  mk (task s) (process s) b (_log_file s) (clock s) (log_lines s)
     (emitted s) (printed s).

Definition set_process (pid : Z) (s : t) : t :=
  mk (task s) (Some pid) (_is_running s) (_log_file s) (clock s)
     (log_lines s) (emitted s) (printed s).

Definition emit (sig : Signal) (s : t) : t :=
  mk (task s) (process s) (_is_running s) (_log_file s) (clock s)
     (log_lines s) (emitted s ++ [sig])%list (printed s).

Definition print (line : string) (s : t) : t :=
  mk (task s) (process s) (_is_running s) (_log_file s) (clock s)
     (log_lines s) (emitted s) (printed s ++ [line])%list.

(** [open(path, 'w')]: the file is truncated. *)
Definition open_log (s : t) : t :=
  mk (task s) (process s) (_is_running s) true (clock s) []
     (emitted s) (printed s).

(** [_write_log]: nothing without an open handle.  A write that fails
    is swallowed by the code; such failures are not modelled. *)
Definition _write_log (message : string) (s : t) : t :=
  if _log_file s then
    let '(stamp, s1) := now s in
    let formatted_message :=
      "[" ++ strftime stamp ++ "] [INFO] " ++ message in
    mk (task s1) (process s1) (_is_running s1) (_log_file s1) (clock s1)
       (log_lines s1 ++ [formatted_message])%list (emitted s1) (printed s1)
  else s.

(** [_close_log_file] *)
Definition _close_log_file (s : t) : t :=
  mk (task s) (process s) (_is_running s) false (clock s) (log_lines s)
     (emitted s) (printed s).

(** [self.task.end_time = datetime.now()] *)
Definition stamp_end (s : t) : t :=
  let '(x, s1) := now s in with_task (set_end_time x) s1.

(** [_handle_output] *)
Definition _handle_output (line : string) (s : t) : t :=
  let '(x, s1) := now s in
  let s2 := with_task (append_log (mkLogEntry x "INFO" line "nuitka")) s1 in
  let s3 := _write_log line s2 in
  match _parse_progress line with
  | Some p => with_task (set_progress p) s3
  | None => s3
  end.

(** [is_running] *)
Definition is_running (s : t) : bool :=
  _is_running s && match process s with Some _ => true | None => false end.

(** ["=" * 80] *)
Definition rule : string :=
  String.concat EmptyString (repeat "=" 80).

(** The body shared by the two [except] clauses of [run]. *)
Definition fail_with (error_msg : string) (s : t) : t :=
  let s1 := with_task (set_status FAILED) s in
  let s2 := stamp_end s1 in
  let s3 := _write_log ("错误: " ++ error_msg) s2 in
  let s4 := _close_log_file s3 in
  emit (build_failed error_msg) s4.

(** [for line in iter(self.process.stdout.readline, '')]: the loop ends
    at the first empty read, so the test [if line] inside it always holds. *)
Fixpoint read_output (output : list string) (s : t) : t :=
  match output with
  | [] => s
  | line :: rest =>
      if PyStr.nonempty line
      then read_output rest
             (_handle_output (LogReaderThread.strip_newlines line) s)
      else s
  end.

(** The part of [run] after [process.wait()] returned [code]. *)
Definition finish (code : Z) (s : t) : t :=
  let s1 := with_task (set_exit_code code) s in
  let s2 := stamp_end s1 in
  if (code =? 0)%Z then
    let s3 := with_task (set_status COMPLETED) s2 in
    let s4 := _write_log rule s3 in
    let s5 := _write_log ("构建成功! 退出码: " ++ PyStr.of_Z code) s4 in
    let '(x, s6) := now s5 in
    let s7 := _write_log ("结束时间: " ++ strftime x) s6 in
    let s8 := _close_log_file s7 in
    emit (build_finished code) s8
  else
    let s3 := with_task (set_status FAILED) s2 in
    let error_msg := "构建失败,退出码: " ++ PyStr.of_Z code in
    let s4 := _write_log rule s3 in
    let s5 := _write_log error_msg s4 in
    let '(x, s6) := now s5 in
    let s7 := _write_log ("结束时间: " ++ strftime x) s6 in
    let s8 := _close_log_file s7 in
    emit (build_failed error_msg) s8.

(** The end of the [try] block: the exit code is handled, or the exception
    raised while the output was read or the child waited for is caught. *)
Definition conclude (ending : Ending) (s : t) : t :=
  match ending with
  | Exits code => finish code s
  | Breaks e => fail_with ("构建过程出错: " ++ e) s
  end.

(** The [try] block of [run] with its handlers. *)
Definition execute (env : RunEnv) (s : t) : t :=
  let command_parts := _parse_command (command (task s)) in
  match popen env command_parts with
  | NotFound e => fail_with ("找不到 Nuitka 程序: " ++ e) s
  | SpawnError e => fail_with ("构建过程出错: " ++ e) s
  | Started pid output ending =>
      conclude ending (read_output output (set_process pid s))
  end.

(** [self.task.log_file_path] is truthy *)
Definition has_log_path (b : BuildTask) : bool :=
  match log_file_path b with
  | Some path => PyStr.nonempty path
  | None => false
  end.

(** The statements of [run] before its [try] block: the flags, the start
    time and the log file.  [inr] is the early return taken when the log
    file cannot be opened. *)
Definition prepare (env : RunEnv) (s : t) : t + t :=
  let s1 := set_running true s in
  let s2 := with_task (set_status RUNNING) s1 in
  let '(x, s3) := now s2 in
  let s4 := with_task (set_start_time x) s3 in
  if has_log_path (task s4) then
    match open_error env with
    | Some e =>
        let s5 := with_task (set_status FAILED) s4 in
        let s6 := stamp_end s5 in
        let s7 := emit (build_failed ("无法创建日志文件: " ++ e)) s6 in
        inr (set_running false s7)
    | None =>
        let s5 := open_log s4 in
        let '(y, s6) := now s5 in
        let s7 := _write_log ("开始时间: " ++ strftime y) s6 in
        let s8 := _write_log ("命令: " ++ command (task s7)) s7 in
        inl (_write_log rule s8)
    end
  else inl s4.

(** [NuitkaRunner.run]; the last step is the [finally] clause. *)
Definition run (env : RunEnv) (s : t) : t :=
  match prepare env s with
  | inl ready => set_running false (execute env ready)
  | inr failed => failed
  end.


(** [_terminate_process_fallback] *)
Definition _terminate_process_fallback (env : StopEnv) (s : t) : t :=
  match terminate env with
  | TermOk => s
  | TermTimeout None => s
  | TermTimeout (Some e) => print ("强制终止进程失败: " ++ e) s
  | TermError e => print ("终止进程失败: " ++ e) s
  end.

(** [NuitkaRunner.stop] *)
Definition stop (env : StopEnv) (s : t) : t :=
  match process s with
  | Some pid =>
      if _is_running s then
        let s1 := set_running false s in
        let s2 :=
          if win32 env then
            match taskkill_error env with
            | None => s1
            | Some e =>
                _terminate_process_fallback env
                  (print ("taskkill 失败: " ++ e) s1)
            end
          else _terminate_process_fallback env s1 in
        let s3 := _write_log "构建已取消" s2 in
        let s4 := _close_log_file s3 in
        let s5 := with_task (set_status FAILED) s4 in
        stamp_end s5
      else s
  | None => s
  end.

End Run.

End NuitkaRunner.


(** ** src/core/config.py: the configuration file *)

Module ConfigFile.

(** [Config.reload] *)
Definition reload (disk : Config.Disk) (c : Config.t)
  : result (Config.t * Doc) :=
  match disk with
  | Some d => Ok (Config.set_config c (Some d), d)
  | None => Raise RuntimeError
  end.

(** [Config.delete].  [unlink_fails]: the file exists and [unlink]
    raises.  After a call that returns there is no file. *)
Definition delete (unlink_fails : bool) (disk : Config.Disk) (c : Config.t)
  : result (Config.t * Config.Disk) :=
  if unlink_fails then Raise RuntimeError
  else
    Ok (Config.mk None true (Config._entry_file c) (Config._output_dir c)
          (Config._output_filename c) (Config._icon_path c),
        None).

(** The [config] property; [OmegaConf.create()] is the empty mapping. *)
Definition config (disk : Config.Disk) (c : Config.t)
  : result (Config.t * Doc) :=
  match Config._config c with
  | Some d => Ok (c, d)
  | None => if Config._deleted c then Ok (c, []) else Config.load disk c
  end.

End ConfigFile.

(** ** src/core/log_reader_thread.py: the polling loop *)

Module LogReaderLoop.

(** One turn of the loop of [run]: an interruption was requested, or
    the file is polled. *)
Inductive Turn : Type :=
| Interrupted
| Poll (obs : LogReaderThread.Observation).

(** The statements of [run] before its loop; [found] is
    [os.path.exists(self.log_file_path)]. *)
Definition begin (found : bool) (s : LogReaderThread.t) : LogReaderThread.t :=
  LogReaderThread.mk
    (if found then 0 else LogReaderThread._last_position s) found.

(** The loop; it ends at an interruption, or when [stop] has cleared
    [_is_running] (the end of [turns]). *)
Fixpoint loop (turns : list Turn) (s : LogReaderThread.t)
  : LogReaderThread.t * list LogReaderThread.Event :=
  match turns with
  | [] => (s, [])
  | Interrupted :: _ => (s, [])
  | Poll obs :: rest =>
      let '(s1, events1) := LogReaderThread._read_new_logs obs s in
      let '(s2, events2) := loop rest s1 in
      (s2, (events1 ++ events2)%list)
  end.

(** [LogReaderThread.run] *)
Definition run (found : bool) (turns : list Turn) (s : LogReaderThread.t)
  : LogReaderThread.t * list LogReaderThread.Event :=
  loop turns (begin found s).

End LogReaderLoop.

(** ** src/utils/file_utils.py *)

Module FileUtils.

(** [quote_path] *)
Definition quote_path (path : string) : string :=
  if PyStr.has_char PyStr.SP path || PyStr.has_char PyStr.dquote path
  then PyStr.str1 PyStr.dquote ++ path ++ PyStr.str1 PyStr.dquote
  else path.

(** [validate_path]; [path_exists] is [os.path.exists]. *)
Definition validate_path (path_exists : string -> bool) (path : string)
  : bool * string :=
  if negb (PyStr.nonempty path) then (false, "路径不能为空")
  else if negb (path_exists path) then (false, "路径不存在: " ++ path)
  else (true, EmptyString).

End FileUtils.

(** ** src/utils/path_utils.py *)

Module PathUtils.

(** [normalize_path] *)
Definition normalize_path (path : string) : string :=
  PyStr.rstrip "/" (PyStr.replace_char PyStr.backslash "/" path).

(** [is_python_file] *)
Definition is_python_file (path : string) : bool :=
  PyStr.endswith ".py" path || PyStr.endswith ".pyw" path.

End PathUtils.

(** ** src/utils/validation.py *)

Module Validation.

Fixpoint all_chars (p : ascii -> bool) (s : string) : bool :=
  match s with
  | EmptyString => true
  | String c rest => p c && all_chars p rest
  end.

(** The digit strings of ASCII text: not empty, and the digits 0 to 9
    only.  On ASCII text this is [str.isdigit]; Python's test accepts
    the digits of other scripts as well, so the validator below takes
    the test as a parameter. *)
Definition ascii_isdigit (s : string) : bool :=
  PyStr.nonempty s && all_chars PyStr.is_digit s.

(** [validate_interpreter_path] *)
Definition validate_interpreter_path (path_exists : string -> bool)
    (path : string) : bool * string :=
  if negb (PyStr.nonempty path) then (false, "Python解释器路径不能为空")
  else if negb (path_exists path)
  then (false, "Python解释器路径不存在: " ++ path)
  else if negb (PyStr.endswith "python.exe" path)
  then (false, "无效的Python解释器文件: " ++ path)
  else (true, EmptyString).

(** [validate_pip_url] *)
Definition validate_pip_url (url : string) : bool * string :=
  if negb (PyStr.nonempty url) then (false, "pip镜像源URL不能为空")
  else if negb (PyStr.startswith "http://" url
                || PyStr.startswith "https://" url)
  then (false, "无效的URL格式,必须以http://或https://开头: " ++ url)
  else (true, EmptyString).

(** [os.cpu_count() or 1] *)
Definition cpu_or_1 (cpu_count : option Z) : Z :=
  match cpu_count with
  | Some n => if (n =? 0)%Z then 1%Z else n
  | None => 1%Z
  end.

(** [validate_jobs].  A [bool] is an [int] for [isinstance], with the
    values 0 and 1; it is printed as [False] or [True]. *)
Definition validate_jobs (cpu_count : option Z) (jobs : Value)
  : bool * string :=
  let max_jobs := (cpu_or_1 cpu_count * 2)%Z in
  let checked (n : Z) (text : string) : bool * string :=
    if (n <? 1)%Z then (false, "线程数量必须大于0, 当前值: " ++ text)
    else if (max_jobs <? n)%Z
    then (false, "线程数量不能超过CPU核心数的2倍(" ++ PyStr.of_Z max_jobs
                 ++ "), 当前值: " ++ text)
    else (true, EmptyString) in
  match jobs with
  | VInt n => checked n (PyStr.of_Z n)
  | VBool b => checked (if b then 1 else 0)%Z (if b then "True" else "False")
  | _ => (false, "线程数量必须是整数")
  end.

Section FileVersion.

(** [str.isdigit] *)
Variable isdigit : string -> bool.

(** [validate_file_version] *)
Definition validate_file_version (version : string) : bool * string :=
  if negb (PyStr.nonempty version) then (false, "文件版本不能为空")
  else
    let parts := PyStr.split_char "." version in
    if negb (List.length parts =? 4)%nat
    then (false, "文件版本格式错误,应为x.x.x.x格式: " ++ version)
    else if negb (forallb isdigit parts)
    then (false, "文件版本必须全部为数字: " ++ version)
    else (true, EmptyString).

End FileVersion.

(** The characters [<>:|?*] and the double quote, in the order of the
    source. *)
Definition illegal_chars : string :=
  "<>:" ++ PyStr.str1 PyStr.dquote ++ "|?*".

(** [for char in illegal_chars: if char in filename: return ...] *)
Fixpoint first_illegal (chars filename : string) : option ascii :=
  match chars with
  | EmptyString => None
  | String c rest =>
      if PyStr.has_char c filename then Some c
      else first_illegal rest filename
  end.

(** [validate_output_filename] *)
Definition validate_output_filename (filename : string) : bool * string :=
  if negb (PyStr.nonempty filename) then (false, "输出文件名不能为空")
  else if negb (PyStr.endswith ".exe" filename)
  then (false, "输出文件名必须以.exe结尾")
  else
    match first_illegal illegal_chars filename with
    | Some c =>
        (false, "文件名包含非法字符'" ++ PyStr.str1 c ++ "': " ++ filename)
    | None => (true, EmptyString)
    end.

(** [validate_entry_file] *)
Definition validate_entry_file (path_exists : string -> bool)
    (path : string) : bool * string :=
  if negb (PyStr.nonempty path) then (false, "入口文件路径不能为空")
  else if negb (path_exists path) then (false, "入口文件不存在: " ++ path)
  else if negb (PyStr.endswith ".py" path)
  then (false, "入口文件必须是Python文件(.py): " ++ path)
  else (true, EmptyString).

End Validation.

(** ** src/models/plugin_config.py *)

Module PluginConfiguration.

(** The fields read by the two checks ([analysis_result] is left out). *)
Record t : Type := mk {
  enabled_plugins : list string;
  disabled_plugins : list string;
  auto_analyzed : bool
}.

Definition AVAILABLE_PLUGINS : list string :=
  ["qt-plugins"; "pillow"; "tk-inter"; "pygame"; "anti-bloat"].

(** [validate_plugin_name] *)
Definition validate_plugin_name (name : string) : bool :=
  existsb (String.eqb name) AVAILABLE_PLUGINS.

(** [validate_no_conflicts]: the two sets are disjoint *)
Definition validate_no_conflicts (p : t) : bool :=
  forallb (fun plugin => negb (existsb (String.eqb plugin) (disabled_plugins p)))
    (enabled_plugins p).

End PluginConfiguration.

(** ** src/core/plugin_analyzer.py *)

Module PluginAnalyzer.

Definition IMPORT_TO_PLUGIN : list (string * string) :=
  [("PyQt5", "qt-plugins"); ("PyQt6", "qt-plugins");
   ("PySide2", "qt-plugins"); ("PySide6", "qt-plugins");
   ("PIL", "pillow"); ("PIL.Image", "pillow"); ("PIL.ImageQt", "pillow");
   ("tkinter", "tk-inter"); ("pygame", "pygame")].

(** A [set] of strings, kept as a list without duplicates.  Python does
    not fix the order in which a set is iterated; the order of these lists
    is the order of insertion, and the results below that are lists are
    sorted by the code. *)
Fixpoint set_add (x : string) (s : list string) : list string :=
  match s with
  | [] => [x]
  | y :: rest => if String.eqb x y then s else y :: set_add x rest
  end.

(** [s.update(xs)] *)
Definition set_update (s xs : list string) : list string :=
  fold_left (fun acc x => set_add x acc) xs s.

(** [sorted(l)] for strings *)
Fixpoint insert_sorted (x : string) (l : list string) : list string :=
  match l with
  | [] => [x]
  | y :: rest =>
      if String.leb x y then x :: l else y :: insert_sorted x rest
  end.

Definition sorted (l : list string) : list string :=
  fold_right insert_sorted [] l.

(** The nodes that [ast.walk] yields, as far as the analysis tells them
    apart: [import a.b, c], [from m import x] (without a module for
    [from . import x]), and every other node. *)
Inductive Node : Type :=
| AstImport (names : list string)
| AstImportFrom (module : option string)
| AstOther.

(** [name.split('.')[0]] *)
Definition first_component (name : string) : string :=
  hd EmptyString (PyStr.split_char "." name).

Fixpoint extract_loop (tree : list Node) (imports : list string)
  : list string :=
  match tree with
  | [] => imports
  | AstImport names :: rest =>
      extract_loop rest
        (fold_left (fun acc alias => set_add (first_component alias) acc)
           names imports)
  | AstImportFrom (Some module) :: rest =>
      if PyStr.nonempty module
      then extract_loop rest (set_add (first_component module) imports)
      else extract_loop rest imports
  | _ :: rest => extract_loop rest imports
  end.

(** [_extract_imports_from_ast] *)
Definition _extract_imports_from_ast (tree : list Node) : list string :=
  extract_loop tree [].

(** What the analysis finds at a path: no file; a file whose opening,
    decoding or parsing raises one of the three exceptions that
    [_parse_imports] catches ([OSError], [UnicodeDecodeError],
    [SyntaxError]); a file whose reading raises any other exception (the
    [ValueError] of [ast.parse] for a NUL byte, before Python 3.12); or
    the nodes of its syntax tree. *)
Inductive File : Type :=
| Missing
| Unreadable
| Broken
| Source (tree : list Node).

(** [_parse_imports] together with [_analyze_local_import].  [local imp]
    is the file [imp.py] of the directory of the entry file.  [depth] is
    the number of nested calls the interpreter allows.  [None] is an
    exception that leaves the call, since no handler here catches it: the
    [RecursionError] raised beyond [depth], or what reading a [Broken]
    file raises.  The sets are lists without duplicates; only what they
    contain is meant. *)
Fixpoint _parse_imports (depth : nat) (local : string -> File) (file : File)
  : option (list string) :=
  match depth with
  | O => None
  | S depth' =>
      match file with
      | Source tree =>
          let direct := _extract_imports_from_ast tree in
          fold_left
            (fun acc imp =>
               match acc with
               | None => None
               | Some imports =>
                   match local imp with
                   | Missing => Some imports
                   | local_file =>
                       match _parse_imports depth' local local_file with
                       | Some local_imports =>
                           Some (set_update imports local_imports)
                       | None => None
                       end
                   end
               end)
            direct (Some direct)
      | Broken => None
      | Missing | Unreadable => Some []
      end
  end.

(** One turn of [for imp in imports] in [_map_imports_to_plugins]: the
    exact match, then the prefix matches. *)
Definition plugins_of (imp : string) (required_plugins : list string)
  : list string :=
  let exact :=
    match lookup imp IMPORT_TO_PLUGIN with
    | Some plugin => set_add plugin required_plugins
    | None => required_plugins
    end in
  fold_left
    (fun acc entry =>
       if PyStr.startswith (fst entry ++ ".") imp
       then set_add (snd entry) acc else acc)
    IMPORT_TO_PLUGIN exact.

Record Mapping : Type := mkMapping {
  required : list string;
  optional : list string
}.

(** [_map_imports_to_plugins] *)
Definition _map_imports_to_plugins (imports : list string) : Mapping :=
  let required_plugins :=
    fold_left (fun acc imp => plugins_of imp acc) imports [] in
  mkMapping (sorted required_plugins) (sorted []).

Record Analysis : Type := mkAnalysis {
  required_plugins : list string;
  optional_plugins : list string;
  imports : list string
}.

Section Listing.

(** [list(s)] for a set [s]: the members of the set in the order the
    interpreter happens to give them, which Python does not fix. *)
Variable listing : list string -> list string.

(** [analyze_entry_file] *)
Definition analyze_entry_file (depth : nat) (local : string -> File)
    (entry_file : File) : option Analysis :=
  match entry_file with
  | Missing => Some (mkAnalysis [] [] [])
  | _ =>
      match _parse_imports depth local entry_file with
      | Some found =>
          let plugin_mapping := _map_imports_to_plugins found in
          Some (mkAnalysis (required plugin_mapping)
                  (optional plugin_mapping) (listing found))
      | None => None
      end
  end.

End Listing.

(** [get_available_plugins] *)
Definition get_available_plugins : list string :=
  sorted (fold_left (fun acc entry => set_add (snd entry) acc)
            IMPORT_TO_PLUGIN []).

End PluginAnalyzer.

(** ** src/core/path_detector.py *)

Module PathDetector.

(** An interpreter found on the system: the mapping with the keys [name]
    and [path]. *)
Record Python : Type := mkPython {
  name : string;
  path : string
}.

Section Deduplicate.

(** [str.lower] *)
Variable lower : string -> string.

Fixpoint deduplicate_loop (pythons : list Python) (seen : list string)
    (unique : list Python) : list Python :=
  match pythons with
  | [] => unique
  | python :: rest =>
      let path_lower := lower (path python) in
      if existsb (String.eqb path_lower) seen
      then deduplicate_loop rest seen unique
      else deduplicate_loop rest (path_lower :: seen) (unique ++ [python])%list
  end.

(** [_deduplicate_pythons] *)
Definition _deduplicate_pythons (pythons : list Python) : list Python :=
  deduplicate_loop pythons [] [].

End Deduplicate.

End PathDetector.


(** ** src/ui/pages/plugin_page.py *)

Module PluginPage.

(** The loop of [_save_plugins] over the check boxes, a mapping from the
    plugin names to their state. *)
Fixpoint sort_checks (plugin_checks : list (string * bool))
    (enabled disabled : list string) : list string * list string :=
  match plugin_checks with
  | [] => (enabled, disabled)
  | (plugin, is_checked) :: rest =>
      if is_checked
      then sort_checks rest (enabled ++ [plugin])%list disabled
      else sort_checks rest enabled (disabled ++ [plugin])%list
  end.

(** [_save_plugins]: the two lists are stored with [Config.update]. *)
Definition _save_plugins (plugin_checks : list (string * bool))
    (disk : Config.Disk) (c : Config.t) : result (Config.t * Config.Disk) :=
  let '(enabled, disabled) := sort_checks plugin_checks [] [] in
  Config.update
    [("nuitka.enabled-plugins", VList (map VStr enabled));
     ("nuitka.disabled-plugins", VList (map VStr disabled))]
    disk c.

End PluginPage.

(** * Scenarios and vocabulary of the properties *)

Module Props.

Definition STANDALONE : string := "nuitka.standalone".
Definition ONEFILE : string := "nuitka.onefile".

(** The key is picked up by the scan of [Config.update]. *)
Definition mode_key (key : string) : bool :=
  PyStr.contains "standalone" key || PyStr.contains "onefile" key.

(** The only keys of the call that the scan picks up are the two flags. *)
Definition clean_mode_keys (kwargs : Config.Kwargs) : Prop :=
  forall key value, In (key, value) kwargs -> mode_key key = true ->
    key = STANDALONE \/ key = ONEFILE.

(** The call sets the flag [key] to [True]. *)
Definition sets_True (kwargs : Config.Kwargs) (key : string) : Prop :=
  lookup key kwargs = Some (VBool true).

(** No key picked up by the scan is given the value [True]. *)
Definition no_mode_True (kwargs : Config.Kwargs) : Prop :=
  forall key value, In (key, value) kwargs -> mode_key key = true ->
    value <> VBool true.

(** The flag reads as a true value. *)
Definition flag_on (cfg : Doc) (key : string) : bool :=
  truthy (Config.get_value cfg key).

Definition both_modes : Doc :=
  [("nuitka", VDict [("standalone", VBool true); ("onefile", VBool true)])].

Definition onefile_doc : Doc :=
  [("nuitka", VDict [("onefile", VBool true)])].

Definition loaded (cfg : Doc) : Config.t :=
  Config.mk (Some cfg) false EmptyString EmptyString EmptyString EmptyString.

(** A double quote, as a string *)
Definition q : string := PyStr.str1 PyStr.dquote.

(** The snapshot [{lto: "auto", quiet: false, output-filename: "app"}]
    under an interpreter path. *)
Definition example_doc (python : string) : Doc :=
  [("python", VDict [("path", VStr python)]);
   ("nuitka", VDict [("lto", VStr "auto"); ("quiet", VBool false);
                     ("output-filename", VStr "app")])].

(** The runtime overrides of the example, given through [Config.temp]. *)
Definition example_overrides (entry : string) : list (string * string) :=
  [("nuitka.entry-file", entry); ("nuitka.output-dir", "C:/out");
   ("nuitka.output-filename", "app")].

(** The command of the example. *)
Definition example_command (python entry : string) (disk : Config.Disk)
  : result string :=
  c <- Config.temp (example_overrides entry) disk (loaded (example_doc python)) ;;
  snd (Config.to_command disk c).

(** An argument without one pair of enclosing double quotes. *)
Definition unquoted (s : string) : string :=
  match s with
  | String c rest =>
      if Ascii.eqb c PyStr.dquote && PyStr.endswith q rest
      then String.substring 0 (String.length rest - 1) rest
      else s
  | EmptyString => s
  end.

(** A flag [--name=value] seen as its name and its value, the value
    without enclosing quotes. *)
Definition flag_view (arg : string) : string * string :=
  match PyStr.split_char "=" arg with
  | name :: v :: vs => (name, unquoted (PyStr.join "=" (v :: vs)))
  | _ => (arg, EmptyString)
  end.

(** The tail the example is said to end in, for the entry [main.py]. *)
Definition quoted_tail : string :=
  "--output-dir=" ++ q ++ "C:/out" ++ q ++ " --output-filename=" ++ q
  ++ "app.exe" ++ q ++ " main.py".

(** The same tail without the quotes. *)
Definition bare_tail : string :=
  "--output-dir=C:/out --output-filename=app.exe main.py".

(** The events of a poll that read [lines]: one batch, or none when no
    line is left. *)
Definition batch (lines : list string) : list LogReaderThread.Event :=
  match lines with
  | [] => []
  | _ :: _ => [LogReaderThread.logs_received lines]
  end.

(** A line feed, as a string *)
Definition nl : string := PyStr.str1 PyStr.LF.

(** The log file can be used: no path is set, or opening it works. *)
Definition log_ready (env : NuitkaRunner.RunEnv) (s : NuitkaRunner.t) : Prop :=
  NuitkaRunner.has_log_path (NuitkaRunner.task s) = false
  \/ NuitkaRunner.open_error env = None.

(** What [Popen] is called with. *)
Definition command_parts (s : NuitkaRunner.t) : list string :=
  NuitkaRunner._parse_command (command (NuitkaRunner.task s)).

(** A task, a clock rendering and a child process for the examples. *)
Definition demo_task : BuildTask :=
  mkBuildTask "0001" "main.py" "dist" "app.exe" None
    "python -m nuitka main.py" (Some "dist/nuitka_build.log") PENDING 0
    None None None [].

Definition demo_strftime (x : Time) : string := PyStr.of_Z (Z.of_nat x).

Definition demo_env (code : Z) : NuitkaRunner.RunEnv :=
  NuitkaRunner.mkRunEnv None
    (fun _ => NuitkaRunner.Started 4242 ["Compiling module X" ++ nl] 
                (NuitkaRunner.Exits code)).

Definition demo_kill : NuitkaRunner.StopEnv :=
  NuitkaRunner.mkStopEnv false None NuitkaRunner.TermOk.

(** A value with a double quote in it, and a document that holds a value
    as its company name. *)
Definition quoted_value : string := "a" ++ q ++ "b".

Definition company_doc (value : string) : Doc :=
  [("python", VDict [("path", VStr "python")]);
   ("nuitka", VDict [("company-name", VStr value)])].

(** The text has none of the characters at which the tokenizer splits. *)
Fixpoint no_space (s : string) : bool :=
  match s with
  | EmptyString => true
  | String c rest => negb (NuitkaRunner.is_shlex_space c) && no_space rest
  end.

(** How many times the character occurs. *)
Fixpoint count_char (c : ascii) (s : string) : nat :=
  match s with
  | EmptyString => 0
  | String d rest => (if Ascii.eqb d c then 1 else 0) + count_char c rest
  end.

(** [to_command] followed by [_parse_command], as [NuitkaRunner.run] does
    with the command of its task. *)
Definition retokenized (c : Config.t) : result (list string) :=
  cmd <- snd (Config.to_command None c) ;;
  Ok (NuitkaRunner._parse_command cmd).

End Props.

(** * Vocabulary of the further properties *)

Module Terms.

(** The argument begins with a quote character of the tokenizer. *)
Definition starts_quoted (s : string) : bool :=
  match s with
  | String c _ => NuitkaRunner.is_quote c
  | EmptyString => false
  end.

(** An argument that needs no quoting: it is not empty, has none of the
    characters at which the tokenizer splits, and does not begin with a
    quote. *)
Definition plain (s : string) : bool :=
  PyStr.nonempty s && Props.no_space s && negb (starts_quoted s).

(** A path that [quote_path] can protect: it is not empty, has no double
    quote, tab or line break, and does not begin with a quote. *)
Definition quotable (s : string) : bool :=
  PyStr.nonempty s
  && negb (PyStr.has_char PyStr.dquote s)
  && negb (PyStr.has_char PyStr.TAB s)
  && negb (PyStr.has_char PyStr.CR s)
  && negb (PyStr.has_char PyStr.LF s)
  && negb (starts_quoted s).

(** What [quote_path] returns is one token for the tokenizer: a plain
    word, or a text in double quotes without a double quote inside. *)
Definition one_token (t : string) : Prop :=
  plain t = true \/
  exists body,
    t = Props.q ++ body ++ Props.q /\ PyStr.has_char PyStr.dquote body = false.

(** A document that names the interpreter and nothing else. *)
Definition interpreter_doc (python : string) : Doc :=
  [("python", VDict [("path", VStr python)])].

(** A path that [Config._quote_path] leaves as it is. *)
Definition normalized (s : string) : bool :=
  negb (PyStr.has_char PyStr.backslash s)
  && negb (PyStr.has_char PyStr.dquote s).

(** A value that is not a container. *)
Definition scalar (v : Value) : bool :=
  match v with
  | VList _ | VDict _ => false
  | _ => true
  end.

(** A value that OmegaConf stores and returns as it is: every value but
    the string of three question marks, which marks a missing value, and
    the strings with a dollar sign followed by an opening brace, which
    are interpolations. *)
Definition literal (v : Value) : bool :=
  match v with
  | VStr s => negb (String.eqb s "???") && negb (PyStr.contains "${" s)
  | _ => true
  end.

(** One name of a dotted key: not empty, and without a dot or a
    bracket. *)
Definition simple_name (s : string) : bool :=
  PyStr.nonempty s
  && negb (PyStr.has_char "." s)
  && negb (PyStr.has_char "[" s)
  && negb (PyStr.has_char "]" s).

(** The four keys [Config.temp] acts on. *)
Definition runtime_keys : list string :=
  ["nuitka.entry-file"; "nuitka.output-dir"; "nuitka.output-filename";
   "nuitka.windows-icon-from-ico"].

Definition runtime_key (key : string) : bool :=
  existsb (String.eqb key) runtime_keys.

(** A key of the section that [to_command] treats like any other. *)
Definition ordinary (key : string) : bool :=
  negb (existsb (String.eqb key) Config.SPECIAL_KEYS).

(** A section made of boolean options. *)
Definition switches (entries : list (string * bool)) : Doc :=
  map (fun kv => (fst kv, VBool (snd kv))) entries.

(** The names are pairwise different, as the keys of a mapping are. *)
Fixpoint distinct (names : list string) : bool :=
  match names with
  | [] => true
  | x :: rest => negb (existsb (String.eqb x) rest) && distinct rest
  end.

Definition distinct_keys (d : Doc) : bool := distinct (map fst d).

(** The lines handed over by a run of polls, in the order of delivery. *)
Definition delivered (events : list LogReaderThread.Event) : list string :=
  flat_map
    (fun event =>
       match event with
       | LogReaderThread.logs_received lines => lines
       | LogReaderThread.read_error _ => []
       end)
    events.

(** What the polls find when the file, holding [written], grows by one
    chunk before each poll. *)
Fixpoint growing (written : string) (chunks : list string)
  : list LogReaderThread.Observation :=
  match chunks with
  | [] => []
  | chunk :: rest =>
      LogReaderThread.Present (written ++ chunk)
        :: growing (written ++ chunk) rest
  end.

(** Each text followed by a line feed. *)
Definition terminated (bodies : list string) : list string :=
  map (fun body => body ++ Props.nl) bodies.


(** The estimate of the last line that carries one; [old] when no line
    does. *)
Definition last_estimate (old : Z) (lines : list string) : Z :=
  fold_left
    (fun acc line =>
       match NuitkaRunner._parse_progress line with
       | Some p => p
       | None => acc
       end)
    lines old.

(** [k] times the digit 0 *)
Fixpoint zeros (k : nat) : string :=
  match k with
  | O => EmptyString
  | S k' => String "0" (zeros k')
  end.

(** Two runs of output for the examples: one whose estimates rise, one
    whose estimates fall. *)
Definition rising_output : list string :=
  ["Compiling module X" ++ Props.nl; "Linking" ++ Props.nl].

Definition falling_output : list string :=
  ["Linking" ++ Props.nl; "Compiling module X" ++ Props.nl].

(** A world in which the log file cannot be created. *)
Definition denied_env : NuitkaRunner.RunEnv :=
  NuitkaRunner.mkRunEnv (Some "denied") (fun _ => NuitkaRunner.NotFound EmptyString).

(** A runner in the middle of a build, with its log open. *)
Definition building : NuitkaRunner.t :=
  NuitkaRunner.mk Props.demo_task (Some 4242%Z) true true 100 [] [] [].

(** The tree imports the dotted name: it stands in an [import]
    statement, or it is the module of a [from ... import] statement. *)
Definition imported (tree : list PluginAnalyzer.Node) (name : string) : Prop :=
  exists node,
    In node tree
    /\ match node with
       | PluginAnalyzer.AstImport names => In name names
       | PluginAnalyzer.AstImportFrom (Some module) =>
           module = name /\ PyStr.nonempty module = true
       | _ => False
       end.

(** Two local modules that import each other, and an entry file that
    imports the first. *)
Definition cyclic_local (name : string) : PluginAnalyzer.File :=
  if String.eqb name "views"
  then PluginAnalyzer.Source [PluginAnalyzer.AstImport ["models"]]
  else if String.eqb name "models"
  then PluginAnalyzer.Source [PluginAnalyzer.AstImport ["views"]]
  else PluginAnalyzer.Missing.

Definition cyclic_entry : list PluginAnalyzer.Node :=
  [PluginAnalyzer.AstImport ["PySide6.QtWidgets"; "views"]].

(** The key by which interpreters are told apart. *)
Definition python_key (lower : string -> string) (python : PathDetector.Python)
  : string :=
  lower (PathDetector.path python).

End Terms.

(** * Facts about strings *)

Lemma append_assoc (a b c : string) : (a ++ b) ++ c = a ++ (b ++ c).
Proof. induction a as [|x a IH]; simpl; [reflexivity|now rewrite IH]. Qed.

Lemma length_append (a b : string) :
  String.length (a ++ b) = String.length a + String.length b.
Proof. induction a as [|x a IH]; simpl; [reflexivity|now rewrite IH]. Qed.

(** * Facts about ordered mappings and OmegaConf paths *)

Section Assoc.

Context {A : Type}.

Lemma lookup_cons (k k' : string) (v : A) (d : list (string * A)) :
  lookup k ((k', v) :: d) = if String.eqb k k' then Some v else lookup k d.
Proof. reflexivity. Qed.

Lemma lookup_set_entry_same (k : string) (v : A) (d : list (string * A)) :
  lookup k (set_entry k v d) = Some v.
Proof.
  induction d as [|[k' v'] d IH]; simpl.
  - now rewrite String.eqb_refl.
  - destruct (String.eqb_spec k k') as [->|Hne]; simpl.
    + now rewrite String.eqb_refl.
    + destruct (String.eqb_spec k k'); [contradiction|exact IH].
Qed.

Lemma lookup_set_entry_other (k k' : string) (v : A) (d : list (string * A)) :
  k <> k' -> lookup k' (set_entry k v d) = lookup k' d.
Proof.
  intros Hne. induction d as [|[k0 v0] d IH]; simpl.
  - destruct (String.eqb_spec k' k); [congruence|reflexivity].
  - destruct (String.eqb_spec k k0) as [->|Hk]; simpl.
    + destruct (String.eqb_spec k' k0); [congruence|reflexivity].
    + destruct (String.eqb_spec k' k0); [reflexivity|exact IH].
Qed.

End Assoc.

Module OmegaFacts.

Import OmegaConf.

(** Writing a boolean at [section.leaf] makes it readable there. *)
Lemma update_path_same (section leaf : string) (b : bool) (cfg cfg' : Doc) :
  update_path [section; leaf] (VBool b) cfg = Ok cfg' ->
  value_at [section; leaf] cfg' = VBool b.
Proof.
  unfold value_at. simpl.
  destruct (lookup section cfg) as [[| | | |items|sub]|] eqn:E; simpl;
    intros H; inversion H; subst; clear H;
    rewrite lookup_set_entry_same; simpl;
    try rewrite lookup_set_entry_same; try rewrite String.eqb_refl;
    reflexivity.
Qed.

(** Writing a boolean at [section.leaf] leaves what is read at any other
    leaf of the section as it was. *)
Lemma update_path_sibling (section leaf other : string) (b : bool)
    (cfg cfg' : Doc) :
  leaf <> other ->
  update_path [section; leaf] (VBool b) cfg = Ok cfg' ->
  value_at [section; other] cfg' = value_at [section; other] cfg.
Proof.
  intros Hne. unfold value_at. simpl.
  destruct (lookup section cfg) as [[| | | |items|sub]|] eqn:E; simpl;
    intros H; inversion H; subst; clear H;
    rewrite lookup_set_entry_same; simpl;
    try (destruct (String.eqb_spec other leaf); [congruence|reflexivity]).
  now rewrite (lookup_set_entry_other leaf other).
Qed.

(** Writing at [section.leaf] leaves every other top-level entry alone. *)
Lemma update_path_other_section (section leaf key : string) (value : Value)
    (cfg cfg' : Doc) :
  section <> key ->
  update_path [section; leaf] value cfg = Ok cfg' ->
  lookup key cfg' = lookup key cfg.
Proof.
  intros Hne. simpl.
  destruct (lookup section cfg) as [[| | | |items|sub]|] eqn:E; simpl;
    try discriminate;
    try (destruct (assign leaf value _) as [sub'|e]; simpl;
         [|discriminate]);
    intros H; inversion H; subst; clear H;
    now rewrite (lookup_set_entry_other section key).
Qed.

End OmegaFacts.

(** * Config.update: the mutual exclusion of the two modes *)

Module UpdateFacts.

Import Config Props OmegaFacts.

Lemma update_onefile_reads_back (b : bool) (cfg cfg' : Doc) :
  OmegaConf.update cfg ONEFILE (VBool b) = Ok cfg' ->
  get_value cfg' ONEFILE = VBool b.
Proof. apply (update_path_same "nuitka" "onefile"). Qed.

Lemma update_standalone_reads_back (b : bool) (cfg cfg' : Doc) :
  OmegaConf.update cfg STANDALONE (VBool b) = Ok cfg' ->
  get_value cfg' STANDALONE = VBool b.
Proof. apply (update_path_same "nuitka" "standalone"). Qed.

Lemma update_standalone_keeps_onefile (b : bool) (cfg cfg' : Doc) :
  OmegaConf.update cfg STANDALONE (VBool b) = Ok cfg' ->
  get_value cfg' ONEFILE = get_value cfg ONEFILE.
Proof.
  apply (update_path_sibling "nuitka" "standalone" "onefile").
  discriminate.
Qed.

Lemma update_onefile_keeps_standalone (b : bool) (cfg cfg' : Doc) :
  OmegaConf.update cfg ONEFILE (VBool b) = Ok cfg' ->
  get_value cfg' STANDALONE = get_value cfg STANDALONE.
Proof.
  apply (update_path_sibling "nuitka" "onefile" "standalone").
  discriminate.
Qed.

(** What the scan finds when the call names no other mode-like key. *)
Lemma scan_clean (kwargs : Kwargs) :
  clean_mode_keys kwargs ->
  forall sk0 ok0,
    (sk0 = None \/ sk0 = Some STANDALONE) ->
    (ok0 = None \/ ok0 = Some ONEFILE) ->
    forall sk ok, scan_mode_keys kwargs sk0 ok0 = (sk, ok) ->
      (sk = None \/ sk = Some STANDALONE) /\
      (ok = None \/ ok = Some ONEFILE) /\
      (sk0 = Some STANDALONE -> sk = Some STANDALONE) /\
      (ok0 = Some ONEFILE -> ok = Some ONEFILE) /\
      (lookup STANDALONE kwargs <> None -> sk = Some STANDALONE) /\
      (lookup ONEFILE kwargs <> None -> ok = Some ONEFILE).
Proof.
  induction kwargs as [|[key value] rest IH]; intros Hclean sk0 ok0 Hs Ho sk ok.
  - simpl. intros H; inversion H; subst. repeat split; auto; congruence.
  - assert (Hrest : clean_mode_keys rest).
    { intros k v Hin. apply (Hclean k v). now right. }
    specialize (IH Hrest).
    pose proof (Hclean key value (or_introl eq_refl)) as Hkey.
    unfold mode_key in Hkey. simpl scan_mode_keys.
    destruct (PyStr.contains "standalone" key) eqn:Es.
    + assert (key = STANDALONE) as ->.
      { destruct (Hkey eq_refl) as [->| ->]; [reflexivity|discriminate Es]. }
      intros H. destruct (IH (Some STANDALONE) ok0 (or_intror eq_refl) Ho _ _ H)
        as (H1 & H2 & H3 & H4 & H5 & H6).
      repeat split; auto.
    + destruct (PyStr.contains "onefile" key) eqn:Eo.
      * assert (key = ONEFILE) as ->.
        { destruct (Hkey eq_refl) as [->| ->]; [discriminate Es|reflexivity]. }
        intros H. destruct (IH sk0 (Some ONEFILE) Hs (or_intror eq_refl) _ _ H)
          as (H1 & H2 & H3 & H4 & H5 & H6).
        repeat split; auto.
      * intros H. destruct (IH sk0 ok0 Hs Ho _ _ H)
          as (H1 & H2 & H3 & H4 & H5 & H6).
        assert (key <> STANDALONE) by (intros ->; discriminate Es).
        assert (key <> ONEFILE) by (intros ->; discriminate Eo).
        repeat split; auto; rewrite lookup_cons.
        -- destruct (String.eqb_spec STANDALONE key); [congruence|exact H5].
        -- destruct (String.eqb_spec ONEFILE key); [congruence|exact H6].
Qed.

(** A key found by the scan is a key of the call. *)
Lemma scan_keys_in (kwargs : Kwargs) :
  forall sk0 ok0 sk ok, scan_mode_keys kwargs sk0 ok0 = (sk, ok) ->
    (forall k, sk = Some k -> sk0 = Some k \/
       (exists v, In (k, v) kwargs) /\ mode_key k = true) /\
    (forall k, ok = Some k -> ok0 = Some k \/
       (exists v, In (k, v) kwargs) /\ mode_key k = true).
Proof.
  induction kwargs as [|[key value] rest IH]; intros sk0 ok0 sk ok; simpl.
  - intros H; inversion H; subst. split; intros; now left.
  - destruct (PyStr.contains "standalone" key) eqn:Es;
      [|destruct (PyStr.contains "onefile" key) eqn:Eo];
      intros H; destruct (IH _ _ _ _ H) as [Hs Ho]; split; intros k Hk.
    + destruct (Hs k Hk) as [Hk0|[[v Hin] Hm]].
      * inversion Hk0; subst. right. split; [exists value; now left|].
        unfold mode_key. now rewrite Es.
      * right. split; [exists v; now right|exact Hm].
    + destruct (Ho k Hk) as [Hk0|[[v Hin] Hm]]; [now left|].
      right. split; [exists v; now right|exact Hm].
    + destruct (Hs k Hk) as [Hk0|[[v Hin] Hm]]; [now left|].
      right. split; [exists v; now right|exact Hm].
    + destruct (Ho k Hk) as [Hk0|[[v Hin] Hm]].
      * inversion Hk0; subst. right. split; [exists value; now left|].
        unfold mode_key. rewrite Eo. apply orb_true_r.
      * right. split; [exists v; now right|exact Hm].
    + destruct (Hs k Hk) as [Hk0|[[v Hin] Hm]]; [now left|].
      right. split; [exists v; now right|exact Hm].
    + destruct (Ho k Hk) as [Hk0|[[v Hin] Hm]]; [now left|].
      right. split; [exists v; now right|exact Hm].
Qed.

Lemma lookup_in {A : Type} (k : string) (d : list (string * A)) (v : A) :
  lookup k d = Some v -> In (k, v) d.
Proof.
  induction d as [|[k' v'] d IH]; simpl; [discriminate|].
  destruct (String.eqb_spec k k') as [->|Hne].
  - intros H; inversion H; subst. now left.
  - intros H. right. now apply IH.
Qed.

(** An arm does nothing when the call gives its key no [True]. *)
Lemma force_off_idle (kwargs : Kwargs) (mine other : option string)
    (other_default : string) (cfg : Doc) :
  no_mode_True kwargs ->
  (forall k, mine = Some k -> mode_key k = true) ->
  force_off kwargs mine other other_default cfg = Ok cfg.
Proof.
  intros Hno Hmine. unfold force_off.
  destruct mine as [k|]; [|reflexivity].
  destruct (lookup k kwargs) as [v|] eqn:E; [|reflexivity].
  destruct v as [| [|] | | | |]; try reflexivity.
  exfalso. apply (Hno k (VBool true)); auto using lookup_in.
Qed.

(** Without a mode key set to [True] the call is only its own writes. *)
Lemma update_doc_idle (kwargs : Kwargs) (cfg : Doc) :
  no_mode_True kwargs ->
  update_doc kwargs cfg = apply_updates kwargs cfg.
Proof.
  intros Hno. unfold update_doc.
  destruct (apply_updates kwargs cfg) as [cfg1|e]; [simpl|reflexivity].
  destruct (scan_mode_keys kwargs None None) as [sk ok] eqn:E.
  destruct (scan_keys_in kwargs _ _ _ _ E) as [Hs Ho].
  rewrite force_off_idle; auto.
  - simpl. apply force_off_idle; auto.
    intros k Hk. destruct (Ho k Hk) as [?|[_ ?]]; [discriminate|assumption].
  - intros k Hk. destruct (Hs k Hk) as [?|[_ ?]]; [discriminate|assumption].
Qed.

Lemma update_flag_reads_back (key : string) (b : bool) (cfg cfg' : Doc) :
  key = STANDALONE \/ key = ONEFILE ->
  OmegaConf.update cfg key (VBool b) = Ok cfg' ->
  get_value cfg' key = VBool b.
Proof.
  intros [->| ->];
    [apply update_standalone_reads_back|apply update_onefile_reads_back].
Qed.

(** An arm whose own flag was set to [True] leaves the other flag off. *)
Lemma force_off_fires (kwargs : Kwargs) (mine : string)
    (other_key : option string) (other_default : string) (cfg cfg' : Doc) :
  sets_True kwargs mine ->
  other_default = STANDALONE \/ other_default = ONEFILE ->
  other_key = None \/ other_key = Some other_default ->
  force_off kwargs (Some mine) other_key other_default cfg = Ok cfg' ->
  flag_on cfg' other_default = false.
Proof.
  intros Hset Hdef Hother. unfold force_off, sets_True in *.
  rewrite Hset. simpl. unfold flag_on.
  destruct Hother as [->| ->].
  - unfold get_value.
    destruct (OmegaConf.select cfg other_default) as [[v|]|e] eqn:E; simpl;
      try discriminate.
    + destruct (truthy v) eqn:Ev.
      * intros H. fold (get_value cfg' other_default).
        now rewrite (update_flag_reads_back _ _ _ _ Hdef H).
      * intros H; inversion H; subst. now rewrite E.
    + intros H; inversion H; subst. now rewrite E.
  - intros H. now rewrite (update_flag_reads_back _ _ _ _ Hdef H).
Qed.

(** The second arm only ever writes the standalone flag. *)
Lemma force_off_keeps_onefile (kwargs : Kwargs) (mine other_key : option string)
    (cfg cfg' : Doc) :
  other_key = None \/ other_key = Some STANDALONE ->
  force_off kwargs mine other_key STANDALONE cfg = Ok cfg' ->
  get_value cfg' ONEFILE = get_value cfg ONEFILE.
Proof.
  intros Hother. unfold force_off.
  destruct mine as [k|]; [|intros H; now inversion H].
  destruct (is_True (lookup k kwargs)); [|intros H; now inversion H].
  destruct Hother as [->| ->].
  - destruct (OmegaConf.select cfg STANDALONE) as [[v|]|e]; simpl;
      try discriminate; [|intros H; now inversion H].
    destruct (truthy v); [|intros H; now inversion H].
    apply update_standalone_keeps_onefile.
  - apply update_standalone_keeps_onefile.
Qed.

(** The core of the mutual exclusion, on the document. *)
Lemma update_doc_exclusive (kwargs : Kwargs) (cfg cfg' : Doc) :
  clean_mode_keys kwargs ->
  update_doc kwargs cfg = Ok cfg' ->
  (sets_True kwargs STANDALONE -> flag_on cfg' ONEFILE = false) /\
  (sets_True kwargs ONEFILE -> flag_on cfg' STANDALONE = false).
Proof.
  intros Hclean. unfold update_doc.
  destruct (apply_updates kwargs cfg) as [cfg1|e]; [simpl|discriminate].
  destruct (scan_mode_keys kwargs None None) as [sk ok] eqn:E.
  destruct (scan_clean kwargs Hclean None None (or_introl eq_refl)
              (or_introl eq_refl) sk ok E) as (Hs & Ho & _ & _ & Hs' & Ho').
  destruct (force_off kwargs sk ok _ cfg1) as [cfg2|e] eqn:E1;
    simpl; [|discriminate].
  intros E2. split; intros Hset.
  - assert (sk = Some STANDALONE) as ->.
    { apply Hs'. unfold sets_True in Hset. congruence. }
    unfold flag_on.
    rewrite (force_off_keeps_onefile _ _ _ _ _ (or_intror eq_refl) E2).
    apply (force_off_fires kwargs STANDALONE ok ONEFILE cfg1 cfg2); auto.
  - assert (ok = Some ONEFILE) as ->.
    { apply Ho'. unfold sets_True in Hset. congruence. }
    apply (force_off_fires kwargs ONEFILE sk STANDALONE cfg2 cfg'); auto.
Qed.

(** C2 (as amended).  For a call of [Config.update] whose only keys
    containing "standalone" or "onefile" are the two flags
    [nuitka.standalone] and [nuitka.onefile]: setting standalone to [True]
    leaves onefile false in the saved document, setting onefile to [True]
    leaves standalone false, whether or not the other flag is written in
    the same call or was set before; so after a call that sets a mode
    flag to [True] at most one of the two is true. *)
Theorem update_modes_exclusive (kwargs : Kwargs) (disk disk' : Disk)
    (c c' : Config.t) :
  clean_mode_keys kwargs ->
  Config.update kwargs disk c = Ok (c', disk') ->
  exists cfg',
    _config c' = Some cfg' /\ disk' = Some cfg' /\
    (sets_True kwargs STANDALONE -> flag_on cfg' ONEFILE = false) /\
    (sets_True kwargs ONEFILE -> flag_on cfg' STANDALONE = false) /\
    (sets_True kwargs STANDALONE \/ sets_True kwargs ONEFILE ->
     flag_on cfg' STANDALONE && flag_on cfg' ONEFILE = false).
Proof.
  intros Hclean. unfold Config.update.
  destruct (ensure_loaded disk c) as [[c1 cfg]|e]; [simpl|discriminate].
  destruct (update_doc kwargs cfg) as [cfg'|e] eqn:E; [simpl|discriminate].
  intros H; inversion H; subst; clear H.
  destruct (update_doc_exclusive kwargs cfg cfg' Hclean E) as [Ha Hb].
  exists cfg'. repeat split; auto.
  intros [Hset|Hset].
  - rewrite (Ha Hset). apply andb_false_r.
  - now rewrite (Hb Hset).
Qed.

Lemma update_modes_exclusive_witness :
  exists cfg',
    Config.update [(STANDALONE, VBool true); (ONEFILE, VBool true)]
      None (loaded onefile_doc) = Ok (loaded cfg', Some cfg') /\
    flag_on cfg' STANDALONE && flag_on cfg' ONEFILE = false.
Proof.
  destruct (update_modes_exclusive
              [(STANDALONE, VBool true); (ONEFILE, VBool true)]
              None
              (Some [("nuitka", VDict [("onefile", VBool false);
                                       ("standalone", VBool false)])])
              (loaded onefile_doc)
              (loaded [("nuitka", VDict [("onefile", VBool false);
                                         ("standalone", VBool false)])]))
    as (cfg' & Hc & Hd & _ & _ & Hex).
  - intros key value [H|[H|[]]]; inversion H; subst; intros _; auto.
  - reflexivity.
  - exists cfg'. inversion Hc; subst. split; [reflexivity|].
    apply Hex. left. reflexivity.
Defined.

(** C2 (as stated) fails twice.  A call that writes another key leaves a
    document in which both flags were true as it was; and a call that sets
    standalone to [True] next to another key containing "onefile" turns
    that key off instead of the onefile flag. *)
Lemma update_modes_not_exclusive :
  (exists cfg',
     Config.update [("nuitka.jobs", VInt 8)] None (loaded both_modes)
       = Ok (loaded cfg', Some cfg') /\
     get_value cfg' STANDALONE = VBool true /\
     get_value cfg' ONEFILE = VBool true) /\
  (exists cfg',
     Config.update [(STANDALONE, VBool true);
                    ("nuitka.onefile-tempdir-spec", VStr "cache")]
       None (loaded onefile_doc)
       = Ok (loaded cfg', Some cfg') /\
     get_value cfg' STANDALONE = VBool true /\
     get_value cfg' ONEFILE = VBool true).
Proof.
  split; eexists; (split; [vm_compute; reflexivity|split; reflexivity]).
Qed.

(** A single [False] write is the whole effect of the call. *)
Lemma update_doc_false (key : string) (cfg : Doc) :
  update_doc [(key, VBool false)] cfg
  = OmegaConf.update cfg key (VBool false).
Proof.
  rewrite update_doc_idle.
  - simpl. now destruct (OmegaConf.update cfg key (VBool false)).
  - intros k v [H|[]] _. inversion H. discriminate.
Qed.

(** C9.  [Config.update] setting the standalone flag to [False] is exactly
    the one write of that key to the document in memory (loaded first when
    needed): the onefile flag, every other option of the nuitka section and
    every other section read as before; likewise with the two flags
    exchanged.  The side effect on the other flag is taken only for a mode
    key set to [True]. *)
Theorem update_false_is_framed (disk disk' : Disk) (c c1 c' : Config.t)
    (cfg : Doc) (flag other : string) :
  ensure_loaded disk c = Ok (c1, cfg) ->
  (flag = "standalone" /\ other = "onefile") \/
  (flag = "onefile" /\ other = "standalone") ->
  Config.update [("nuitka." ++ flag, VBool false)] disk c = Ok (c', disk') ->
  exists cfg',
    _config c' = Some cfg' /\
    OmegaConf.update cfg ("nuitka." ++ flag) (VBool false) = Ok cfg' /\
    get_value cfg' ("nuitka." ++ other) = get_value cfg ("nuitka." ++ other) /\
    (forall option, option <> flag ->
       OmegaConf.value_at ["nuitka"; option] cfg'
       = OmegaConf.value_at ["nuitka"; option] cfg) /\
    (forall section, section <> "nuitka" ->
       lookup section cfg' = lookup section cfg).
Proof.
  intros Hcfg Hflag. unfold Config.update.
  rewrite Hcfg. simpl bind.
  destruct Hflag as [[-> ->]|[-> ->]];
    rewrite update_doc_false;
    match goal with
    | |- context [OmegaConf.update cfg ?k ?v] =>
        destruct (OmegaConf.update cfg k v) as [cfg'|e] eqn:E
    end; simpl bind; try discriminate;
    intros H; inversion H; subst; clear H;
    exists cfg'; (split; [reflexivity|]); (split; [exact E|]);
    (split; [|split]).
  - apply (update_path_sibling "nuitka" "standalone" "onefile" false);
      [discriminate|exact E].
  - intros option Hopt.
    apply (update_path_sibling "nuitka" "standalone" option false); auto.
  - intros section Hsec.
    apply (update_path_other_section "nuitka" "standalone" section
             (VBool false)); auto.
  - apply (update_path_sibling "nuitka" "onefile" "standalone" false);
      [discriminate|exact E].
  - intros option Hopt.
    apply (update_path_sibling "nuitka" "onefile" option false); auto.
  - intros section Hsec.
    apply (update_path_other_section "nuitka" "onefile" section
             (VBool false)); auto.
Qed.

Lemma update_false_is_framed_witness :
  exists cfg',
    Config.update [(STANDALONE, VBool false)] None (loaded both_modes)
      = Ok (loaded cfg', Some cfg') /\
    get_value cfg' ONEFILE = VBool true.
Proof.
  destruct (update_false_is_framed None
              (Some [("nuitka", VDict [("standalone", VBool false);
                                       ("onefile", VBool true)])])
              (loaded both_modes)
              (loaded both_modes)
              (loaded [("nuitka", VDict [("standalone", VBool false);
                                         ("onefile", VBool true)])])
              both_modes "standalone" "onefile")
    as (cfg' & Hc & _ & Hget & _).
  - reflexivity.
  - left. split; reflexivity.
  - reflexivity.
  - exists cfg'. inversion Hc; subst. split; [reflexivity|exact Hget].
Defined.

End UpdateFacts.

(** * Config.to_command *)

Module CommandFacts.

Import Config Props.

(** C1 (as amended).  For the snapshot
    [{lto: "auto", quiet: false, output-filename: "app"}] with the runtime
    overrides output-dir [C:/out] and output-filename [app], the command
    is the base invocation, then exactly three flags in this order: the
    override [--output-dir] with value [C:/out], the override
    [--output-filename] with value [app.exe] (the suffix forced), and the
    document's own [--output-filename] with value [app]; then the entry as
    the last argument.  No [--lto] and no [--quiet] flag is among them.
    Values are compared without enclosing quotes. *)
Theorem example_command_flags (python entry : string) (disk : Disk) :
  exists flags,
    example_command python entry disk
    = Ok (PyStr.join " "
            ([python; "-m"; "nuitka"] ++ flags
             ++ (if PyStr.nonempty entry then [_quote_path entry] else []))%list)
    /\ map flag_view flags
       = [("--output-dir", "C:/out"); ("--output-filename", "app.exe");
          ("--output-filename", "app")].
Proof.
  exists ["--output-dir=C:/out"; "--output-filename=app.exe";
          "--output-filename=app"].
  split; [|reflexivity].
  destruct entry; reflexivity.
Qed.

(** C1 (as stated) fails: the command of the example does not end in the
    two quoted override flags followed by the entry.  The values carry no
    quotes, and the document's own output-filename flag stands between the
    overrides and the entry. *)
Lemma example_command_tail :
  example_command "python" "main.py" None
  = Ok "python -m nuitka --output-dir=C:/out --output-filename=app.exe --output-filename=app main.py"
  /\ PyStr.endswith quoted_tail
       "python -m nuitka --output-dir=C:/out --output-filename=app.exe --output-filename=app main.py"
     = false
  /\ PyStr.endswith bare_tail
       "python -m nuitka --output-dir=C:/out --output-filename=app.exe --output-filename=app main.py"
     = false.
Proof. repeat split; vm_compute; reflexivity. Qed.

(** Replacing one character by two makes the text longer by the number of
    its occurrences. *)
Lemma replace_char_length (c x y : ascii) (s : string) :
  String.length (PyStr.replace_char c (String x (PyStr.str1 y)) s)
  = String.length s + count_char c s.
Proof.
  induction s as [|d s IH]; simpl; [reflexivity|].
  destruct (Ascii.eqb d c); simpl; rewrite IH; lia.
Qed.

Lemma has_char_count (c : ascii) (s : string) :
  PyStr.has_char c s = true -> 0 < count_char c s.
Proof.
  induction s as [|d s IH]; simpl; [discriminate|].
  rewrite (Ascii.eqb_sym c d). destruct (Ascii.eqb d c); simpl; [lia|exact IH].
Qed.

(** Turning backslashes into slashes keeps the length, the double quotes
    and the absence of white space. *)
Lemma normalize_keeps (s : string) :
  let n := PyStr.replace_char PyStr.backslash (PyStr.str1 PyStr.slash) s in
  String.length n = String.length s /\
  PyStr.has_char PyStr.dquote n = PyStr.has_char PyStr.dquote s /\
  (no_space s = true -> no_space n = true).
Proof.
  induction s as [|d s (IHl & IHq & IHs)]; simpl; [repeat split|].
  destruct (Ascii.eqb_spec d PyStr.backslash) as [->|Hd]; simpl.
  - rewrite IHl, IHq. repeat split. exact IHs.
  - rewrite IHl, IHq. repeat split.
    intros H. apply andb_true_iff in H as [H1 H2].
    now rewrite H1, (IHs H2).
Qed.

Lemma escape_keeps_no_space (s : string) :
  no_space s = true ->
  no_space (PyStr.replace_char PyStr.dquote
              (String PyStr.backslash (PyStr.str1 PyStr.dquote)) s) = true.
Proof.
  induction s as [|d s IH]; simpl; [reflexivity|].
  intros H. apply andb_true_iff in H as [H1 H2].
  destruct (Ascii.eqb_spec d PyStr.dquote) as [->|Hd]; simpl.
  - exact (IH H2).
  - now rewrite H1, (IH H2).
Qed.

(** A value with a double quote is changed by [_quote_path]. *)
Lemma quote_path_changes (value : string) :
  PyStr.has_char PyStr.dquote value = true ->
  _quote_path value <> value.
Proof.
  intros Hq Heq. apply (f_equal String.length) in Heq. revert Heq.
  unfold _quote_path.
  destruct (normalize_keeps value) as (Hl & Hh & _). simpl in Hl, Hh.
  rewrite Hh, Hq, replace_char_length, Hl.
  assert (0 < count_char PyStr.dquote
                (PyStr.replace_char PyStr.backslash
                   (PyStr.str1 PyStr.slash) value)).
  { apply has_char_count. now rewrite Hh. }
  lia.
Qed.

Lemma quote_path_no_space (value : string) :
  no_space value = true -> no_space (_quote_path value) = true.
Proof.
  intros H. unfold _quote_path.
  destruct (normalize_keeps value) as (_ & _ & Hs). simpl in Hs.
  destruct (PyStr.has_char _ _); [apply escape_keeps_no_space|]; auto.
Qed.

(** Inside a word the tokenizer copies every character that is not white
    space, quotes and backslashes included. *)
Lemma lex_word (s token : string) :
  no_space s = true ->
  NuitkaRunner.lex NuitkaRunner.Word token s = Ok [token ++ s].
Proof.
  revert token. induction s as [|c s IH]; intros token; simpl.
  - intros _. f_equal. f_equal.
    induction token as [|x token IHt]; simpl; [reflexivity|now rewrite <- IHt].
  - intros H. apply andb_true_iff in H as [H1 H2].
    apply negb_true_iff in H1. rewrite H1, (IH _ H2).
    now rewrite append_assoc.
Qed.

(** A value with a double quote is not one of the absent values. *)
Lemma quoted_not_absent (value : string) :
  PyStr.has_char PyStr.dquote value = true -> is_absent (VStr value) = false.
Proof.
  intros Hq. unfold is_absent. simpl.
  repeat match goal with
  | |- context [String.eqb value ?k] =>
      destruct (String.eqb_spec value k) as [->|_]; [discriminate Hq|]
  end.
  reflexivity.
Qed.

(** The command for a document that holds a quoted company name. *)
Lemma company_command (value : string) :
  PyStr.has_char PyStr.dquote value = true ->
  snd (to_command None (loaded (company_doc value)))
  = Ok ("python -m nuitka --company-name=" ++ _quote_path value).
Proof.
  intros Hq.
  unfold to_command, ensure_loaded, command_of, loaded, company_doc.
  cbn [_config snd _output_dir _output_filename _icon_path _entry_file
       PyStr.nonempty].
  cbn [lookup String.eqb Ascii.eqb Bool.eqb bind].
  unfold generic_flags, option_flags.
  cbn [SPECIAL_KEYS existsb String.eqb Ascii.eqb Bool.eqb orb].
  rewrite (quoted_not_absent value Hq).
  generalize (_quote_path value). intros text. cbn. reflexivity.
Qed.

(** What [_parse_command] makes of that command. *)
Lemma parse_company_command (text : string) :
  no_space text = true ->
  NuitkaRunner._parse_command ("python -m nuitka --company-name=" ++ text)
  = ["python"; "-m"; "nuitka"; "--company-name=" ++ text].
Proof.
  intros Hs.
  unfold NuitkaRunner._parse_command, NuitkaRunner.shlex_split.
  replace (NuitkaRunner.lex NuitkaRunner.Blank EmptyString
             ("python -m nuitka --company-name=" ++ text))
    with (m3 <- (m2 <- (m1 <- NuitkaRunner.lex NuitkaRunner.Word
                                "--company-name=" text ;;
                        Ok ("nuitka" :: m1)) ;;
                 Ok ("-m" :: m2)) ;;
          Ok ("python" :: m3))
    by reflexivity.
  rewrite (lex_word text "--company-name=" Hs). reflexivity.
Qed.

(** C3 fails on the code.  For every value that has a double quote (and no
    white space) the flag carries the value as changed by [_quote_path],
    with a backslash before each quote, and [_parse_command] hands that
    text on unchanged: the argument it yields is never the flag with the
    original value. *)
Theorem quoted_value_not_recovered (value : string) :
  PyStr.has_char PyStr.dquote value = true ->
  no_space value = true ->
  exists last,
    retokenized (loaded (company_doc value))
    = Ok ["python"; "-m"; "nuitka"; last] /\
    last = "--company-name=" ++ _quote_path value /\
    last <> "--company-name=" ++ value.
Proof.
  intros Hq Hs. exists ("--company-name=" ++ _quote_path value).
  split; [|split; [reflexivity|]].
  - unfold retokenized. rewrite (company_command value Hq).
    cbn [bind]. f_equal.
    apply parse_company_command, quote_path_no_space, Hs.
  - intros Heq. apply (quote_path_changes value Hq).
    change ("--company-name=" ++ _quote_path value)
      with (String.append "--company-name=" (_quote_path value)) in Heq.
    revert Heq. generalize (_quote_path value). intros text Heq.
    now inversion Heq.
Qed.

Lemma quoted_value_not_recovered_witness :
  retokenized (loaded (company_doc quoted_value))
  = Ok ["python"; "-m"; "nuitka";
        "--company-name=a" ++ PyStr.str1 PyStr.backslash ++ q ++ "b"].
Proof.
  destruct (quoted_value_not_recovered quoted_value eq_refl eq_refl)
    as (last & Hcmd & -> & _).
  exact Hcmd.
Defined.

(** C8.  The command depends on the loaded snapshot and the four runtime
    overrides only: two instances that agree on them yield the same
    result whatever the disk holds, and the call leaves the instance as
    it was, so a second call on it yields the same string again. *)
Theorem to_command_deterministic (disk disk' : Disk) (c c' : Config.t)
    (cfg : Doc) :
  _config c = Some cfg ->
  _config c' = Some cfg ->
  _entry_file c = _entry_file c' ->
  _output_dir c = _output_dir c' ->
  _output_filename c = _output_filename c' ->
  _icon_path c = _icon_path c' ->
  fst (to_command disk c) = c /\
  snd (to_command disk' (fst (to_command disk c))) = snd (to_command disk c) /\
  snd (to_command disk' c') = snd (to_command disk c).
Proof.
  intros Hc Hc' He Hd Hf Hi.
  unfold to_command, ensure_loaded. rewrite Hc, Hc'. simpl.
  rewrite Hc. simpl. repeat split.
  unfold command_of. now rewrite He, Hd, Hf, Hi.
Qed.

Lemma to_command_deterministic_witness :
  snd (to_command None (loaded (example_doc "python")))
  = snd (to_command (Some []) (loaded (example_doc "python"))).
Proof.
  destruct (to_command_deterministic (Some []) None
              (loaded (example_doc "python")) (loaded (example_doc "python"))
              (example_doc "python") eq_refl eq_refl eq_refl eq_refl eq_refl
              eq_refl) as (_ & _ & H).
  exact H.
Defined.

End CommandFacts.

(** * LogReaderThread._read_new_logs *)

Module TailFacts.

Import LogReaderThread Props.

Lemma drop_append (a b : string) : drop (String.length a) (a ++ b) = b.
Proof. induction a as [|c a IH]; simpl; [now destruct b|exact IH]. Qed.

Lemma drop_zero (s : string) : drop 0 s = s.
Proof. now destruct s. Qed.

Lemma length_nonempty (s : string) :
  s <> EmptyString -> 0 < String.length s.
Proof. destruct s; [congruence|simpl; lia]. Qed.

(** The tail of a poll once new bytes were read. *)
Lemma deliver_batch (s2 : t) (new_lines : list string) :
  match new_lines with
  | [] => (s2, [])
  | _ :: _ =>
      match filter_lines new_lines with
      | [] => (s2, [])
      | filtered => (s2, [logs_received filtered])
      end
  end = (s2, batch (filter_lines new_lines)).
Proof.
  destruct new_lines as [|l ls]; [reflexivity|].
  now destruct (filter_lines (l :: ls)).
Qed.

(** A poll of a tracked file that is longer than the stored offset. *)
Lemma read_grown (content : string) (offset : nat) :
  offset < String.length content ->
  _read_new_logs (Present content) (mk offset true)
  = (mk (String.length content) true,
     batch (filter_lines (readlines (drop offset content)))).
Proof.
  intros Hlt. unfold _read_new_logs. simpl.
  destruct (Nat.eqb_spec (String.length content) 0); [lia|].
  destruct (Nat.leb_spec (String.length content) offset); [lia|].
  simpl. apply deliver_batch.
Qed.

(** C4 (as amended).  When the file grew by [new] since the poll that
    left the offset at the end of [old], the next poll sets the offset to
    the end of the file, and delivers the new lines, stripped of trailing
    newlines and without those left empty, as one batch event; when every
    new line is left empty it delivers no event. *)
Theorem poll_after_growth (old new : string) :
  new <> EmptyString ->
  _read_new_logs (Present (old ++ new)) (mk (String.length old) true)
  = (mk (String.length (old ++ new)) true,
     batch (filter_lines (readlines new))).
Proof.
  intros Hnew. rewrite (read_grown (old ++ new) (String.length old)).
  - now rewrite drop_append.
  - rewrite length_append. pose proof (length_nonempty new Hnew). lia.
Qed.

Lemma poll_after_growth_witness :
  _read_new_logs (Present (("start" ++ nl) ++ ("compiling" ++ nl ++ nl ++ "linking" ++ nl)))
    (mk 6 true)
  = (mk 25 true, [logs_received ["compiling"; "linking"]]).
Proof.
  exact (poll_after_growth ("start" ++ nl)
           ("compiling" ++ nl ++ nl ++ "linking" ++ nl)
           ltac:(discriminate)).
Defined.

(** C4 (as stated) fails: a file that grew by two lines, both empty,
    yields no batch event at all; the offset still moves to the end. *)
Lemma poll_blank_growth :
  _read_new_logs (Present (("start" ++ nl) ++ (nl ++ nl))) (mk 6 true)
  = (mk 8 true, []).
Proof. reflexivity. Qed.

Lemma absent_poll (s : t) :
  snd (_read_new_logs Absent s) = [] /\
  _log_file_exists (fst (_read_new_logs Absent s)) = false.
Proof. unfold _read_new_logs. destruct s as [p []]; simpl; auto. Qed.

(** The first read of a file the tailer did not know starts at 0. *)
Lemma fresh_read (s : t) (content : string) :
  _log_file_exists s = false ->
  _read_new_logs (Present content) s
  = (mk (String.length content) true,
     batch (filter_lines (readlines content))).
Proof.
  destruct s as [p e]. cbn [_log_file_exists]. intros ->.
  destruct content as [|c rest]; [reflexivity|].
  change (_read_new_logs (Present (String c rest)) (mk p false))
    with (_read_new_logs (Present (String c rest)) (mk 0 true)).
  rewrite (read_grown (String c rest) 0); [now rewrite drop_zero|simpl; lia].
Qed.

(** C7 (as amended).  Once a poll has found the log file missing, the
    first poll that finds it again reads it from byte offset 0, whatever
    offset was stored before and however many polls found it missing.  A
    poll of a file the tailer is tracking delivers nothing and changes
    nothing when the size is at most the stored offset, and reads from the
    stored offset when the file is longer, also when the file was replaced
    since the last poll. *)
Theorem recreated_file_read_from_start (s : t) (content : string) (k : nat) :
  polls (repeat Absent (S k) ++ [Present content])%list s
  = (mk (String.length content) true,
     batch (filter_lines (readlines content)))
  /\ (_log_file_exists s = true ->
      String.length content <= _last_position s ->
      _read_new_logs (Present content) s = (s, []))
  /\ (_log_file_exists s = true ->
      _last_position s < String.length content ->
      _read_new_logs (Present content) s
      = (mk (String.length content) true,
         batch (filter_lines (readlines (drop (_last_position s) content))))).
Proof.
  split; [|split].
  - revert s. induction k as [|k IH]; intros s.
    + cbn [repeat app polls]. destruct (absent_poll s) as [He Hx].
      destruct (_read_new_logs Absent s) as [s1 ev1].
      cbn [fst snd] in He, Hx. subst ev1.
      rewrite (fresh_read s1 content Hx). cbn [app]. now rewrite app_nil_r.
    + change (repeat Absent (S (S k)) ++ [Present content])%list
        with (Absent :: (repeat Absent (S k) ++ [Present content]))%list.
      cbn [polls]. destruct (absent_poll s) as [He _].
      destruct (_read_new_logs Absent s) as [s1 ev1].
      cbn [snd] in He. subst ev1.
      now rewrite IH.
  - destruct s as [p e]. cbn [_log_file_exists _last_position].
    intros -> Hle. unfold _read_new_logs. simpl.
    destruct (Nat.eqb_spec (String.length content) 0); [reflexivity|].
    destruct (Nat.leb_spec (String.length content) p); [reflexivity|lia].
  - destruct s as [p e]. cbn [_log_file_exists _last_position].
    intros -> Hlt. now apply read_grown.
Qed.

Lemma recreated_file_read_from_start_witness :
  _read_new_logs (Present "0123456789") (mk 10 true) = (mk 10 true, []).
Proof.
  exact (proj1 (proj2 (recreated_file_read_from_start (mk 10 true)
                         "0123456789" 0))
           eq_refl ltac:(simpl; lia)).
Defined.

(** C7 (as stated) fails: a file of ten bytes was read to its end, then
    deleted and created again with twelve bytes before the next poll.
    That poll reads from the stored offset 10 and delivers the last two
    bytes; a read from offset 0 would deliver the whole line. *)
Lemma recreated_between_polls :
  _read_new_logs (Present "0123456789ab") (mk 10 true)
  = (mk 12 true, [logs_received ["ab"]])
  /\ _read_new_logs (Present "0123456789ab") (mk 0 true)
     = (mk 12 true, [logs_received ["0123456789ab"]]).
Proof. split; reflexivity. Qed.

End TailFacts.

(** * EmbeddedFile.validate *)

Module EmbedFacts.

Import EmbeddedFile.

(** C10.  [validate] accepts an empty destination path: when the source
    path exists, the destination is the empty string and the type is not
    PATTERN, or is PATTERN with a non-empty pattern, the result is ok with
    an empty message. *)
Theorem validate_empty_destination (path_exists : string -> bool) (f : t) :
  path_exists (source_path f) = true ->
  destination_path f = EmptyString ->
  (file_type f <> PATTERN \/
   exists text, pattern f = Some text /\ text <> EmptyString) ->
  validate path_exists f = (true, EmptyString).
Proof.
  intros Hsrc Hdst Hpat. unfold validate. rewrite Hsrc, Hdst. simpl.
  destruct Hpat as [Hne|(text & -> & Htext)].
  - destruct (file_type f); try reflexivity. congruence.
  - destruct text; [congruence|]. simpl. now rewrite andb_false_r.
Qed.

Lemma validate_empty_destination_witness :
  validate (fun _ => true) (mk "data.json" EmptyString PATTERN false (Some "*.json"))
  = (true, EmptyString).
Proof.
  apply validate_empty_destination.
  - reflexivity.
  - reflexivity.
  - right. exists "*.json". split; [reflexivity|discriminate].
Defined.

End EmbedFacts.

(** * NuitkaRunner.run and NuitkaRunner.stop *)

Module RunnerFacts.

Import NuitkaRunner Props.

Section Facts.

Variable strftime : Time -> string.

Lemma finish_zero (s : t) :
  status (task (finish strftime 0 s)) = COMPLETED /\
  end_time (task (finish strftime 0 s)) = Some (clock s) /\
  exit_code (task (finish strftime 0 s)) = Some 0%Z /\
  emitted (finish strftime 0 s) = (emitted s ++ [build_finished 0])%list /\
  process (finish strftime 0 s) = process s.
Proof.
  unfold finish. change (0 =? 0)%Z with true. cbv iota.
  destruct s as [b p r [] c l e pr]; cbn; repeat split.
Qed.

Lemma finish_nonzero (code : Z) (s : t) :
  code <> 0%Z ->
  status (task (finish strftime code s)) = FAILED /\
  end_time (task (finish strftime code s)) = Some (clock s) /\
  exit_code (task (finish strftime code s)) = Some code /\
  emitted (finish strftime code s)
  = (emitted s ++ [build_failed ("构建失败,退出码: " ++ PyStr.of_Z code)])%list /\
  process (finish strftime code s) = process s.
Proof.
  intros Hne. unfold finish.
  destruct (Z.eqb_spec code 0) as [|_]; [contradiction|].
  destruct s as [b p r [] c l e pr]; cbn; repeat split.
Qed.

Lemma fail_with_spec (error_msg : string) (s : t) :
  status (task (fail_with strftime error_msg s)) = FAILED /\
  end_time (task (fail_with strftime error_msg s)) = Some (clock s) /\
  emitted (fail_with strftime error_msg s)
  = (emitted s ++ [build_failed error_msg])%list /\
  process (fail_with strftime error_msg s) = process s.
Proof.
  unfold fail_with.
  destruct s as [b p r [] c l e pr]; cbn; repeat split.
Qed.

Lemma handle_output_frame (line : string) (s : t) :
  emitted (_handle_output strftime line s) = emitted s /\
  process (_handle_output strftime line s) = process s /\
  _is_running (_handle_output strftime line s) = _is_running s.
Proof.
  unfold _handle_output.
  destruct s as [b p r [] c l e pr]; cbn;
    destruct (_parse_progress line); cbn; repeat split.
Qed.

Lemma read_output_frame (output : list string) (s : t) :
  emitted (read_output strftime output s) = emitted s /\
  process (read_output strftime output s) = process s /\
  _is_running (read_output strftime output s) = _is_running s.
Proof.
  revert s. induction output as [|line rest IH]; intros s; simpl.
  - repeat split.
  - destruct (PyStr.nonempty line); [|repeat split].
    destruct (IH (_handle_output strftime
                    (LogReaderThread.strip_newlines line) s))
      as (He & Hp & Hr).
    destruct (handle_output_frame (LogReaderThread.strip_newlines line) s)
      as (He' & Hp' & Hr').
    repeat split; congruence.
Qed.



(** With a usable log file, [run] is its [try] block on a state that
    still has the command, the signals and the process of the start. *)
Lemma run_reaches_try (env : RunEnv) (s : t) :
  log_ready env s ->
  exists s0,
    run strftime env s = set_running false (execute strftime env s0) /\
    command (task s0) = command (task s) /\
    emitted s0 = emitted s /\
    process s0 = process s.
Proof.
  intros Hready. unfold run, prepare, log_ready in *.
  destruct s as [b p r lf c l e pr]. cbn in *.
  destruct (has_log_path b) eqn:Hpath.
  - destruct Hready as [Hready|Hready]; [discriminate|].
    replace (has_log_path (set_start_time c (set_status RUNNING b)))
      with true by (symmetry; exact Hpath).
    rewrite Hready. cbn.
    eexists. split; [reflexivity|]. cbn. repeat split.
  - replace (has_log_path (set_start_time c (set_status RUNNING b)))
      with false by (symmetry; exact Hpath).
    eexists. split; [reflexivity|]. cbn. repeat split.
Qed.

Lemma run_not_running (env : RunEnv) (s : t) :
  _is_running (run strftime env s) = false.
Proof.
  unfold run, prepare. destruct s as [b p r lf c l e pr]. cbn.
  destruct (has_log_path _); [destruct (open_error env)|]; reflexivity.
Qed.

(** C5.  With a usable log file: when the child exits with code 0 the
    task ends COMPLETED with an end time and [build_finished] is
    emitted; when it exits with another code the task ends FAILED and
    [build_failed] carries the message with that code; when the child
    cannot be started, for a missing executable or for any other
    exception, the task ends FAILED with an end time, [build_failed] is
    emitted and no process was ever set.  [run] returns in every case
    and leaves the runner not running. *)
Theorem run_outcomes (env : RunEnv) (s : t) :
  log_ready env s ->
  _is_running (run strftime env s) = false /\
  (forall pid output,
     popen env (command_parts s) = Started pid output (Exits 0) ->
     status (task (run strftime env s)) = COMPLETED /\
     (exists x, end_time (task (run strftime env s)) = Some x) /\
     emitted (run strftime env s)
     = (emitted s ++ [build_finished 0])%list) /\
  (forall pid output code,
     popen env (command_parts s) = Started pid output (Exits code) ->
     code <> 0%Z ->
     status (task (run strftime env s)) = FAILED /\
     emitted (run strftime env s)
     = (emitted s
        ++ [build_failed ("构建失败,退出码: " ++ PyStr.of_Z code)])%list) /\
  (forall e,
     popen env (command_parts s) = NotFound e \/
     popen env (command_parts s) = SpawnError e ->
     status (task (run strftime env s)) = FAILED /\
     (exists x, end_time (task (run strftime env s)) = Some x) /\
     (exists error_msg,
        emitted (run strftime env s)
        = (emitted s ++ [build_failed error_msg])%list) /\
     process (run strftime env s) = process s).
Proof.
  intros Hready. split; [apply run_not_running|].
  destruct (run_reaches_try env s Hready) as (s0 & -> & Hc & He & Hp).
  unfold command_parts. rewrite <- Hc, <- He, <- Hp. clear Hc He Hp.
  unfold execute, conclude. cbn [set_running task emitted process].
  repeat split.
  - rewrite H. apply finish_zero.
  - rewrite H. destruct (finish_zero (read_output strftime output
                                        (set_process pid s0)))
      as (_ & Ht & _). eexists. exact Ht.
  - rewrite H.
    destruct (finish_zero (read_output strftime output
                             (set_process pid s0))) as (_ & _ & _ & Hs & _).
    rewrite Hs.
    destruct (read_output_frame output (set_process pid s0))
      as (-> & _). reflexivity.
  - rewrite H. now apply finish_nonzero.
  - rewrite H.
    destruct (finish_nonzero code (read_output strftime output
                                     (set_process pid s0)) H0)
      as (_ & _ & _ & Hs & _).
    rewrite Hs.
    destruct (read_output_frame output (set_process pid s0))
      as (-> & _). reflexivity.
  - destruct H as [-> | ->]; apply fail_with_spec.
  - destruct H as [-> | ->]; eexists; apply fail_with_spec.
  - destruct H as [-> | ->]; eexists; apply fail_with_spec.
  - destruct H as [-> | ->]; apply fail_with_spec.
Qed.

(** When the log file cannot be opened the task ends FAILED as well,
    and no process is started. *)
Lemma run_log_unavailable (env : RunEnv) (s : t) (e : string) :
  has_log_path (task s) = true ->
  open_error env = Some e ->
  status (task (run strftime env s)) = FAILED /\
  emitted (run strftime env s)
  = (emitted s ++ [build_failed ("无法创建日志文件: " ++ e)])%list /\
  process (run strftime env s) = process s.
Proof.
  intros Hpath Herr. unfold run, prepare.
  destruct s as [b p r lf c l em pr]. cbn in *.
  replace (has_log_path (set_start_time c (set_status RUNNING b)))
    with true by (symmetry; exact Hpath).
  rewrite Herr. cbn. repeat split.
Qed.



(** What a [stop] that takes effect leaves behind. *)
Lemma stop_fires (env : StopEnv) (s : t) (pid : Z) :
  process s = Some pid ->
  _is_running s = true ->
  status (task (stop strftime env s)) = FAILED /\
  (exists x, end_time (task (stop strftime env s)) = Some x) /\
  _is_running (stop strftime env s) = false /\
  _log_file (stop strftime env s) = false.
Proof.
  intros Hp Hr. unfold stop. rewrite Hp, Hr.
  destruct s as [b p r lf c l em pr].
  destruct env as [w tk tm]. unfold _terminate_process_fallback. cbn.
  destruct w; [destruct tk as [k|]|];
    try (destruct tm as [|[k2|]|k2]); destruct lf; cbn;
    repeat split; eexists; reflexivity.
Qed.


End Facts.

Lemma run_outcomes_witness :
  status (task (run demo_strftime (demo_env 0) (init demo_task 100)))
  = COMPLETED /\
  status (task (run demo_strftime (demo_env 1) (init demo_task 100)))
  = FAILED.
Proof.
  split.
  - destruct (run_outcomes demo_strftime (demo_env 0) (init demo_task 100)
                (or_intror eq_refl)) as (_ & H & _).
    exact (proj1 (H 4242%Z ["Compiling module X" ++ nl] eq_refl)).
  - destruct (run_outcomes demo_strftime (demo_env 1) (init demo_task 100)
                (or_intror eq_refl)) as (_ & _ & H & _).
    exact (proj1 (H 4242%Z ["Compiling module X" ++ nl] 1%Z eq_refl
                    ltac:(discriminate))).
Defined.



End RunnerFacts.

(** * NuitkaRunner._parse_command: what a command line is split into *)

Module ParseFacts.

Import NuitkaRunner Props Terms.

Lemma append_empty (s : string) : s ++ EmptyString = s.
Proof. induction s as [|x s IH]; simpl; [reflexivity|now rewrite IH]. Qed.

(** A word ends at the first white space after it. *)
Lemma lex_word_then (w token rest : string) (c : ascii) :
  no_space w = true ->
  is_shlex_space c = true ->
  lex Word token (w ++ String c rest)
  = more <- lex Blank EmptyString rest ;; Ok ((token ++ w) :: more).
Proof.
  revert token. induction w as [|x w IH]; intros token Hw Hc.
  - cbn [append lex]. rewrite Hc. now rewrite append_empty.
  - cbn [no_space] in Hw. apply andb_true_iff in Hw as [H1 H2].
    apply negb_true_iff in H1.
    cbn [append lex]. rewrite H1, (IH _ H2 Hc).
    now rewrite append_assoc.
Qed.

(** A word that nothing follows is the last token. *)
Lemma lex_word_last (w token : string) :
  no_space w = true -> lex Word token w = Ok [token ++ w].
Proof.
  revert token. induction w as [|x w IH]; intros token Hw.
  - cbn [lex]. now rewrite append_empty.
  - cbn [no_space] in Hw. apply andb_true_iff in Hw as [H1 H2].
    apply negb_true_iff in H1.
    cbn [lex]. rewrite H1, (IH _ H2). now rewrite append_assoc.
Qed.

Lemma plain_inv (w : string) :
  plain w = true ->
  exists c w', w = String c w' /\ is_shlex_space c = false
               /\ is_quote c = false /\ no_space w' = true.
Proof.
  destruct w as [|c w']; [discriminate|].
  unfold plain. cbn [PyStr.nonempty no_space starts_quoted andb].
  intros H. apply andb_true_iff in H as [H Hq].
  apply andb_true_iff in H as [Hc Hw].
  apply negb_true_iff in Hc, Hq. now exists c, w'.
Qed.

Lemma lex_plain_last (w : string) :
  plain w = true -> lex Blank EmptyString w = Ok [w].
Proof.
  intros H. destruct (plain_inv w H) as (c & w' & -> & Hc & Hq & Hw).
  cbn [lex]. rewrite Hc, Hq. now rewrite (lex_word_last w' (PyStr.str1 c) Hw).
Qed.

Lemma lex_plain_then (w rest : string) (sp : ascii) :
  plain w = true ->
  is_shlex_space sp = true ->
  lex Blank EmptyString (w ++ String sp rest)
  = more <- lex Blank EmptyString rest ;; Ok (w :: more).
Proof.
  intros H Hsp. destruct (plain_inv w H) as (c & w' & -> & Hc & Hq & Hw).
  cbn [append lex]. rewrite Hc, Hq.
  now rewrite (lex_word_then w' (PyStr.str1 c) rest sp Hw Hsp).
Qed.

(** A quoted token runs to the next occurrence of its quote, which it
    keeps. *)
Lemma lex_quoted_then (body token rest : string) (quote : ascii) :
  PyStr.has_char quote body = false ->
  lex (Quoted quote) token (body ++ String quote rest)
  = more <- lex Blank EmptyString rest ;;
    Ok ((token ++ body ++ PyStr.str1 quote) :: more).
Proof.
  revert token. induction body as [|x body IH]; intros token Hb.
  - cbn [append lex]. now rewrite Ascii.eqb_refl.
  - cbn [PyStr.has_char] in Hb. apply orb_false_iff in Hb as [H1 H2].
    cbn [append lex]. rewrite Ascii.eqb_sym, H1, (IH _ H2).
    now rewrite append_assoc.
Qed.

(** Without its closing quote the token never ends. *)
Lemma lex_quoted_open (body token : string) (quote : ascii) :
  PyStr.has_char quote body = false ->
  lex (Quoted quote) token body = Raise ValueError.
Proof.
  revert token. induction body as [|x body IH]; intros token Hb.
  - reflexivity.
  - cbn [PyStr.has_char] in Hb. apply orb_false_iff in Hb as [H1 H2].
    cbn [lex]. now rewrite Ascii.eqb_sym, H1, (IH _ H2).
Qed.

Lemma join_cons (x y : string) (l : list string) :
  PyStr.join " " (x :: y :: l) = x ++ String PyStr.SP (PyStr.join " " (y :: l)).
Proof. reflexivity. Qed.

Lemma shlex_split_join (parts : list string) :
  forallb plain parts = true ->
  shlex_split (PyStr.join " " parts) = Ok parts.
Proof.
  induction parts as [|w parts IH]; [reflexivity|].
  intros H. cbn [forallb] in H. apply andb_true_iff in H as [Hw Hps].
  destruct parts as [|w2 parts].
  - apply lex_plain_last, Hw.
  - rewrite join_cons. unfold shlex_split in *.
    rewrite (lex_plain_then w _ PyStr.SP Hw eq_refl), (IH Hps).
    reflexivity.
Qed.

(** X1.  Joining arguments with single spaces and splitting the result
    gives the arguments back, provided that each of them is not empty,
    has no white space and does not begin with a quote. *)
Theorem parse_command_join (parts : list string) :
  forallb plain parts = true ->
  _parse_command (PyStr.join " " parts) = parts.
Proof.
  intros H. unfold _parse_command. now rewrite (shlex_split_join parts H).
Qed.

Lemma parse_command_join_witness :
  _parse_command (PyStr.join " " ["python"; "-m"; "nuitka"; "--jobs=4"; "main.py"])
  = ["python"; "-m"; "nuitka"; "--jobs=4"; "main.py"].
Proof. apply parse_command_join. vm_compute. reflexivity. Defined.

Lemma has_char_append (c : ascii) (a b : string) :
  PyStr.has_char c (a ++ b) = PyStr.has_char c a || PyStr.has_char c b.
Proof.
  induction a as [|x a IH]; [reflexivity|].
  cbn [append PyStr.has_char]. now rewrite IH, orb_assoc.
Qed.

Lemma no_space_append (a b : string) :
  no_space (a ++ b) = no_space a && no_space b.
Proof.
  induction a as [|x a IH]; [reflexivity|].
  cbn [append no_space]. now rewrite IH, andb_assoc.
Qed.

Lemma no_space_chars (s : string) :
  PyStr.has_char PyStr.SP s = false ->
  PyStr.has_char PyStr.TAB s = false ->
  PyStr.has_char PyStr.CR s = false ->
  PyStr.has_char PyStr.LF s = false ->
  no_space s = true.
Proof.
  induction s as [|x s IH]; [reflexivity|].
  cbn [PyStr.has_char no_space]. intros H1 H2 H3 H4.
  apply orb_false_iff in H1 as [A1 B1], H2 as [A2 B2],
    H3 as [A3 B3], H4 as [A4 B4].
  rewrite (IH B1 B2 B3 B4), andb_true_r. unfold is_shlex_space.
  rewrite (Ascii.eqb_sym x PyStr.SP), (Ascii.eqb_sym x PyStr.TAB),
    (Ascii.eqb_sym x PyStr.CR), (Ascii.eqb_sym x PyStr.LF).
  now rewrite A1, A2, A3, A4.
Qed.

Lemma lex_token_last (t : string) :
  one_token t -> lex Blank EmptyString t = Ok [t].
Proof.
  intros [H|(body & -> & Hb)]; [now apply lex_plain_last|].
  change (q ++ body ++ q)
    with (String PyStr.dquote (body ++ String PyStr.dquote EmptyString)).
  cbn [lex]. change (is_shlex_space PyStr.dquote) with false.
  change (is_quote PyStr.dquote) with true. cbn iota.
  now rewrite (lex_quoted_then body _ EmptyString PyStr.dquote Hb).
Qed.

Lemma lex_token_then (t rest : string) :
  one_token t ->
  lex Blank EmptyString (t ++ String PyStr.SP rest)
  = more <- lex Blank EmptyString rest ;; Ok (t :: more).
Proof.
  intros [H|(body & -> & Hb)]; [now apply lex_plain_then|].
  replace ((q ++ body ++ q) ++ String PyStr.SP rest)
    with (String PyStr.dquote
            (body ++ String PyStr.dquote (String PyStr.SP rest))).
  - cbn [lex]. change (is_shlex_space PyStr.dquote) with false.
    change (is_quote PyStr.dquote) with true. cbn iota.
    rewrite (lex_quoted_then body _ (String PyStr.SP rest) PyStr.dquote Hb).
    reflexivity.
  - unfold q. cbn [append PyStr.str1]. f_equal.
    now rewrite append_assoc.
Qed.

Lemma shlex_split_tokens (parts : list string) :
  Forall one_token parts ->
  shlex_split (PyStr.join " " parts) = Ok parts.
Proof.
  induction parts as [|w parts IH]; [reflexivity|].
  intros H. inversion H as [|? ? Hw Hps]; subst.
  destruct parts as [|w2 parts].
  - now apply lex_token_last.
  - rewrite join_cons. unfold shlex_split in *.
    rewrite (lex_token_then w _ Hw), (IH Hps). reflexivity.
Qed.

Lemma quote_path_token (path : string) :
  quotable path = true -> one_token (FileUtils.quote_path path).
Proof.
  unfold quotable. intros H.
  apply andb_true_iff in H as [H Hs]. apply andb_true_iff in H as [H Hlf].
  apply andb_true_iff in H as [H Hcr]. apply andb_true_iff in H as [H Htab].
  apply andb_true_iff in H as [Hne Hq].
  apply negb_true_iff in Hq, Htab, Hcr, Hlf.
  unfold FileUtils.quote_path. rewrite Hq, orb_false_r.
  destruct (PyStr.has_char PyStr.SP path) eqn:Hsp.
  - right. now exists path.
  - left. unfold plain.
    now rewrite Hne, Hs, (no_space_chars path Hsp Htab Hcr Hlf).
Qed.

(** X2.  Paths protected by [quote_path] and joined with spaces are split
    into one argument per path again, and the argument of a path with a
    space is the path together with its two quotes. *)
Theorem quoted_paths_survive (paths : list string) :
  forallb quotable paths = true ->
  _parse_command (PyStr.join " " (map FileUtils.quote_path paths))
  = map FileUtils.quote_path paths
  /\ (forall path, In path paths -> PyStr.has_char PyStr.SP path = true ->
      In (q ++ path ++ q)
         (_parse_command (PyStr.join " " (map FileUtils.quote_path paths)))).
Proof.
  intros H.
  assert (E : _parse_command (PyStr.join " " (map FileUtils.quote_path paths))
              = map FileUtils.quote_path paths).
  { unfold _parse_command. rewrite shlex_split_tokens; [reflexivity|].
    apply Forall_forall. intros t Ht. apply in_map_iff in Ht as (p & <- & Hp).
    apply quote_path_token.
    rewrite forallb_forall in H. now apply H. }
  split; [exact E|].
  intros path Hin Hsp. rewrite E.
  apply in_map_iff. exists path. split; [|exact Hin].
  unfold FileUtils.quote_path. now rewrite Hsp.
Qed.

Lemma quoted_paths_survive_witness :
  _parse_command
    (PyStr.join " " (map FileUtils.quote_path ["C:/Program Files/app"; "main.py"]))
  = map FileUtils.quote_path ["C:/Program Files/app"; "main.py"].
Proof.
  refine (proj1 (quoted_paths_survive ["C:/Program Files/app"; "main.py"] _)).
  vm_compute. reflexivity.
Defined.

(** X3.  When the last argument opens a double quote that is never closed,
    the tokenizer raises and the command is split at white space instead,
    whatever the quote was meant to protect. *)
Theorem unclosed_quote_falls_back (parts : list string) (body : string) :
  forallb plain parts = true ->
  PyStr.has_char PyStr.dquote body = false ->
  shlex_split (PyStr.join " " (parts ++ [q ++ body])) = Raise ValueError
  /\ _parse_command (PyStr.join " " (parts ++ [q ++ body]))
     = split_ws EmptyString (PyStr.join " " (parts ++ [q ++ body])).
Proof.
  intros Hps Hb.
  assert (E : shlex_split (PyStr.join " " (parts ++ [q ++ body]))
              = Raise ValueError).
  { induction parts as [|w parts IH].
    - unfold shlex_split. cbn [app PyStr.join String.concat].
      unfold q. cbn [append PyStr.str1 lex].
      change (is_shlex_space PyStr.dquote) with false.
      change (is_quote PyStr.dquote) with true. cbn iota.
      now apply lex_quoted_open.
    - cbn [forallb] in Hps. apply andb_true_iff in Hps as [Hw Hps].
      specialize (IH Hps).
      destruct parts as [|w2 parts].
      + cbn [app] in *. rewrite join_cons. unfold shlex_split in *.
        now rewrite (lex_plain_then w _ PyStr.SP Hw eq_refl), IH.
      + cbn [app] in *. rewrite join_cons. unfold shlex_split in *.
        now rewrite (lex_plain_then w _ PyStr.SP Hw eq_refl), IH. }
  split; [exact E|]. unfold _parse_command. now rewrite E.
Qed.

Lemma unclosed_quote_falls_back_witness :
  _parse_command (PyStr.join " " (["python"; "-m"; "nuitka"] ++ [q ++ "my app.py"]))
  = ["python"; "-m"; "nuitka"; q ++ "my"; "app.py"].
Proof.
  rewrite (proj2 (unclosed_quote_falls_back ["python"; "-m"; "nuitka"]
                    "my app.py" eq_refl eq_refl)).
  vm_compute. reflexivity.
Defined.

Lemma replace_char_absent (c : ascii) (r s : string) :
  PyStr.has_char c s = false -> PyStr.replace_char c r s = s.
Proof.
  induction s as [|x s IH]; [reflexivity|].
  cbn [PyStr.has_char PyStr.replace_char]. intros H.
  apply orb_false_iff in H as [H1 H2].
  now rewrite Ascii.eqb_sym, H1, (IH H2).
Qed.

Lemma quote_path_normalized (s : string) :
  normalized s = true -> Config._quote_path s = s.
Proof.
  unfold normalized. intros H. apply andb_true_iff in H as [H1 H2].
  apply negb_true_iff in H1, H2. unfold Config._quote_path.
  now rewrite (replace_char_absent _ _ s H1), H2.
Qed.

Lemma plain_append (w a : string) :
  plain w = true -> no_space a = true -> plain (w ++ a) = true.
Proof.
  intros H Ha. destruct (plain_inv w H) as (c & w' & -> & Hc & Hq & Hw).
  unfold plain. cbn [append PyStr.nonempty starts_quoted no_space].
  now rewrite Hc, Hq, no_space_append, Hw, Ha.
Qed.

(** The command of a configuration that only names the interpreter and
    an output directory. *)
Lemma output_dir_command (python dir : string) :
  PyStr.nonempty dir = true ->
  snd (Config.to_command None
         (Config.mk (Some (interpreter_doc python)) false EmptyString dir
            EmptyString EmptyString))
  = Ok (PyStr.join " "
          [python; "-m"; "nuitka"; "--output-dir=" ++ Config._quote_path dir]).
Proof.
  intros Hd.
  unfold Config.to_command, Config.ensure_loaded, Config.command_of,
    interpreter_doc.
  cbn [Config._config snd Config._output_dir Config._output_filename
       Config._icon_path Config._entry_file PyStr.nonempty].
  rewrite Hd. reflexivity.
Qed.

(** X4.  An output directory with a space in it does not reach the child
    process as one argument: the command built by [to_command] carries it
    without quotes, and [_parse_command] splits the flag at the space. *)
Theorem output_dir_with_space_is_split (python a b : string) :
  plain python = true ->
  no_space a = true ->
  plain b = true ->
  normalized a = true ->
  normalized b = true ->
  retokenized
    (Config.mk (Some (interpreter_doc python)) false EmptyString
       (a ++ " " ++ b) EmptyString EmptyString)
  = Ok [python; "-m"; "nuitka"; "--output-dir=" ++ a; b].
Proof.
  intros Hp Ha Hb Na Nb.
  unfold retokenized. rewrite output_dir_command.
  2:{ destruct a; reflexivity. }
  rewrite quote_path_normalized.
  2:{ unfold normalized in *. rewrite !has_char_append.
      apply andb_true_iff in Na as [A1 A2], Nb as [B1 B2].
      apply negb_true_iff in A1, A2, B1, B2.
      rewrite A1, A2, B1, B2. reflexivity. }
  cbn [bind]. f_equal.
  replace (PyStr.join " "
             [python; "-m"; "nuitka"; "--output-dir=" ++ a ++ " " ++ b])
    with (PyStr.join " "
            [python; "-m"; "nuitka"; "--output-dir=" ++ a; b])
    by (unfold PyStr.join; cbn [String.concat]; do 3 f_equal;
        rewrite !append_assoc; reflexivity).
  apply parse_command_join.
  cbn [forallb]. rewrite Hp, Hb, andb_true_r.
  now rewrite (plain_append "--output-dir=" a eq_refl Ha).
Qed.

Lemma output_dir_with_space_is_split_witness :
  retokenized
    (Config.mk (Some (interpreter_doc "python")) false EmptyString
       ("C:/my" ++ " " ++ "dist") EmptyString EmptyString)
  = Ok ["python"; "-m"; "nuitka"; "--output-dir=" ++ "C:/my"; "dist"].
Proof.
  apply (output_dir_with_space_is_split "python" "C:/my" "dist");
    vm_compute; reflexivity.
Defined.

End ParseFacts.

(** * Config: reading back, temporary values and the deleted file *)

Module StoreFacts.

Import Config Props Terms.

Lemma split_char_absent (c : ascii) (s : string) :
  PyStr.has_char c s = false -> PyStr.split_char c s = [s].
Proof.
  induction s as [|x s IH]; [reflexivity|].
  cbn [PyStr.has_char PyStr.split_char]. intros H.
  apply orb_false_iff in H as [H1 H2].
  now rewrite Ascii.eqb_sym, H1, (IH H2).
Qed.

Lemma split_char_append (c : ascii) (a b : string) :
  PyStr.has_char c a = false ->
  PyStr.split_char c (a ++ String c b) = a :: PyStr.split_char c b.
Proof.
  induction a as [|x a IH].
  - intros _. cbn [append PyStr.split_char]. now rewrite Ascii.eqb_refl.
  - cbn [PyStr.has_char append PyStr.split_char]. intros H.
    apply orb_false_iff in H as [H1 H2].
    now rewrite Ascii.eqb_sym, H1, (IH H2).
Qed.

(** A key with one dot names a leaf of a section. *)
Lemma split_key_two (section leaf : string) :
  PyStr.has_char "." section = false ->
  PyStr.has_char "." leaf = false ->
  OmegaConf.split_key (section ++ "." ++ leaf) = [section; leaf].
Proof.
  intros Hs Hl. unfold OmegaConf.split_key.
  change (section ++ "." ++ leaf) with (section ++ String "." leaf).
  now rewrite (split_char_append "." section leaf Hs),
    (split_char_absent "." leaf Hl).
Qed.

Lemma get_value_at (cfg : Doc) (key : string) :
  get_value cfg key = OmegaConf.value_at (OmegaConf.split_key key) cfg.
Proof. reflexivity. Qed.

(** A scalar written at [section.leaf] is read there. *)
Lemma update_path_scalar (section leaf : string) (value : Value)
    (cfg cfg' : Doc) :
  scalar value = true ->
  OmegaConf.update_path [section; leaf] value cfg = Ok cfg' ->
  OmegaConf.value_at [section; leaf] cfg' = value.
Proof.
  intros Hv. unfold OmegaConf.value_at.
  cbn [OmegaConf.update_path OmegaConf.select_path].
  assert (A : forall d, OmegaConf.assign leaf value d
                        = Ok (set_entry leaf value d))
    by (intros d; destruct value; try reflexivity; discriminate).
  destruct (lookup section cfg) as [[| | | |items|sub]|] eqn:E;
    try discriminate; rewrite A; cbn [bind];
    intros H; inversion H; subst; clear H;
    rewrite lookup_set_entry_same;
    cbn [OmegaConf.select_path];
    first [rewrite lookup_set_entry_same
          |rewrite lookup_cons, String.eqb_refl]; reflexivity.
Qed.

(** Writing a boolean at one leaf leaves what is read at another leaf,
    of the same section or not, as it was. *)
Lemma update_path_elsewhere (s1 l1 s2 l2 : string) (b : bool)
    (cfg cfg' : Doc) :
  (s1, l1) <> (s2, l2) ->
  OmegaConf.update_path [s2; l2] (VBool b) cfg = Ok cfg' ->
  OmegaConf.value_at [s1; l1] cfg' = OmegaConf.value_at [s1; l1] cfg.
Proof.
  intros Hne H. destruct (String.eqb_spec s1 s2) as [->|Hs].
  - apply (OmegaFacts.update_path_sibling s2 l2 l1 b cfg cfg'); [|exact H].
    intros ->. now apply Hne.
  - unfold OmegaConf.value_at. cbn [OmegaConf.select_path].
    rewrite (OmegaFacts.update_path_other_section s2 l2 s1 (VBool b) cfg cfg');
      [reflexivity| |exact H].
    intros ->. now apply Hs.
Qed.

(** The forced write of [Config.update] does not reach another leaf. *)
Lemma force_off_elsewhere (kwargs : Kwargs) (mine : option string)
    (other_default s1 l1 s2 l2 : string) (cfg cfg' : Doc) :
  OmegaConf.split_key other_default = [s2; l2] ->
  (s1, l1) <> (s2, l2) ->
  force_off kwargs mine None other_default cfg = Ok cfg' ->
  OmegaConf.value_at [s1; l1] cfg' = OmegaConf.value_at [s1; l1] cfg.
Proof.
  intros Hk Hne. unfold force_off, OmegaConf.select, OmegaConf.update.
  rewrite Hk.
  destruct mine as [k|]; [|intros H; now inversion H].
  destruct (is_True (lookup k kwargs)); [|intros H; now inversion H].
  destruct (OmegaConf.select_path [s2; l2] cfg) as [[v|]|e];
    cbn [bind]; try discriminate; [|intros H; now inversion H].
  destruct (truthy v); [|intros H; now inversion H].
  now apply update_path_elsewhere.
Qed.

Lemma update_doc_single (key : string) (value : Value) (cfg cfg' : Doc)
    (section leaf : string) :
  OmegaConf.split_key key = [section; leaf] ->
  PyStr.contains "standalone" key = true \/ (section, leaf) <> ("nuitka", "standalone") ->
  PyStr.contains "standalone" key = false \/ (section, leaf) <> ("nuitka", "onefile") ->
  update_doc [(key, value)] cfg = Ok cfg' ->
  exists cfg1,
    OmegaConf.update cfg key value = Ok cfg1 /\
    OmegaConf.value_at [section; leaf] cfg'
    = OmegaConf.value_at [section; leaf] cfg1.
Proof.
  intros Hk Hs Ho. unfold update_doc. cbn [apply_updates scan_mode_keys].
  destruct (OmegaConf.update cfg key value) as [cfg1|e]; [|discriminate].
  cbn [bind]. intros H. exists cfg1. split; [reflexivity|].
  destruct (PyStr.contains "standalone" key) eqn:Es.
  - destruct Ho as [Ho|Ho]; [discriminate|].
    destruct (force_off [(key, value)] (Some key) None "nuitka.onefile" cfg1)
      as [cfg2|e] eqn:E2; [|discriminate].
    cbn [bind force_off] in H. inversion H; subst; clear H.
    now apply (force_off_elsewhere _ _ "nuitka.onefile" section leaf
                 "nuitka" "onefile" _ _ eq_refl Ho E2).
  - destruct Hs as [Hs|Hs]; [discriminate|].
    destruct (PyStr.contains "onefile" key).
    + change (force_off [(key, value)] (Some key) None "nuitka.standalone"
                cfg1 = Ok cfg') in H.
      now apply (force_off_elsewhere _ _ "nuitka.standalone" section leaf
                   "nuitka" "standalone" _ _ eq_refl Hs H).
    + change (Ok cfg1 = Ok cfg') in H. now inversion H.
Qed.

(** X5.  A scalar written with [set] under a key [section.leaf] is what
    [get] returns for that key afterwards, whatever the mutual exclusion
    of the two modes forced on the way, and the file on disk holds the
    document that is in memory.  The two names are plain (not empty, no
    dot, no bracket) and the value is one that OmegaConf keeps as it is
    (not the missing marker, not an interpolation). *)
Theorem set_then_get (section leaf : string) (value : Value)
    (disk disk' : Disk) (c c' : Config.t) :
  simple_name section = true ->
  simple_name leaf = true ->
  scalar value = true ->
  literal value = true ->
  Config.set (section ++ "." ++ leaf) value disk c = Ok (c', disk') ->
  Config.get (section ++ "." ++ leaf) disk' c' = Ok (c', value)
  /\ disk' = _config c'.
Proof.
  intros Ns Nl Hv _.
  assert (Hs : PyStr.has_char "." section = false).
  { unfold simple_name in Ns.
    destruct (PyStr.has_char "." section); [|reflexivity].
    now rewrite andb_false_r in Ns. }
  assert (Hl : PyStr.has_char "." leaf = false).
  { unfold simple_name in Nl.
    destruct (PyStr.has_char "." leaf); [|reflexivity].
    now rewrite andb_false_r in Nl. }
  clear Ns Nl.
  pose proof (split_key_two section leaf Hs Hl) as Hk.
  assert (Hst : PyStr.contains "standalone" (section ++ "." ++ leaf) = true
                \/ (section, leaf) <> ("nuitka", "standalone")).
  { destruct (PyStr.contains "standalone" (section ++ "." ++ leaf)) eqn:E;
      [now left|right].
    intros Heq. inversion Heq; subst. vm_compute in E. discriminate. }
  assert (Hon : PyStr.contains "standalone" (section ++ "." ++ leaf) = false
                \/ (section, leaf) <> ("nuitka", "onefile")).
  { destruct (PyStr.contains "standalone" (section ++ "." ++ leaf)) eqn:E;
      [right|now left].
    intros Heq. inversion Heq; subst. vm_compute in E. discriminate. }
  revert Hk Hst Hon. generalize (section ++ "." ++ leaf). intros key Hk Hst Hon.
  unfold Config.set, Config.update.
  destruct (ensure_loaded disk c) as [[c1 cfg]|e]; [|discriminate].
  cbn [bind].
  destruct (update_doc [(key, value)] cfg) as [cfg'|e] eqn:E; [|discriminate].
  cbn [bind]. intros H. inversion H; subst; clear H.
  split; [|reflexivity].
  unfold get, set_config. cbn [_config]. do 2 f_equal.
  rewrite get_value_at, Hk.
  destruct (update_doc_single key value cfg cfg' section leaf Hk Hst Hon E)
    as (cfg1 & U & F).
  rewrite F. apply (update_path_scalar section leaf value cfg cfg1 Hv).
  unfold OmegaConf.update in U. now rewrite Hk in U.
Qed.

Lemma set_then_get_witness :
  exists c',
    Config.set ("nuitka" ++ "." ++ "standalone") (VBool true) None
      (loaded onefile_doc) = Ok (c', _config c')
    /\ Config.get ("nuitka" ++ "." ++ "standalone") (_config c') c'
       = Ok (c', VBool true)
    /\ Config.get "nuitka.onefile" None c' = Ok (c', VBool false).
Proof.
  exists (loaded [("nuitka", VDict [("onefile", VBool false);
                                    ("standalone", VBool true)])]).
  split; [vm_compute; reflexivity|]. split; [|vm_compute; reflexivity].
  refine (proj1 (set_then_get "nuitka" "standalone" (VBool true) None _
                   (loaded onefile_doc) _ eq_refl eq_refl eq_refl eq_refl _)).
  vm_compute. reflexivity.
Defined.

Lemma temp_loop_document (kwargs : list (string * string)) (c : Config.t) :
  _config (temp_loop kwargs c) = _config c
  /\ _deleted (temp_loop kwargs c) = _deleted c.
Proof.
  revert c. induction kwargs as [|[key value] rest IH]; intros c;
    [now split|].
  cbn [temp_loop].
  match goal with
  | |- context [temp_loop rest ?x] =>
      destruct (IH x) as [A B]; rewrite A, B; clear A B
  end.
  repeat match goal with
         | |- context [if ?b then _ else _] => destruct b
         end; now split.
Qed.

Lemma temp_loop_ignored (kwargs : list (string * string)) (c : Config.t) :
  forallb (fun kv => negb (runtime_key (fst kv))) kwargs = true ->
  temp_loop kwargs c = c.
Proof.
  induction kwargs as [|[key value] rest IH]; [reflexivity|].
  cbn [forallb fst]. intros H. apply andb_true_iff in H as [Hk Hr].
  apply negb_true_iff in Hk. unfold runtime_key, runtime_keys in Hk.
  cbn [existsb] in Hk.
  apply orb_false_iff in Hk as [K1 Hk]. apply orb_false_iff in Hk as [K2 Hk].
  apply orb_false_iff in Hk as [K3 Hk]. apply orb_false_iff in Hk as [K4 _].
  cbn [temp_loop]. rewrite K1, K2, K3, K4. now apply IH.
Qed.

(** X6.  [temp] never changes the document: after the call the instance
    holds the same document and the same deleted mark, and a call whose
    keys are all other than the four runtime keys changes nothing at
    all. *)
Theorem temp_keeps_document (kwargs : list (string * string)) (disk : Disk)
    (c : Config.t) (cfg : Doc) :
  _config c = Some cfg ->
  (exists c',
     Config.temp kwargs disk c = Ok c' /\ _config c' = Some cfg
     /\ _deleted c' = _deleted c)
  /\ (forallb (fun kv => negb (runtime_key (fst kv))) kwargs = true ->
      Config.temp kwargs disk c = Ok c).
Proof.
  intros Hc. unfold Config.temp, ensure_loaded. rewrite Hc. cbn [bind].
  split.
  - exists (temp_loop kwargs c). split; [reflexivity|].
    destruct (temp_loop_document kwargs c) as [A B]. now rewrite A, B.
  - intros H. now rewrite (temp_loop_ignored kwargs c H).
Qed.

Lemma temp_keeps_document_witness :
  Config.temp [("nuitka.jobs", "8"); ("nuitka.quiet", "True")] None
    (loaded both_modes)
  = Ok (loaded both_modes).
Proof.
  apply (proj2 (temp_keeps_document [("nuitka.jobs", "8"); ("nuitka.quiet", "True")]
                  None (loaded both_modes) both_modes eq_refl)).
  vm_compute. reflexivity.
Defined.

(** X7.  After [delete] the instance answers [get] with the default and
    [config] with the empty mapping without looking at the disk, while
    [to_command], [update] and [temp] try to load the file again and
    raise [RuntimeError] as long as it is gone. *)
Theorem deleted_config_reads_defaults (disk disk' : Disk) (c c' : Config.t) :
  ConfigFile.delete false disk c = Ok (c', disk') ->
  disk' = None
  /\ (forall key d, Config.get key d c' = Ok (c', VNone))
  /\ (forall d, ConfigFile.config d c' = Ok (c', []))
  /\ snd (Config.to_command disk' c') = Raise RuntimeError
  /\ (forall kwargs, Config.update kwargs disk' c' = Raise RuntimeError)
  /\ (forall kwargs, Config.temp kwargs disk' c' = Raise RuntimeError).
Proof.
  unfold ConfigFile.delete. intros H. inversion H; subst; clear H.
  repeat split.
Qed.

Lemma deleted_config_reads_defaults_witness :
  Config.get "nuitka.onefile" (Some both_modes)
    (Config.mk None true EmptyString EmptyString EmptyString EmptyString)
  = Ok (Config.mk None true EmptyString EmptyString EmptyString EmptyString,
        VNone).
Proof.
  apply (deleted_config_reads_defaults (Some both_modes) None
           (loaded both_modes)
           (Config.mk None true EmptyString EmptyString EmptyString
              EmptyString) eq_refl).
Defined.

(** X8.  A section of boolean options under ordinary keys becomes one
    bare flag per option that is true, in the order of the document; an
    option that is false leaves no trace in the command. *)
Theorem boolean_options_become_flags (entries : list (string * bool)) :
  forallb (fun kv => ordinary (fst kv)) entries = true ->
  generic_flags (switches entries)
  = Ok (map (fun kv => "--" ++ fst kv) (filter snd entries)).
Proof.
  induction entries as [|[key b] rest IH]; [reflexivity|].
  cbn [forallb fst]. intros H. apply andb_true_iff in H as [Hk Hr].
  unfold ordinary in Hk. apply negb_true_iff in Hk.
  unfold switches in *. cbn [map generic_flags fst snd].
  unfold option_flags. rewrite Hk, (IH Hr).
  destruct b; reflexivity.
Qed.

Lemma boolean_options_become_flags_witness :
  generic_flags
    (switches [("standalone", true); ("quiet", false); ("remove-output", true)])
  = Ok ["--standalone"; "--remove-output"].
Proof.
  apply (boolean_options_become_flags
           [("standalone", true); ("quiet", false); ("remove-output", true)]).
  vm_compute. reflexivity.
Defined.

Lemma set_entry_keys {A : Type} (k x : string) (v : A) (d : list (string * A)) :
  In x (map fst (set_entry k v d)) -> x = k \/ In x (map fst d).
Proof.
  induction d as [|[k' v'] rest IH]; cbn [set_entry map fst In].
  - intros [H|[]]; now left.
  - destruct (String.eqb_spec k k') as [->|Hne]; cbn [map fst In].
    + intros [H|H]; [now left|right; now right].
    + intros [H|H]; [right; now left|].
      destruct (IH H) as [E|E]; [now left|right; now right].
Qed.

Lemma set_entry_nodup {A : Type} (k : string) (v : A) (d : list (string * A)) :
  NoDup (map fst d) -> NoDup (map fst (set_entry k v d)).
Proof.
  induction d as [|[k' v'] rest IH]; cbn [set_entry map fst].
  - intros _. constructor; [intros []|constructor].
  - intros H. inversion H as [|? ? Hn Hr]; subst.
    destruct (String.eqb_spec k k') as [->|Hne]; cbn [map fst].
    + now constructor.
    + constructor; [|now apply IH].
      intros Hin. destruct (set_entry_keys _ _ _ _ Hin) as [E|E];
        [now apply Hne|now apply Hn].
Qed.

Lemma lookup_nodup {A : Type} (k : string) (v : A) (d : list (string * A)) :
  NoDup (map fst d) -> In (k, v) d -> lookup k d = Some v.
Proof.
  induction d as [|[k' v'] rest IH]; [intros _ []|].
  cbn [map fst]. intros H Hin. inversion H as [|? ? Hn Hr]; subst.
  rewrite lookup_cons. destruct Hin as [E|Hin].
  - inversion E; subst. now rewrite String.eqb_refl.
  - destruct (String.eqb_spec k k') as [->|Hne]; [|now apply IH].
    exfalso. apply Hn. apply in_map_iff. now exists (k', v).
Qed.

Lemma generic_flags_in (entries : Doc) (flags : list string) (f : string) :
  generic_flags entries = Ok flags -> In f flags ->
  exists key value here,
    In (key, value) entries /\ option_flags key value = Ok here /\ In f here.
Proof.
  revert flags. induction entries as [|[key value] rest IH]; intros flags.
  - cbn [generic_flags]. intros H. inversion H. intros [].
  - cbn [generic_flags].
    destruct (option_flags key value) as [here|e] eqn:E; [|discriminate].
    destruct (generic_flags rest) as [more|e]; [|discriminate].
    cbn [bind]. intros H. inversion H; subst; clear H. intros Hin.
    apply in_app_or in Hin as [Hin|Hin].
    + exists key, value, here. split; [now left|now split].
    + destruct (IH more eq_refl Hin) as (k & v & h & A & B & C).
      exists k, v, h. split; [now right|now split].
Qed.

Lemma generic_flags_has (entries : Doc) (flags here : list string)
    (key : string) (value : Value) (f : string) :
  generic_flags entries = Ok flags ->
  In (key, value) entries -> option_flags key value = Ok here ->
  In f here -> In f flags.
Proof.
  revert flags. induction entries as [|[k v] rest IH]; intros flags;
    [intros _ []|].
  cbn [generic_flags].
  destruct (option_flags k v) as [h|e] eqn:E; [|discriminate].
  destruct (generic_flags rest) as [more|e]; [|discriminate].
  cbn [bind]. intros H. inversion H; subst; clear H.
  intros [Hin|Hin] Ho Hf; apply in_or_app.
  - inversion Hin; subst. rewrite E in Ho. inversion Ho; subst. now left.
  - right. now apply (IH more eq_refl Hin Ho Hf).
Qed.

Lemma list_flags_shape (key : string) (items : list Value) (here : list string)
    (f : string) :
  list_flags key items = Ok here -> In f here ->
  exists text, f = "--" ++ key ++ "=" ++ text.
Proof.
  revert here. induction items as [|item rest IH]; intros here.
  - cbn [list_flags]. intros H. inversion H. intros [].
  - cbn [list_flags].
    assert (G : (text <- py_str item ;; more <- list_flags key rest ;;
                 Ok (("--" ++ key ++ "=" ++ text) :: more)) = Ok here ->
                In f here -> exists text, f = "--" ++ key ++ "=" ++ text).
    { destruct (py_str item) as [text|e]; [|discriminate].
      destruct (list_flags key rest) as [more|e]; [|discriminate].
      cbn [bind]. intros H. inversion H; subst; clear H.
      intros [Hin|Hin]; [now exists text|now apply (IH more eq_refl)]. }
    destruct item as [| | |s| |]; try exact G; try apply IH.
    destruct s; [apply IH|exact G].
Qed.

(** Where a bare flag of the command comes from. *)
Lemma bare_flag_origin (key : string) (value : Value) (here : list string)
    (name : string) :
  PyStr.has_char "=" name = false ->
  option_flags key value = Ok here -> In ("--" ++ name) here ->
  key = name /\ value = VBool true.
Proof.
  intros Hn. unfold option_flags.
  assert (Hbad : forall text, "--" ++ name <> "--" ++ key ++ "=" ++ text).
  { intros text E. inversion E as [E']. rewrite E' in Hn.
    change (key ++ "=" ++ text) with (key ++ String "=" text) in Hn.
    rewrite ParseFacts.has_char_append in Hn. cbn [PyStr.has_char] in Hn.
    rewrite Ascii.eqb_refl in Hn. cbn [orb] in Hn.
    now rewrite orb_true_r in Hn. }
  destruct (existsb (String.eqb key) SPECIAL_KEYS);
    [intros H; inversion H; intros []|].
  destruct value as [|b|n|s|items|sub].
  - cbn. intros H; inversion H; intros [].
  - destruct b; cbn; intros H; inversion H; subst; [|intros []].
    intros [E|[]]. inversion E. now split.
  - cbn [is_absent]. destruct (n =? 0)%Z.
    + intros H; inversion H; intros [].
    + cbn [py_str bind]. intros H; inversion H; subst.
      intros [E|[]]. symmetry in E. now apply Hbad in E.
  - destruct (is_absent (VStr s)).
    + intros H; inversion H; intros [].
    + intros H; inversion H; subst.
      intros [E|[]]. symmetry in E. now apply Hbad in E.
  - intros H Hin. destruct (list_flags_shape key items here _ H Hin) as [t E].
    now apply Hbad in E.
  - intros H; inversion H; intros [].
Qed.

Lemma switch_section (mine other : string) (cfg cfg' entries : Doc) :
  (mine = "standalone" /\ other = "onefile")
  \/ (mine = "onefile" /\ other = "standalone") ->
  lookup "nuitka" cfg = Some (VDict entries) ->
  update_doc [("nuitka." ++ mine, VBool true)] cfg = Ok cfg' ->
  exists entries',
    lookup "nuitka" cfg' = Some (VDict entries')
    /\ lookup mine entries' = Some (VBool true)
    /\ (forall v, lookup other entries' = Some v -> truthy v = false)
    /\ (NoDup (map fst entries) -> NoDup (map fst entries')).
Proof.
  intros Hm Hn.
  assert (G : forall cfg1 e1,
    e1 = set_entry mine (VBool true) entries ->
    cfg1 = set_entry "nuitka" (VDict e1) cfg ->
    mine <> other ->
    force_off [("nuitka." ++ mine, VBool true)] (Some ("nuitka." ++ mine))
      None ("nuitka." ++ other) cfg1 = Ok cfg' ->
    OmegaConf.split_key ("nuitka." ++ other) = ["nuitka"; other] ->
    exists entries',
      lookup "nuitka" cfg' = Some (VDict entries')
      /\ lookup mine entries' = Some (VBool true)
      /\ (forall v, lookup other entries' = Some v -> truthy v = false)
      /\ (NoDup (map fst entries) -> NoDup (map fst entries'))).
  { intros cfg1 e1 He1 Hc1 Hne. unfold force_off.
    rewrite lookup_cons, String.eqb_refl. cbn [is_True].
    unfold OmegaConf.select, OmegaConf.update. intros H Hk. rewrite Hk in H.
    cbn [OmegaConf.select_path OmegaConf.update_path] in H.
    assert (L1 : lookup "nuitka" cfg1 = Some (VDict e1))
      by (rewrite Hc1; apply lookup_set_entry_same).
    rewrite L1 in H. cbn [bind OmegaConf.assign] in H.
    assert (L2 : lookup mine e1 = Some (VBool true))
      by (rewrite He1; apply lookup_set_entry_same).
    assert (N1 : NoDup (map fst entries) -> NoDup (map fst e1))
      by (rewrite He1; apply set_entry_nodup).
    destruct (lookup other e1) as [v|] eqn:Lo.
    - destruct (truthy v) eqn:Tv.
      + inversion H; subst cfg'; clear H.
        exists (set_entry other (VBool false) e1).
        split; [apply lookup_set_entry_same|].
        split; [rewrite (lookup_set_entry_other other mine); [exact L2|];
                intros E; now apply Hne|].
        split; [rewrite lookup_set_entry_same; intros w Hw; now inversion Hw|].
        intros Hd. now apply set_entry_nodup, N1.
      + inversion H; subst cfg'; clear H. exists e1.
        split; [exact L1|]. split; [exact L2|].
        split; [intros w Hw; rewrite Lo in Hw; now inversion Hw; subst|exact N1].
    - inversion H; subst cfg'; clear H. exists e1.
      split; [exact L1|]. split; [exact L2|].
      split; [intros w Hw; rewrite Lo in Hw; discriminate|exact N1]. }
  unfold update_doc. cbn [apply_updates]. unfold OmegaConf.update.
  destruct Hm as [[-> ->]|[-> ->]].
  - change (OmegaConf.split_key ("nuitka." ++ "standalone"))
      with ["nuitka"; "standalone"].
    cbn [OmegaConf.update_path]. rewrite Hn. cbn [OmegaConf.assign bind].
    change (scan_mode_keys [("nuitka." ++ "standalone", VBool true)] None None)
      with (Some ("nuitka." ++ "standalone"), @None string).
    cbv iota.
    destruct (force_off _ (Some _) None "nuitka.onefile" _) as [cfg2|e] eqn:F;
      [|discriminate].
    cbn [bind force_off]. intros H. inversion H; subst cfg2; clear H.
    apply (G _ _ eq_refl eq_refl); [discriminate|exact F|reflexivity].
  - change (OmegaConf.split_key ("nuitka." ++ "onefile"))
      with ["nuitka"; "onefile"].
    cbn [OmegaConf.update_path]. rewrite Hn. cbn [OmegaConf.assign bind].
    change (scan_mode_keys [("nuitka." ++ "onefile", VBool true)] None None)
      with (@None string, Some ("nuitka." ++ "onefile")).
    cbv iota.
    intros F.
    apply (G _ _ eq_refl eq_refl); [discriminate|exact F|reflexivity].
Qed.

Lemma distinct_nodup (names : list string) :
  distinct names = true -> NoDup names.
Proof.
  induction names as [|x rest IH]; [constructor|].
  cbn [distinct]. intros H. apply andb_true_iff in H as [H1 H2].
  apply negb_true_iff in H1. constructor; [|now apply IH].
  intros Hin. assert (E : existsb (String.eqb x) rest = true).
  { apply existsb_exists. exists x. split; [exact Hin|apply String.eqb_refl]. }
  rewrite E in H1. discriminate.
Qed.

(** X9.  Choosing a mode reaches the command.  After [set] has stored
    [True] under [nuitka.standalone], the flags that [to_command] derives
    from the stored section have [--standalone] and do not have
    [--onefile]; and the same with the two modes exchanged. *)
Theorem mode_switch_reaches_command (mine other : string)
    (disk disk' : Disk) (c c1 c' : Config.t) (cfg entries : Doc) :
  (mine = "standalone" /\ other = "onefile")
  \/ (mine = "onefile" /\ other = "standalone") ->
  ensure_loaded disk c = Ok (c1, cfg) ->
  lookup "nuitka" cfg = Some (VDict entries) ->
  distinct_keys entries = true ->
  Config.set ("nuitka." ++ mine) (VBool true) disk c = Ok (c', disk') ->
  exists cfg' entries',
    _config c' = Some cfg'
    /\ lookup "nuitka" cfg' = Some (VDict entries')
    /\ forall flags, generic_flags entries' = Ok flags ->
         In ("--" ++ mine) flags /\ ~ In ("--" ++ other) flags.
Proof.
  intros Hm Hl Hn Hd. unfold Config.set, Config.update. rewrite Hl.
  cbn [bind].
  destruct (update_doc [("nuitka." ++ mine, VBool true)] cfg) as [cfg'|e]
    eqn:E; [|discriminate].
  cbn [bind]. intros H. inversion H; subst; clear H.
  destruct (switch_section mine other cfg cfg' entries Hm Hn E)
    as (entries' & L & Lm & Lo & Nd).
  exists cfg', entries'. split; [reflexivity|]. split; [exact L|].
  intros flags Hf. split.
  - apply (generic_flags_has entries' flags ["--" ++ mine] mine (VBool true));
      [exact Hf|now apply UpdateFacts.lookup_in| |now left].
    destruct Hm as [[-> _]|[-> _]]; reflexivity.
  - intros Hin.
    destruct (generic_flags_in entries' flags _ Hf Hin)
      as (key & value & here & A & B & C).
    assert (Ho : PyStr.has_char "=" other = false)
      by (destruct Hm as [[_ ->]|[_ ->]]; reflexivity).
    destruct (bare_flag_origin key value here other Ho B C) as [-> ->].
    assert (N : NoDup (map fst entries'))
      by (apply Nd, distinct_nodup, Hd).
    pose proof (Lo _ (lookup_nodup other (VBool true) entries' N A)) as T.
    discriminate.
Qed.

Lemma mode_switch_reaches_command_witness :
  exists cfg' entries',
    _config (loaded [("nuitka", VDict [("onefile", VBool false);
                                       ("standalone", VBool true)])])
    = Some cfg'
    /\ lookup "nuitka" cfg' = Some (VDict entries')
    /\ forall flags, generic_flags entries' = Ok flags ->
         In ("--" ++ "standalone") flags /\ ~ In ("--" ++ "onefile") flags.
Proof.
  apply (mode_switch_reaches_command "standalone" "onefile" None
           (Some [("nuitka", VDict [("onefile", VBool false);
                                    ("standalone", VBool true)])])
           (loaded onefile_doc) (loaded onefile_doc) _ onefile_doc
           [("onefile", VBool true)]).
  - left. split; reflexivity.
  - reflexivity.
  - reflexivity.
  - reflexivity.
  - vm_compute. reflexivity.
Defined.


Lemma sort_checks_spec (plugin_checks : list (string * bool)) :
  forall enabled disabled,
    PluginPage.sort_checks plugin_checks enabled disabled
    = ((enabled ++ map fst (filter snd plugin_checks))%list,
       (disabled
        ++ map fst (filter (fun kv => negb (snd kv)) plugin_checks))%list).
Proof.
  induction plugin_checks as [|[plugin is_checked] rest IH];
    intros enabled disabled.
  - cbn. now rewrite !app_nil_r.
  - cbn [PluginPage.sort_checks filter snd]. destruct is_checked;
      cbn [negb map fst]; rewrite IH, <- app_assoc; reflexivity.
Qed.

Lemma plugin_flags_names (flag : string) (names : list string) :
  plugin_flags flag (Some (VList (map VStr names)))
  = Ok (map (fun name => "--" ++ flag ++ "=" ++ name) names).
Proof.
  destruct names as [|n names]; [reflexivity|].
  unfold plugin_flags.
  change (truthy (VList (map VStr (n :: names)))) with true. cbv iota.
  cbn [iterate bind]. generalize (n :: names). clear n names.
  intros names. induction names as [|n names IH]; [reflexivity|].
  cbn [map py_str bind]. rewrite IH. reflexivity.
Qed.

(** X10.  What the plugin page saves reaches the command in full: after
    [_save_plugins], the command has one [--enable-plugin] flag for every
    box that is checked and one [--disable-plugin] flag for every box
    that is not, the enabled ones first, each group in the order of the
    boxes. *)
Theorem saved_plugins_reach_command (python : string)
    (plugin_checks : list (string * bool)) :
  exists c',
    PluginPage._save_plugins plugin_checks None
      (loaded (interpreter_doc python)) = Ok (c', _config c')
    /\ snd (Config.to_command None c')
       = Ok (PyStr.join " "
               ([python; "-m"; "nuitka"]
                ++ map (fun name => ("--enable-plugin=" ++ name)%string)
                     (map fst (filter snd plugin_checks))
                ++ map (fun name => ("--disable-plugin=" ++ name)%string)
                     (map fst (filter (fun kv => negb (snd kv))
                                 plugin_checks)))%list).
Proof.
  unfold PluginPage._save_plugins. rewrite sort_checks_spec. cbn [app].
  set (enabled := map fst (filter snd plugin_checks)).
  set (disabled := map fst (filter (fun kv => negb (snd kv)) plugin_checks)).
  exists (loaded
            [("python", VDict [("path", VStr python)]);
             ("nuitka", VDict [("enabled-plugins", VList (map VStr enabled));
                               ("disabled-plugins", VList (map VStr disabled))])]).
  split; [reflexivity|].
  unfold Config.to_command, ensure_loaded, loaded, command_of.
  cbn [_config snd _output_dir _output_filename _icon_path _entry_file
       PyStr.nonempty].
  cbn [lookup String.eqb Ascii.eqb Bool.eqb bind].
  change (generic_flags
            [("enabled-plugins", VList (map VStr enabled));
             ("disabled-plugins", VList (map VStr disabled))])
    with (@Ok (list string) []).
  cbn [bind]. rewrite !plugin_flags_names. cbn [bind].
  unfold embedded_flags. cbn [bind app]. rewrite app_nil_r. reflexivity.
Qed.

End StoreFacts.

(** * LogReaderThread: what a sequence of polls delivers *)

Module PollFacts.

Import LogReaderThread Props Terms.

Lemma filter_lines_app (a b : list string) :
  filter_lines (a ++ b) = (filter_lines a ++ filter_lines b)%list.
Proof.
  induction a as [|x a IH]; [reflexivity|].
  cbn [app filter_lines]. destruct (PyStr.nonempty (strip_newlines x));
    cbn [app]; now rewrite IH.
Qed.

(** A line feed ends the line that is being read, whatever comes after. *)
Lemma readlines_from_feed (n : nat) :
  forall (a line b : string),
    String.length a <= n ->
    readlines_from line (a ++ String PyStr.LF b)
    = (readlines_from line (a ++ nl) ++ readlines b)%list.
Proof.
  induction n as [|n IH]; intros a line b Hn.
  - destruct a; [|cbn [String.length] in Hn; lia]. reflexivity.
  - destruct a as [|c a]; [reflexivity|].
    cbn [String.length] in Hn.
    cbn [append readlines_from].
    destruct (Ascii.eqb c PyStr.LF).
    + cbn [app]. f_equal. apply IH. lia.
    + destruct (Ascii.eqb c PyStr.CR).
      * destruct a as [|c2 a].
        { reflexivity. }
        cbn [append]. destruct (Ascii.eqb c2 PyStr.LF).
        { cbn [app]. f_equal. apply IH. cbn [String.length] in Hn. lia. }
        { cbn [app]. f_equal.
          apply (IH (String c2 a) EmptyString b). lia. }
      * apply IH. lia.
Qed.

Lemma readlines_feed (body rest : string) :
  readlines ((body ++ nl) ++ rest)
  = (readlines (body ++ nl) ++ readlines rest)%list.
Proof.
  unfold readlines. rewrite append_assoc.
  now apply (readlines_from_feed (String.length body)).
Qed.

Lemma delivered_batch (lines : list string) (events : list Event) :
  delivered (batch lines ++ events) = (lines ++ delivered events)%list.
Proof. destruct lines; reflexivity. Qed.

Lemma polls_cons (obs : Observation) (rest : list Observation) (s : t) :
  polls (obs :: rest) s
  = (fst (polls rest (fst (_read_new_logs obs s))),
     (snd (_read_new_logs obs s)
      ++ snd (polls rest (fst (_read_new_logs obs s))))%list).
Proof.
  cbn [polls]. destruct (_read_new_logs obs s) as [s1 e1].
  cbn [fst snd]. now destruct (polls rest s1).
Qed.

(** The first poll of a new reader, and any poll at the end of what was
    read so far, reads exactly the chunk that was added. *)
Lemma poll_chunk (written body : string) (s : t) :
  s = mk (String.length written) true \/ (written = EmptyString /\ s = initial) ->
  _read_new_logs (Present (written ++ body ++ nl)) s
  = (mk (String.length (written ++ body ++ nl)) true,
     batch (filter_lines (readlines (body ++ nl)))).
Proof.
  intros [->|[-> ->]].
  - rewrite (TailFacts.read_grown (written ++ body ++ nl) (String.length written)).
    + now rewrite TailFacts.drop_append.
    + rewrite !length_append. cbn [String.length nl PyStr.str1]. lia.
  - now rewrite (TailFacts.fresh_read initial _ eq_refl).
Qed.

Lemma polls_growing (bodies : list string) :
  forall (written : string) (s : t),
    s = mk (String.length written) true
    \/ (written = EmptyString /\ s = initial) ->
    delivered (snd (polls (growing written (terminated bodies)) s))
    = filter_lines (readlines (String.concat EmptyString (terminated bodies)))
    /\ (bodies <> [] ->
        fst (polls (growing written (terminated bodies)) s)
        = mk (String.length
                (written ++ String.concat EmptyString (terminated bodies)))
             true).
Proof.
  induction bodies as [|body rest IH]; intros written s Hs.
  - split; [reflexivity|congruence].
  - cbn [terminated map growing]. fold (terminated rest).
    rewrite polls_cons, (poll_chunk written body s Hs). cbn [fst snd].
    destruct (IH (written ++ body ++ nl) _ (or_introl eq_refl)) as [D P].
    assert (C : String.concat EmptyString ((body ++ nl) :: terminated rest)
                = (body ++ nl) ++ String.concat EmptyString (terminated rest)).
    { destruct rest; [cbn; now rewrite ParseFacts.append_empty|reflexivity]. }
    rewrite C. split.
    + rewrite delivered_batch, D, readlines_feed, filter_lines_app.
      reflexivity.
    + intros _. destruct rest as [|b2 rest].
      * cbn [terminated map growing polls fst String.concat].
        now rewrite !ParseFacts.append_empty.
      * rewrite P by discriminate. f_equal. now rewrite !append_assoc.
Qed.

(** X11.  When the log file grows by whole lines between the polls (each
    addition ends with a line feed), a new reader delivers, over all its
    polls, exactly the non-empty lines of the file, each once and in
    order, and ends with its offset at the end of the file. *)
Theorem whole_lines_delivered_once (bodies : list string) :
  delivered (snd (polls (growing EmptyString (terminated bodies)) initial))
  = filter_lines (readlines (String.concat EmptyString (terminated bodies)))
  /\ (bodies <> [] ->
      fst (polls (growing EmptyString (terminated bodies)) initial)
      = mk (String.length (String.concat EmptyString (terminated bodies)))
           true).
Proof.
  apply (polls_growing bodies EmptyString initial). right. now split.
Qed.

Lemma rstrip_idem (chars s : string) :
  PyStr.rstrip chars (PyStr.rstrip chars s) = PyStr.rstrip chars s.
Proof.
  induction s as [|d s IH]; [reflexivity|].
  cbn [PyStr.rstrip].
  destruct (PyStr.rstrip chars s) as [|r0 r] eqn:E.
  - destruct (PyStr.has_char d chars) eqn:Hd; [reflexivity|].
    cbn [PyStr.rstrip PyStr.str1]. now rewrite Hd.
  - cbn [PyStr.rstrip]. cbn [PyStr.rstrip] in IH. now rewrite IH.
Qed.









Lemma filter_lines_clean (lines : list string) :
  Forall (fun line => PyStr.nonempty line = true /\ strip_newlines line = line)
    (filter_lines lines).
Proof.
  induction lines as [|x lines IH]; [constructor|].
  cbn [filter_lines].
  destruct (PyStr.nonempty (strip_newlines x)) eqn:E; [|exact IH].
  constructor; [|exact IH]. split; [exact E|].
  unfold strip_newlines. apply rstrip_idem.
Qed.

(** X13.  Every batch a poll emits has at least one line, and each of its
    lines is non-empty and has no line break at its end. *)
Theorem batches_are_clean (obs : Observation) (s : t) (lines : list string) :
  In (logs_received lines) (snd (_read_new_logs obs s)) ->
  lines <> []
  /\ Forall (fun line => PyStr.nonempty line = true
                         /\ strip_newlines line = line) lines.
Proof.
  assert (B : forall new_lines,
             In (logs_received lines) (batch (filter_lines new_lines)) ->
             lines <> []
             /\ Forall (fun line => PyStr.nonempty line = true
                                    /\ strip_newlines line = line) lines).
  { intros new_lines. pose proof (filter_lines_clean new_lines) as C.
    destruct (filter_lines new_lines) as [|l ls]; [intros []|].
    cbn [batch In]. intros [E|[]]. inversion E; subst.
    split; [discriminate|exact C]. }
  unfold _read_new_logs. destruct obs as [|content|failure].
  - destruct (_log_file_exists s); intros [].
  - match goal with
    | |- context [if ?b then _ else _] => destruct b
    end; [intros []|].
    rewrite TailFacts.deliver_batch. cbn [snd]. apply B.
  - cbn [snd]. destruct failure as [|m|m]; cbn [on_failure].
    + intros [].
    + destruct (_ || _); [intros []|intros [E|[]]; discriminate].
    + intros [E|[]]; discriminate.
Qed.

Lemma batches_are_clean_witness :
  ["compiling"; "linking"] <> []
  /\ Forall (fun line => PyStr.nonempty line = true
                         /\ strip_newlines line = line)
       ["compiling"; "linking"].
Proof.
  apply (batches_are_clean
           (Present ("compiling" ++ nl ++ nl ++ "linking" ++ nl)) initial).
  vm_compute. left. reflexivity.
Defined.

Lemma loop_after_absence (content : string) (k : nat) (s : t) :
  _log_file_exists s = false ->
  LogReaderLoop.loop
    (repeat (LogReaderLoop.Poll Absent) k
     ++ [LogReaderLoop.Poll (Present content)])%list s
  = (mk (String.length content) true,
     batch (filter_lines (readlines content))).
Proof.
  intros Hs. induction k as [|k IH].
  - cbn [repeat app LogReaderLoop.loop].
    rewrite (TailFacts.fresh_read s content Hs). now rewrite app_nil_r.
  - cbn [repeat app LogReaderLoop.loop]. unfold _read_new_logs at 1.
    rewrite Hs. now rewrite IH.
Qed.

(** X14.  A reader that is started, or started again, delivers the whole
    file at the first poll that finds it, whatever offset the object held
    and whether or not the file was there at the start; so does a poll
    after [reset_position]. *)
Theorem started_reader_reads_from_start (found : bool) (k : nat)
    (content : string) (s : t) :
  LogReaderLoop.run found
    (repeat (LogReaderLoop.Poll Absent) k
     ++ [LogReaderLoop.Poll (Present content)])%list s
  = (mk (String.length content) true,
     batch (filter_lines (readlines content)))
  /\ _read_new_logs (Present content) (reset_position s)
     = (mk (String.length content) true,
        batch (filter_lines (readlines content))).
Proof.
  assert (Z : forall e, _read_new_logs (Present content) (mk 0 e)
                        = (mk (String.length content) true,
                           batch (filter_lines (readlines content)))).
  { intros [|]; [|now apply TailFacts.fresh_read].
    destruct content as [|c rest]; [reflexivity|].
    rewrite (TailFacts.read_grown (String c rest) 0);
      [now rewrite TailFacts.drop_zero|cbn [String.length]; lia]. }
  split.
  - unfold LogReaderLoop.run, LogReaderLoop.begin. destruct found.
    + destruct k as [|k].
      * cbn [repeat app LogReaderLoop.loop]. rewrite Z. now rewrite app_nil_r.
      * cbn [repeat app LogReaderLoop.loop]. unfold _read_new_logs at 1.
        cbn [_log_file_exists].
        now rewrite (loop_after_absence content k (mk 0 false) eq_refl).
    + now apply loop_after_absence.
  - unfold reset_position. apply Z.
Qed.

End PollFacts.

(** * NuitkaRunner: what a run records *)

Module RecordFacts.

Import NuitkaRunner Props Terms.

Section Records.

Variable strftime : Time -> string.

(** What handling one line of output does to the task and the log. *)
Lemma handle_output_record (line : string) (s : t) :
  logs (task (_handle_output strftime line s))
  = (logs (task s) ++ [mkLogEntry (clock s) "INFO" line "nuitka"])%list
  /\ progress (task (_handle_output strftime line s))
     = match _parse_progress line with
       | Some p => p
       | None => progress (task s)
       end
  /\ _log_file (_handle_output strftime line s) = _log_file s
  /\ log_lines (_handle_output strftime line s)
     = (if _log_file s
        then (log_lines s
              ++ [("[" ++ strftime (S (clock s)) ++ "] [INFO] "
                   ++ line)%string])%list
        else log_lines s).
Proof.
  unfold _handle_output. generalize (_parse_progress line). intros est.
  destruct s as [b p r lf c l em pr].
  unfold _write_log, now, with_task.
  cbn [task process _is_running _log_file clock log_lines emitted printed].
  destruct lf, est; cbn; repeat split.
Qed.

(** X15.  [run] records every line that the child writes: the logs of
    the task gain one entry per line, in the order of the output, of the
    level INFO and the source nuitka, whose message is the line without
    its line break; and an open log file gains one line per entry, a log
    that is not open none. *)
Theorem output_is_recorded (output : list string) (s : t) :
  forallb PyStr.nonempty output = true ->
  (exists entries,
     logs (task (read_output strftime output s))
     = (logs (task s) ++ entries)%list
     /\ map message entries = map LogReaderThread.strip_newlines output
     /\ Forall (fun entry => level entry = "INFO" /\ source entry = "nuitka")
          entries)
  /\ List.length (log_lines (read_output strftime output s))
     = List.length (log_lines s)
       + (if _log_file s then List.length output else 0).
Proof.
  revert s. induction output as [|line rest IH]; intros s H.
  - cbn [read_output map List.length]. split.
    + exists []. rewrite app_nil_r. now repeat split.
    + destruct (_log_file s); lia.
  - cbn [forallb] in H. apply andb_true_iff in H as [Hl Hr].
    cbn [read_output]. rewrite Hl.
    destruct (IH (_handle_output strftime
                    (LogReaderThread.strip_newlines line) s) Hr)
      as ((entries & A & B & C) & D).
    destruct (handle_output_record (LogReaderThread.strip_newlines line) s)
      as (L & _ & F & W).
    split.
    + eexists (_ :: entries). rewrite A, L, <- app_assoc. cbn [app].
      split; [reflexivity|]. cbn [map message]. rewrite B.
      split; [reflexivity|]. constructor; [now split|exact C].
    + rewrite D, F, W. cbn [List.length].
      destruct (_log_file s); [rewrite length_app; cbn [List.length]|]; lia.
Qed.

(** X16.  After the output is read, the progress of the task is the
    estimate of the last line that carries one, whatever it was before
    and whatever earlier lines said: the value is replaced, never
    compared, so it can fall. *)
Theorem progress_is_last_estimate (output : list string) (s : t) :
  forallb PyStr.nonempty output = true ->
  progress (task (read_output strftime output s))
  = last_estimate (progress (task s))
      (map LogReaderThread.strip_newlines output).
Proof.
  revert s. induction output as [|line rest IH]; intros s H; [reflexivity|].
  cbn [forallb] in H. apply andb_true_iff in H as [Hl Hr].
  cbn [read_output]. rewrite Hl, (IH _ Hr).
  destruct (handle_output_record (LogReaderThread.strip_newlines line) s)
    as (_ & P & _).
  rewrite P. reflexivity.
Qed.

(** X17.  When the log file cannot be created, [run] gives up before it
    starts anything: the task is FAILED with an end time, the failure is
    signalled with the reason, no process is set, nothing is written to
    the log or recorded, and the runner is not running. *)
Theorem log_failure_ends_run (env : RunEnv) (s : t) (e : string) :
  has_log_path (task s) = true ->
  open_error env = Some e ->
  status (task (run strftime env s)) = FAILED
  /\ (exists x, end_time (task (run strftime env s)) = Some x)
  /\ emitted (run strftime env s)
     = (emitted s ++ [build_failed ("无法创建日志文件: " ++ e)])%list
  /\ process (run strftime env s) = process s
  /\ _is_running (run strftime env s) = false
  /\ log_lines (run strftime env s) = log_lines s
  /\ logs (task (run strftime env s)) = logs (task s)
  /\ exit_code (task (run strftime env s)) = exit_code (task s).
Proof.
  intros Hpath Herr. unfold run, prepare.
  destruct s as [b p r lf c l em pr]. cbn in *.
  replace (has_log_path (set_start_time c (set_status RUNNING b)))
    with true by (symmetry; exact Hpath).
  rewrite Herr. cbn. repeat split. now eexists.
Qed.

Lemma finish_closed (code : Z) (s : t) :
  _log_file s = false ->
  log_lines (finish strftime code s) = log_lines s
  /\ exit_code (task (finish strftime code s)) = Some code
  /\ status (task (finish strftime code s))
     = (if (code =? 0)%Z then COMPLETED else FAILED)
  /\ emitted (finish strftime code s)
     = (emitted s
        ++ [if (code =? 0)%Z then build_finished code
            else build_failed ("构建失败,退出码: " ++ PyStr.of_Z code)])%list.
Proof.
  destruct s as [b p r lf c l em pr]. cbn [_log_file]. intros ->.
  unfold finish. destruct (code =? 0)%Z; cbn; repeat split.
Qed.

(** X18.  When the rest of [run] is executed on a runner that [stop] has
    just cancelled, it writes nothing more to the log, which [stop]
    closed, but it sets the status again from the exit code: a child
    that ends with code 0 leaves the cancelled task COMPLETED, and the
    matching signal is emitted. *)
Theorem run_tail_after_stop (env : StopEnv) (s : t) (pid code : Z) :
  process s = Some pid ->
  _is_running s = true ->
  status (task (stop strftime env s)) = FAILED
  /\ status (task (set_running false
                     (conclude strftime (Exits code) (stop strftime env s))))
     = (if (code =? 0)%Z then COMPLETED else FAILED)
  /\ log_lines (set_running false
                  (conclude strftime (Exits code) (stop strftime env s)))
     = log_lines (stop strftime env s)
  /\ emitted (set_running false
                (conclude strftime (Exits code) (stop strftime env s)))
     = (emitted (stop strftime env s)
        ++ [if (code =? 0)%Z then build_finished code
            else build_failed ("构建失败,退出码: " ++ PyStr.of_Z code)])%list.
Proof.
  intros Hp Hr.
  destruct (RunnerFacts.stop_fires strftime env s pid Hp Hr)
    as (St & _ & _ & Lf).
  destruct (finish_closed code (stop strftime env s) Lf) as (A & _ & B & C).
  cbn [conclude set_running task log_lines emitted].
  now rewrite A, B, C.
Qed.

Lemma read_output_log (output : list string) (s : t) :
  forallb PyStr.nonempty output = true ->
  _log_file s = true ->
  exists body,
    log_lines (read_output strftime output s) = (log_lines s ++ body)%list
    /\ Forall2
         (fun written line =>
            exists stamp,
              written = "[" ++ strftime stamp ++ "] [INFO] "
                        ++ LogReaderThread.strip_newlines line)
         body output
    /\ _log_file (read_output strftime output s) = true.
Proof.
  revert s. induction output as [|line rest IH]; intros s H Hl.
  - exists []. cbn [read_output]. rewrite app_nil_r. now repeat split.
  - cbn [forallb] in H. apply andb_true_iff in H as [Hn Hr].
    cbn [read_output]. rewrite Hn.
    destruct (handle_output_record (LogReaderThread.strip_newlines line) s)
      as (_ & _ & F & W).
    rewrite Hl in F, W.
    destruct (IH _ Hr F) as (body & A & B & C).
    eexists (_ :: body). rewrite A, W, <- app_assoc. cbn [app].
    split; [reflexivity|]. split; [|exact C].
    constructor; [now eexists|exact B].
Qed.

Lemma finish_log (code : Z) (s : t) :
  _log_file s = true ->
  exists closing,
    log_lines (finish strftime code s) = (log_lines s ++ closing)%list
    /\ List.length closing = 3
    /\ _log_file (finish strftime code s) = false.
Proof.
  destruct s as [b p r lf c l em pr]. cbn [_log_file]. intros ->.
  unfold finish. destruct (code =? 0)%Z; cbn;
    rewrite <- !app_assoc; cbn [app]; eexists; repeat split.
Qed.

Lemma prepare_log (env : RunEnv) (s : t) :
  has_log_path (task s) = true ->
  open_error env = None ->
  exists ready opening,
    prepare strftime env s = inl ready
    /\ log_lines ready = opening /\ List.length opening = 3
    /\ _log_file ready = true
    /\ command (task ready) = command (task s).
Proof.
  intros Hpath Herr. unfold prepare.
  destruct s as [b p r lf c l em pr]. cbn in *.
  replace (has_log_path (set_start_time c (set_status RUNNING b)))
    with true by (symmetry; exact Hpath).
  rewrite Herr. cbn. eexists. eexists. repeat split.
Qed.

(** X19.  The log file of a run that reaches the end of the child holds
    nothing of what it held before: three opening lines, then one line
    per line of output, in order and stamped, then three closing lines;
    and the file is closed. *)
Theorem log_file_of_a_run (env : RunEnv) (s : t) (pid code : Z)
    (output : list string) :
  has_log_path (task s) = true ->
  open_error env = None ->
  popen env (command_parts s) = Started pid output (Exits code) ->
  forallb PyStr.nonempty output = true ->
  exists opening body closing,
    log_lines (run strftime env s) = (opening ++ body ++ closing)%list
    /\ List.length opening = 3
    /\ List.length closing = 3
    /\ Forall2
         (fun written line =>
            exists stamp,
              written = "[" ++ strftime stamp ++ "] [INFO] "
                        ++ LogReaderThread.strip_newlines line)
         body output
    /\ _log_file (run strftime env s) = false.
Proof.
  intros Hpath Herr Hpo Hout.
  destruct (prepare_log env s Hpath Herr) as (ready & opening & P & L & N & F & C).
  unfold run. rewrite P. unfold execute. rewrite C.
  unfold command_parts in Hpo. rewrite Hpo. cbn [conclude].
  destruct (read_output_log output (set_process pid ready) Hout F)
    as (body & A & B & F2).
  destruct (finish_log code _ F2) as (closing & D & N2 & F3).
  exists opening, body, closing.
  cbn [set_running log_lines _log_file]. rewrite D, A.
  cbn [set_process log_lines]. rewrite L, <- app_assoc.
  now repeat split.
Qed.

End Records.

Lemma output_is_recorded_witness :
  List.length
    (log_lines (read_output demo_strftime rising_output building))
  = List.length (log_lines building)
    + (if _log_file building then List.length rising_output else 0).
Proof.
  apply (output_is_recorded demo_strftime rising_output building).
  reflexivity.
Defined.

Lemma progress_is_last_estimate_witness :
  progress
    (task (read_output demo_strftime falling_output (init demo_task 100)))
  = last_estimate (progress (task (init demo_task 100)))
      (map LogReaderThread.strip_newlines falling_output).
Proof.
  apply (progress_is_last_estimate demo_strftime falling_output
           (init demo_task 100)).
  reflexivity.
Defined.


Lemma percent_match_nonneg (line : string) :
  forall digits p,
    percent_match digits line = Some p ->
    match digits with Some n => (0 <= n)%Z | None => True end ->
    (0 <= p)%Z.
Proof.
  induction line as [|c line IH]; intros digits p; [discriminate|].
  cbn [percent_match]. destruct (PyStr.is_digit c).
  - intros H Hd. apply (IH _ _ H). destruct digits as [m|]; lia.
  - destruct (Ascii.eqb c "%").
    + destruct digits as [n|].
      * intros H Hd. now injection H as <-.
      * intros H _. now apply (IH _ _ H).
    + intros H _. now apply (IH _ _ H).
Qed.

Lemma first_keyword_positive (line : string) (p : Z) :
  first_keyword progress_keywords line = Some p -> (5 <= p <= 100)%Z.
Proof.
  unfold progress_keywords. cbn [first_keyword].
  repeat match goal with
         | |- context [if ?b then _ else _] => destruct b
         end; intros H; inversion H; lia.
Qed.

Lemma contains_needs_char (c : ascii) (kw s : string) :
  PyStr.has_char c s = false -> PyStr.contains (String c kw) s = false.
Proof.
  induction s as [|d s IH]; [reflexivity|].
  cbn [PyStr.has_char PyStr.contains String.prefix]. intros H.
  apply orb_false_iff in H as [H1 H2]. rewrite (IH H2), orb_false_r.
  destruct (ascii_dec c d) as [->|]; [|reflexivity].
  now rewrite Ascii.eqb_refl in H1.
Qed.

Lemma zeros_char (c : ascii) (k : nat) :
  Ascii.eqb c "0" = false -> Ascii.eqb c "%" = false ->
  Ascii.eqb c "1" = false ->
  PyStr.has_char c (String "1" (zeros k ++ "%")) = false.
Proof.
  intros H0 Hp H1. cbn [PyStr.has_char]. rewrite H1. cbn [orb].
  induction k as [|k IH]; cbn [zeros append PyStr.has_char].
  - now rewrite Hp.
  - now rewrite H0, IH.
Qed.

Lemma lower_zeros (k : nat) :
  PyStr.lower (String "1" (zeros k ++ "%")) = String "1" (zeros k ++ "%").
Proof.
  cbn [PyStr.lower]. f_equal. induction k as [|k IH]; [reflexivity|].
  cbn [zeros append PyStr.lower]. now rewrite IH.
Qed.

Lemma percent_match_zeros (k : nat) (n : Z) :
  percent_match (Some n) (zeros k ++ "%") = Some (n * 10 ^ Z.of_nat k)%Z.
Proof.
  revert n. induction k as [|k IH]; intros n.
  - change (percent_match (Some n) (zeros 0 ++ "%")) with (Some n).
    f_equal. change (Z.of_nat 0) with 0%Z. rewrite Z.pow_0_r. lia.
  - cbn [zeros append percent_match].
    change (PyStr.is_digit "0") with true. cbv iota.
    change (Z.of_nat (nat_of_ascii "0" - 48)) with 0%Z.
    rewrite IH. f_equal. rewrite Nat2Z.inj_succ, Z.pow_succ_r by lia. lia.
Qed.

(** X20.  The estimate of [_parse_progress] is not confined to the range
    from 0 to 100.  It is never negative and a keyword gives a value from
    5 to 100, but a percentage is taken as it is written: the line made
    of a 1, [k] zeros and a percent sign has the estimate 10 to the
    power [k] (stated for up to 4000 zeros, the length of number that
    every Python version converts). *)
Theorem progress_estimate_range :
  (forall line p, _parse_progress line = Some p -> (0 <= p)%Z)
  /\ (forall line p,
        first_keyword progress_keywords (PyStr.lower line) = Some p ->
        _parse_progress line = Some p /\ (5 <= p <= 100)%Z)
  /\ (forall k, k <= 4000 ->
        _parse_progress (String "1" (zeros k ++ "%"))
        = Some (10 ^ Z.of_nat k)%Z).
Proof.
  split; [|split].
  - intros line p. unfold _parse_progress.
    destruct (first_keyword progress_keywords (PyStr.lower line)) as [v|] eqn:E.
    + intros H. inversion H; subst.
      pose proof (first_keyword_positive _ _ E). lia.
    + intros H. now apply (percent_match_nonneg line None p H).
  - intros line p E. unfold _parse_progress. rewrite E.
    split; [reflexivity|now apply (first_keyword_positive _ _ E)].
  - intros k _. unfold _parse_progress. rewrite lower_zeros.
    unfold progress_keywords. cbn [first_keyword].
    rewrite !contains_needs_char by (apply zeros_char; reflexivity).
    cbn [percent_match]. change (PyStr.is_digit "1") with true. cbv iota.
    change (Z.of_nat (nat_of_ascii "1" - 48)) with 1%Z.
    rewrite percent_match_zeros. f_equal. lia.
Qed.

Lemma log_failure_ends_run_witness :
  status (task (run demo_strftime denied_env (init demo_task 100))) = FAILED.
Proof.
  exact (proj1 (log_failure_ends_run demo_strftime denied_env
                  (init demo_task 100) "denied" eq_refl eq_refl)).
Defined.

Lemma run_tail_after_stop_witness :
  status (task (set_running false
                  (conclude demo_strftime (Exits 0)
                     (stop demo_strftime demo_kill building))))
  = COMPLETED.
Proof.
  exact (proj1 (proj2 (run_tail_after_stop demo_strftime demo_kill building
                         4242 0 eq_refl eq_refl))).
Defined.

Lemma log_file_of_a_run_witness :
  exists opening body closing,
    log_lines (run demo_strftime (demo_env 0) (init demo_task 100))
    = (opening ++ body ++ closing)%list
    /\ List.length opening = 3
    /\ List.length closing = 3
    /\ Forall2
         (fun written line =>
            exists stamp,
              written = "[" ++ demo_strftime stamp ++ "] [INFO] "
                        ++ LogReaderThread.strip_newlines line)
         body ["Compiling module X" ++ nl]
    /\ _log_file (run demo_strftime (demo_env 0) (init demo_task 100)) = false.
Proof.
  exact (log_file_of_a_run demo_strftime (demo_env 0) (init demo_task 100)
           4242 0 _ eq_refl eq_refl eq_refl eq_refl).
Defined.

End RecordFacts.


(** * The validators and the path helpers *)

Module CheckFacts.

Import Props Terms.

(** X21.  The verdict of [EmbeddedFile.validate], in full: an entry is
    accepted exactly when its source exists, its destination has no
    backslash and no leading slash, and a PATTERN entry names a pattern;
    and the message is empty exactly when the entry is accepted. *)
Theorem validate_verdict (path_exists : string -> bool) (f : EmbeddedFile.t) :
  (fst (EmbeddedFile.validate path_exists f) = true <->
   path_exists (EmbeddedFile.source_path f) = true
   /\ PyStr.has_char PyStr.backslash (EmbeddedFile.destination_path f) = false
   /\ PyStr.startswith "/" (EmbeddedFile.destination_path f) = false
   /\ (EmbeddedFile.file_type f = EmbeddedFile.PATTERN ->
       EmbeddedFile.pattern_missing (EmbeddedFile.pattern f) = false))
  /\ (snd (EmbeddedFile.validate path_exists f) = EmptyString <->
      fst (EmbeddedFile.validate path_exists f) = true).
Proof.
  unfold EmbeddedFile.validate.
  destruct (path_exists (EmbeddedFile.source_path f)); cbn [negb].
  2:{ cbn. split; split; try discriminate. intros (H & _). discriminate. }
  destruct (PyStr.has_char PyStr.backslash (EmbeddedFile.destination_path f)).
  { cbn. split; split; try discriminate. intros (_ & H & _). discriminate. }
  destruct (PyStr.startswith "/" (EmbeddedFile.destination_path f)).
  { cbn. split; split; try discriminate. intros (_ & _ & H & _). discriminate. }
  destruct (EmbeddedFile.file_type f) eqn:T; cbn [EmbeddedFile.FileType_eqb andb].
  1,2: cbn; split; split; try reflexivity; intros _;
       repeat split; discriminate.
  destruct (EmbeddedFile.pattern_missing (EmbeddedFile.pattern f)).
  - cbn. split; split; try discriminate.
    intros (_ & _ & _ & H). now specialize (H eq_refl).
  - cbn. split; split; try reflexivity. intros _. now repeat split.
Qed.


Lemma split_char_cons (c : ascii) (s : string) :
  exists w ws, PyStr.split_char c s = w :: ws.
Proof.
  destruct s as [|d s]; [now exists EmptyString, []|].
  cbn [PyStr.split_char]. destruct (Ascii.eqb d c); [now eexists; eexists|].
  destruct (PyStr.split_char c s); now eexists; eexists.
Qed.

(** Joining the pieces of a split with the separator gives the text
    back. *)
Lemma join_split_char (c : ascii) (s : string) :
  PyStr.join (PyStr.str1 c) (PyStr.split_char c s) = s.
Proof.
  induction s as [|d s IH]; [reflexivity|].
  cbn [PyStr.split_char].
  destruct (split_char_cons c s) as (w & ws & E). rewrite E in *.
  destruct (Ascii.eqb_spec d c) as [->|Hne].
  - change (PyStr.join (PyStr.str1 c) (EmptyString :: w :: ws))
      with (String c (PyStr.join (PyStr.str1 c) (w :: ws))).
    now rewrite IH.
  - replace (PyStr.join (PyStr.str1 c) (String d w :: ws))
      with (String d (PyStr.join (PyStr.str1 c) (w :: ws)))
      by (destruct ws; reflexivity).
    now rewrite IH.
Qed.

Lemma digits_no_dot (s : string) :
  Validation.all_chars PyStr.is_digit s = true -> PyStr.has_char "." s = false.
Proof.
  induction s as [|c s IH]; [reflexivity|].
  cbn [Validation.all_chars PyStr.has_char]. intros H.
  apply andb_true_iff in H as [Hc Hs]. rewrite (IH Hs), orb_false_r.
  destruct (Ascii.eqb_spec "." c) as [<-|]; [discriminate Hc|reflexivity].
Qed.

Lemma ascii_isdigit_no_dot (s : string) :
  Validation.ascii_isdigit s = true -> PyStr.has_char "." s = false.
Proof.
  unfold Validation.ascii_isdigit. intros H.
  apply andb_true_iff in H as [_ H]. now apply digits_no_dot.
Qed.

(** X22.  [validate_file_version] accepts exactly the texts that are four
    parts joined by dots, each part a digit string for [str.isdigit].
    The test is a parameter; all that is used of it is that a digit
    string has no dot. *)
Theorem file_version_accepted (isdigit : string -> bool) (version : string) :
  (forall s, isdigit s = true -> PyStr.has_char "." s = false) ->
  (fst (Validation.validate_file_version isdigit version) = true <->
   exists a b c d,
     version = a ++ "." ++ b ++ "." ++ c ++ "." ++ d
     /\ isdigit a = true /\ isdigit b = true
     /\ isdigit c = true /\ isdigit d = true).
Proof.
  intros Hdot. unfold Validation.validate_file_version. split.
  - destruct (PyStr.nonempty version); [|discriminate]. cbn [negb].
    pose proof (join_split_char "." version) as J.
    destruct (PyStr.split_char "." version) as [|a [|b [|c [|d [|e l]]]]];
      try discriminate.
    cbn [List.length Nat.eqb negb forallb].
    destruct (isdigit a) eqn:Da; [|discriminate].
    destruct (isdigit b) eqn:Db; [|discriminate].
    destruct (isdigit c) eqn:Dc; [|discriminate].
    destruct (isdigit d) eqn:Dd; [|discriminate].
    intros _. exists a, b, c, d. now rewrite <- J.
  - intros (a & b & c & d & -> & Da & Db & Dc & Dd).
    pose proof (Hdot a Da) as Pa. pose proof (Hdot b Db) as Pb.
    pose proof (Hdot c Dc) as Pc. pose proof (Hdot d Dd) as Pd.
    replace (PyStr.nonempty (a ++ "." ++ b ++ "." ++ c ++ "." ++ d)) with true
      by (destruct a; reflexivity).
    cbn [negb].
    change (a ++ "." ++ b ++ "." ++ c ++ "." ++ d)
      with (a ++ String "." (b ++ String "." (c ++ String "." d))).
    rewrite (StoreFacts.split_char_append "." a _ Pa),
      (StoreFacts.split_char_append "." b _ Pb),
      (StoreFacts.split_char_append "." c _ Pc),
      (StoreFacts.split_char_absent "." d Pd).
    cbn [List.length Nat.eqb negb forallb]. now rewrite Da, Db, Dc, Dd.
Qed.

Lemma file_version_accepted_witness :
  fst (Validation.validate_file_version Validation.ascii_isdigit "1.0.12.3")
  = true <->
  exists a b c d,
    "1.0.12.3" = a ++ "." ++ b ++ "." ++ c ++ "." ++ d
    /\ Validation.ascii_isdigit a = true /\ Validation.ascii_isdigit b = true
    /\ Validation.ascii_isdigit c = true /\ Validation.ascii_isdigit d = true.
Proof.
  exact (file_version_accepted Validation.ascii_isdigit "1.0.12.3"
           ascii_isdigit_no_dot).
Defined.

(** X23.  [validate_jobs] accepts an integer exactly when it lies between
    1 and twice the number of processors, where an unknown number of
    processors counts as one; the boolean [True] is accepted as a number
    of jobs as well. *)
Theorem jobs_accepted (cpu_count : option Z) (n : Z) :
  (fst (Validation.validate_jobs cpu_count (VInt n)) = true <->
   (1 <= n <= 2 * Validation.cpu_or_1 cpu_count)%Z)
  /\ (cpu_count = None -> Validation.cpu_or_1 cpu_count = 1%Z)
  /\ ((1 <= Validation.cpu_or_1 cpu_count)%Z ->
      Validation.validate_jobs cpu_count (VBool true) = (true, EmptyString)).
Proof.
  unfold Validation.validate_jobs. repeat split.
  - destruct (Z.ltb_spec n 1); [discriminate|].
    destruct (Z.ltb_spec (Validation.cpu_or_1 cpu_count * 2) n);
      [discriminate|lia].
  - destruct (Z.ltb_spec n 1); [discriminate|].
    destruct (Z.ltb_spec (Validation.cpu_or_1 cpu_count * 2) n);
      [discriminate|lia].
  - intros [H1 H2]. destruct (Z.ltb_spec n 1); [lia|].
    destruct (Z.ltb_spec (Validation.cpu_or_1 cpu_count * 2) n); [lia|].
    reflexivity.
  - intros ->. reflexivity.
  - intros H. change (1 <? 1)%Z with false. cbv iota.
    destruct (Z.ltb_spec (Validation.cpu_or_1 cpu_count * 2) 1); [lia|].
    reflexivity.
Qed.

Lemma substring_skip (a b : string) (k m : nat) :
  String.substring (String.length a + k) m (a ++ b) = String.substring k m b.
Proof. induction a as [|x a IH]; [reflexivity|]. cbn. exact IH. Qed.

Lemma endswith_at (a b suffix : string) (k : nat) :
  String.length b = k + String.length suffix ->
  PyStr.endswith suffix (a ++ b)
  = String.eqb (String.substring k (String.length suffix) b) suffix.
Proof.
  intros Hb. unfold PyStr.endswith. rewrite length_append, Hb.
  replace (String.length suffix <=? String.length a + (k + String.length suffix))%nat
    with true by (symmetry; apply Nat.leb_le; lia).
  cbn [andb].
  replace (String.length a + (k + String.length suffix) - String.length suffix)
    with (String.length a + k) by lia.
  now rewrite substring_skip.
Qed.

(** X24.  The two tests for a Python file disagree on the second
    extension: [is_python_file] takes every path that ends in [.pyw],
    and [validate_entry_file] accepts none of them. *)
Theorem pyw_is_no_entry_file (path_exists : string -> bool) (stem : string) :
  PathUtils.is_python_file (stem ++ ".pyw") = true
  /\ fst (Validation.validate_entry_file path_exists (stem ++ ".pyw")) = false.
Proof.
  assert (E1 : PyStr.endswith ".pyw" (stem ++ ".pyw") = true)
    by (now rewrite (endswith_at stem ".pyw" ".pyw" 0 eq_refl)).
  assert (E2 : PyStr.endswith ".py" (stem ++ ".pyw") = false)
    by (now rewrite (endswith_at stem ".pyw" ".py" 1 eq_refl)).
  unfold PathUtils.is_python_file, Validation.validate_entry_file.
  rewrite E1, E2, orb_true_r. split; [reflexivity|].
  destruct (PyStr.nonempty (stem ++ ".pyw")); [|reflexivity].
  destruct (path_exists (stem ++ ".pyw")); reflexivity.
Qed.


Lemma replace_char_gone (c r : ascii) (s : string) :
  Ascii.eqb c r = false ->
  PyStr.has_char c (PyStr.replace_char c (PyStr.str1 r) s) = false.
Proof.
  intros Hr. induction s as [|d s IH]; [reflexivity|].
  cbn [PyStr.replace_char]. destruct (Ascii.eqb d c) eqn:E.
  - cbn [append PyStr.str1 PyStr.has_char]. now rewrite Hr, IH.
  - cbn [PyStr.has_char]. now rewrite Ascii.eqb_sym, E, IH.
Qed.

Lemma rstrip_has_char (c : ascii) (chars s : string) :
  PyStr.has_char c s = false ->
  PyStr.has_char c (PyStr.rstrip chars s) = false.
Proof.
  induction s as [|d s IH]; [reflexivity|].
  cbn [PyStr.has_char PyStr.rstrip]. intros H.
  apply orb_false_iff in H as [H1 H2]. specialize (IH H2).
  destruct (PyStr.rstrip chars s).
  - destruct (PyStr.has_char d chars); [reflexivity|].
    cbn [PyStr.str1 PyStr.has_char]. now rewrite H1.
  - cbn [PyStr.has_char]. cbn [PyStr.has_char] in IH. now rewrite H1, IH.
Qed.

(** What is left after stripping does not end with a stripped
    character. *)
Lemma rstrip_end (chars s pre : string) (c : ascii) :
  PyStr.rstrip chars s = pre ++ PyStr.str1 c ->
  PyStr.has_char c chars = false.
Proof.
  revert pre. induction s as [|d s IH]; intros pre.
  - cbn [PyStr.rstrip]. destruct pre; discriminate.
  - cbn [PyStr.rstrip]. destruct (PyStr.rstrip chars s) as [|r0 r] eqn:E.
    + destruct (PyStr.has_char d chars) eqn:Hd.
      * destruct pre; discriminate.
      * destruct pre as [|p pre]; cbn [append PyStr.str1].
        { intros H. now inversion H; subst. }
        { intros H. inversion H. destruct pre; discriminate. }
    + destruct pre as [|p pre]; cbn [append PyStr.str1].
      * discriminate.
      * intros H. inversion H; subst. now apply (IH pre).
Qed.

Lemma rstrip_all (chars s : string) :
  Validation.all_chars (fun c => PyStr.has_char c chars) s = true ->
  PyStr.rstrip chars s = EmptyString.
Proof.
  induction s as [|d s IH]; [reflexivity|].
  cbn [Validation.all_chars PyStr.rstrip]. intros H.
  apply andb_true_iff in H as [H1 H2]. now rewrite (IH H2), H1.
Qed.

Lemma separators_replaced (path : string) :
  Validation.all_chars
    (fun c => Ascii.eqb c PyStr.slash || Ascii.eqb c PyStr.backslash) path
  = true ->
  Validation.all_chars (fun c => PyStr.has_char c "/")
    (PyStr.replace_char PyStr.backslash "/" path) = true.
Proof.
  induction path as [|c path IH]; [reflexivity|].
  cbn [Validation.all_chars]. intros H.
  apply andb_true_iff in H as [H1 H2].
  assert (C : forall p x r, Validation.all_chars p (String x r)
                            = p x && Validation.all_chars p r)
    by reflexivity.
  cbn [PyStr.replace_char]. destruct (Ascii.eqb c PyStr.backslash) eqn:E.
  - cbn [append]. now rewrite C, (IH H2).
  - rewrite orb_false_r in H1. rewrite C, (IH H2), andb_true_r.
    cbn [PyStr.has_char].
    change (Ascii.eqb c "/") with (Ascii.eqb c PyStr.slash).
    now rewrite H1.
Qed.

(** X25.  [normalize_path] gives a path without a backslash that does not
    end with a slash, and a second pass changes nothing; a path made of
    separators only, such as the root, becomes the empty path. *)
Theorem normalize_path_normal (path : string) :
  PyStr.has_char PyStr.backslash (PathUtils.normalize_path path) = false
  /\ (forall pre, PathUtils.normalize_path path <> pre ++ "/")
  /\ PathUtils.normalize_path (PathUtils.normalize_path path)
     = PathUtils.normalize_path path
  /\ (Validation.all_chars
        (fun c => Ascii.eqb c PyStr.slash || Ascii.eqb c PyStr.backslash) path
      = true ->
      PathUtils.normalize_path path = EmptyString).
Proof.
  unfold PathUtils.normalize_path.
  assert (B : PyStr.has_char PyStr.backslash
                (PyStr.rstrip "/"
                   (PyStr.replace_char PyStr.backslash "/" path)) = false).
  { apply rstrip_has_char.
    apply (replace_char_gone PyStr.backslash "/" path). reflexivity. }
  split; [exact B|]. split; [|split].
  - intros pre E.
    pose proof (rstrip_end "/" _ pre "/" E) as H. discriminate.
  - rewrite (ParseFacts.replace_char_absent PyStr.backslash "/" _ B).
    apply PollFacts.rstrip_idem.
  - intros H. now apply rstrip_all, separators_replaced.
Qed.

End CheckFacts.


(** * PluginAnalyzer and PathDetector *)

Module AnalyzerFacts.

Import PluginAnalyzer Props Terms.

Lemma set_add_in (x y : string) (s : list string) :
  In x (set_add y s) <-> x = y \/ In x s.
Proof.
  induction s as [|z s IH]; cbn [set_add In].
  - split; [intros [H|[]]; now left|intros [H|[]]; now left].
  - destruct (String.eqb_spec y z) as [->|Hne]; cbn [In].
    + split; [intros H; now right|intros [->|H]; [now left|exact H]].
    + rewrite IH. split.
      * intros [H|[H|H]]; [right; now left|now left|right; now right].
      * intros [H|[H|H]]; [right; now left|now left|right; now right].
Qed.

Lemma insert_sorted_in (x y : string) (l : list string) :
  In x (insert_sorted y l) <-> x = y \/ In x l.
Proof.
  induction l as [|z l IH]; cbn [insert_sorted In].
  - split; [intros [H|[]]; now left|intros [H|[]]; now left].
  - destruct (String.leb y z); cbn [In].
    + split; [intros [H|H]; [now left|now right]
             |intros [H|H]; [now left|now right]].
    + rewrite IH. split.
      * intros [H|[H|H]]; [right; now left|now left|right; now right].
      * intros [H|[H|H]]; [right; now left|now left|right; now right].
Qed.

Lemma sorted_in (x : string) (l : list string) :
  In x (sorted l) <-> In x l.
Proof.
  induction l as [|y l IH]; [reflexivity|].
  unfold sorted in *. cbn [fold_right In].
  rewrite insert_sorted_in, IH. split; intros [H|H]; auto.
Qed.

(** The prefix rule over a table. *)
Lemma prefix_rule_in (imp p : string) (table : list (string * string)) :
  forall acc,
    In p (fold_left
            (fun acc entry =>
               if PyStr.startswith (fst entry ++ ".") imp
               then set_add (snd entry) acc else acc)
            table acc) <->
    In p acc
    \/ exists key, In (key, p) table
                   /\ PyStr.startswith (key ++ ".") imp = true.
Proof.
  induction table as [|[k v] table IH]; intros acc; cbn [fold_left fst snd].
  - split; [now left|intros [H|(key & [] & _)]; exact H].
  - rewrite IH. destruct (PyStr.startswith (k ++ ".") imp) eqn:E.
    + rewrite set_add_in. split.
      * intros [[->|H]|(key & H & S)].
        { right. exists k. split; [now left|exact E]. }
        { now left. }
        { right. exists key. split; [now right|exact S]. }
      * intros [H|(key & [H|H] & S)].
        { left. now right. }
        { inversion H; subst. left. now left. }
        { right. now exists key. }
    + split.
      * intros [H|(key & H & S)]; [now left|].
        right. exists key. split; [now right|exact S].
      * intros [H|(key & [H|H] & S)]; [now left| |].
        { inversion H; subst. rewrite E in S. discriminate. }
        { right. now exists key. }
Qed.

Lemma plugins_of_in (imp p : string) (acc : list string) :
  In p (plugins_of imp acc) <->
  In p acc
  \/ lookup imp IMPORT_TO_PLUGIN = Some p
  \/ exists key, In (key, p) IMPORT_TO_PLUGIN
                 /\ PyStr.startswith (key ++ ".") imp = true.
Proof.
  unfold plugins_of. rewrite prefix_rule_in.
  destruct (lookup imp IMPORT_TO_PLUGIN) as [plugin|].
  - rewrite set_add_in. split.
    + intros [[->|H]|H]; [right; now left|now left|right; now right].
    + intros [H|[H|H]]; [left; now right|inversion H; left; now left
                        |now right].
  - split.
    + intros [H|H]; [now left|right; now right].
    + intros [H|[H|H]]; [now left|discriminate|now right].
Qed.

Lemma required_in (imports : list string) (p : string) :
  In p (required (_map_imports_to_plugins imports)) <->
  exists imp,
    In imp imports
    /\ (lookup imp IMPORT_TO_PLUGIN = Some p
        \/ exists key, In (key, p) IMPORT_TO_PLUGIN
                       /\ PyStr.startswith (key ++ ".") imp = true).
Proof.
  unfold _map_imports_to_plugins. cbn [required]. rewrite sorted_in.
  assert (G : forall acc,
             In p (fold_left (fun acc imp => plugins_of imp acc) imports acc)
             <-> In p acc
                 \/ exists imp,
                      In imp imports
                      /\ (lookup imp IMPORT_TO_PLUGIN = Some p
                          \/ exists key,
                               In (key, p) IMPORT_TO_PLUGIN
                               /\ PyStr.startswith (key ++ ".") imp = true)).
  { induction imports as [|i imports IH]; intros acc; cbn [fold_left].
    - split; [now left|intros [H|(imp & [] & _)]; exact H].
    - rewrite IH, plugins_of_in. split.
      + intros [[H|H]|(imp & H & R)].
        * now left.
        * right. exists i. split; [now left|exact H].
        * right. exists imp. split; [now right|exact R].
      + intros [H|(imp & [->|H] & R)].
        * left. now left.
        * left. now right.
        * right. now exists imp. }
  rewrite G. split; [intros [[]|H]; exact H|intros H; now right].
Qed.

Lemma table_values (key p : string) :
  In (key, p) IMPORT_TO_PLUGIN ->
  PluginConfiguration.validate_plugin_name p = true /\ p <> "anti-bloat".
Proof.
  unfold IMPORT_TO_PLUGIN. cbn [In].
  intros H.
  repeat (destruct H as [H|H]; [inversion H; subst; split;
                                [reflexivity|discriminate]|]).
  destruct H.
Qed.

Lemma set_add_nodup (x : string) (s : list string) :
  NoDup s -> NoDup (set_add x s).
Proof.
  induction s as [|z s IH]; cbn [set_add].
  - intros _. constructor; [intros []|constructor].
  - intros H. inversion H as [|? ? Hn Hs]; subst.
    destruct (String.eqb_spec x z) as [->|Hne]; [exact H|].
    constructor; [|now apply IH].
    rewrite set_add_in. intros [E|E]; [now apply Hne|now apply Hn].
Qed.

Lemma plugins_of_nodup (imp : string) (acc : list string) :
  NoDup acc -> NoDup (plugins_of imp acc).
Proof.
  unfold plugins_of. intros H.
  assert (G : forall table acc0, NoDup acc0 ->
             NoDup (fold_left
                      (fun acc entry =>
                         if PyStr.startswith (fst entry ++ ".") imp
                         then set_add (snd entry) acc else acc)
                      table acc0)).
  { induction table as [|e table IH]; intros acc0 H0; [exact H0|].
    cbn [fold_left]. apply IH.
    destruct (PyStr.startswith (fst e ++ ".") imp);
      [now apply set_add_nodup|exact H0]. }
  apply G. destruct (lookup imp IMPORT_TO_PLUGIN);
    [now apply set_add_nodup|exact H].
Qed.

Lemma sorted_nodup (l : list string) : NoDup l -> NoDup (sorted l).
Proof.
  assert (I : forall x l0, NoDup l0 -> ~ In x l0 -> NoDup (insert_sorted x l0)).
  { intros x l0. induction l0 as [|z l0 IH]; cbn [insert_sorted].
    - intros _ _. constructor; [intros []|constructor].
    - intros H Hx. inversion H as [|? ? Hn Hs]; subst.
      destruct (String.leb x z); [now constructor|].
      constructor.
      + rewrite insert_sorted_in. intros [->|E]; [|now apply Hn].
        apply Hx. now left.
      + apply IH; [exact Hs|]. intros E. apply Hx. now right. }
  induction l as [|y l IH]; [intros _; constructor|].
  intros H. inversion H as [|? ? Hn Hs]; subst.
  unfold sorted in *. cbn [fold_right]. apply I; [now apply IH|].
  fold (sorted l). now rewrite sorted_in.
Qed.

(** X26.  Every plugin the analysis asks for is one of the available
    plugins, and never anti-bloat; each is asked for once; and the
    analysis never names an optional plugin. *)
Theorem suggested_plugins_are_known (imports : list string) :
  Forall (fun p => PluginConfiguration.validate_plugin_name p = true
                   /\ p <> "anti-bloat")
    (required (_map_imports_to_plugins imports))
  /\ NoDup (required (_map_imports_to_plugins imports))
  /\ optional (_map_imports_to_plugins imports) = [].
Proof.
  split; [|split; [|reflexivity]].
  2:{ unfold _map_imports_to_plugins. cbn [required]. apply sorted_nodup.
      assert (G : forall acc, NoDup acc ->
                 NoDup (fold_left (fun acc imp => plugins_of imp acc)
                          imports acc)).
      { induction imports as [|i imports IH]; intros acc H; [exact H|].
        cbn [fold_left]. now apply IH, plugins_of_nodup. }
      apply G. constructor. }
  apply Forall_forall. intros p Hp.
  apply required_in in Hp as (imp & _ & [H|(key & H & _)]).
  - apply (table_values imp p). now apply UpdateFacts.lookup_in.
  - now apply (table_values key p).
Qed.


(** The first piece of a split has no separator in it. *)
Lemma first_component_plain (name : string) :
  PyStr.has_char "." (first_component name) = false.
Proof.
  unfold first_component. induction name as [|c name IH]; [reflexivity|].
  cbn [PyStr.split_char]. destruct (Ascii.eqb c ".") eqn:E; [reflexivity|].
  destruct (PyStr.split_char "." name) as [|w ws].
  - cbn [hd PyStr.str1 PyStr.has_char]. now rewrite Ascii.eqb_sym, E.
  - cbn [hd PyStr.has_char] in *. now rewrite Ascii.eqb_sym, E, IH.
Qed.

Lemma prefix_has_char (a b s : string) (c : ascii) :
  String.prefix (a ++ String c b) s = true -> PyStr.has_char c s = true.
Proof.
  revert s. induction a as [|x a IH]; intros s.
  - cbn [append]. destruct s as [|d s]; [discriminate|].
    cbn [String.prefix PyStr.has_char].
    destruct (ascii_dec c d) as [->|]; [|discriminate].
    now rewrite Ascii.eqb_refl.
  - cbn [append]. destruct s as [|d s]; [discriminate|].
    cbn [String.prefix PyStr.has_char].
    destruct (ascii_dec x d); [|discriminate].
    intros H. now rewrite (IH s H), orb_true_r.
Qed.

Lemma fold_set_add_in (f : string -> string) (names acc : list string)
    (x : string) :
  In x (fold_left (fun acc name => set_add (f name) acc) names acc) <->
  In x acc \/ exists name, In name names /\ x = f name.
Proof.
  revert acc. induction names as [|n names IH]; intros acc; cbn [fold_left].
  - split; [now left|intros [H|(name & [] & _)]; exact H].
  - rewrite IH, set_add_in. split.
    + intros [[->|H]|(name & H & E)].
      * right. exists n. split; [now left|reflexivity].
      * now left.
      * right. exists name. split; [now right|exact E].
    + intros [H|(name & [->|H] & E)].
      * left. now right.
      * left. now left.
      * right. now exists name.
Qed.

Lemma extract_loop_in (tree : list Node) (x : string) :
  forall acc,
    In x (extract_loop tree acc) <->
    In x acc \/ exists name, imported tree name /\ x = first_component name.
Proof.
  induction tree as [|node tree IH]; intros acc.
  - cbn [extract_loop]. split; [now left|].
    intros [H|(name & (node & [] & _) & _)]. exact H.
  - assert (Skip : (forall name, ~ match node with
                                   | AstImport names => In name names
                                   | AstImportFrom (Some module) =>
                                       module = name
                                       /\ PyStr.nonempty module = true
                                   | _ => False
                                   end) ->
                   (In x (extract_loop tree acc) <->
                    In x acc
                    \/ exists name, imported (node :: tree) name
                                    /\ x = first_component name)).
    { intros Hn. rewrite IH. split.
      - intros [H|(name & (nd & Hin & Hm) & E)]; [now left|].
        right. exists name. split; [|exact E].
        exists nd. split; [now right|exact Hm].
      - intros [H|(name & (nd & [<-|Hin] & Hm) & E)]; [now left| |].
        + now apply Hn in Hm.
        + right. exists name. split; [|exact E]. now exists nd. }
    destruct node as [names|[module|]|]; cbn [extract_loop].
    + rewrite IH, fold_set_add_in. split.
      * intros [[H|(name & Hin & E)]|(name & (nd & Hin & Hm) & E)].
        { now left. }
        { right. exists name. split; [|exact E].
          exists (AstImport names). split; [now left|exact Hin]. }
        { right. exists name. split; [|exact E].
          exists nd. split; [now right|exact Hm]. }
      * intros [H|(name & (nd & [<-|Hin] & Hm) & E)].
        { left. now left. }
        { left. right. now exists name. }
        { right. exists name. split; [|exact E]. now exists nd. }
    + destruct (PyStr.nonempty module) eqn:Ne.
      * rewrite IH, set_add_in. split.
        { intros [[->|H]|(name & (nd & Hin & Hm) & E)].
          - right. exists module. split; [|reflexivity].
            exists (AstImportFrom (Some module)). split; [now left|now split].
          - now left.
          - right. exists name. split; [|exact E].
            exists nd. split; [now right|exact Hm]. }
        { intros [H|(name & (nd & [<-|Hin] & Hm) & E)].
          - left. now right.
          - destruct Hm as [-> _]. left. now left.
          - right. exists name. split; [|exact E]. now exists nd. }
      * apply Skip. intros name [_ H]. congruence.
    + apply Skip. now intros name.
    + apply Skip. now intros name.
Qed.

(** X27.  A plugin is asked for exactly when the file imports a name whose
    first component is a key of the table: [import PySide6.QtWidgets]
    asks for qt-plugins through [PySide6].  The dotted keys of the table
    and the prefix rule never come into play, since the names that are
    extracted have no dot. *)
Theorem plugin_by_first_component (tree : list Node) (p : string) :
  In p (required (_map_imports_to_plugins (_extract_imports_from_ast tree)))
  <->
  exists name,
    imported tree name
    /\ lookup (first_component name) IMPORT_TO_PLUGIN = Some p.
Proof.
  rewrite required_in. unfold _extract_imports_from_ast. split.
  - intros (imp & Hin & R).
    apply extract_loop_in in Hin as [[]|(name & Hi & ->)].
    exists name. split; [exact Hi|].
    destruct R as [R|(key & _ & S)]; [exact R|].
    unfold PyStr.startswith in S.
    change (key ++ ".") with (key ++ String "." EmptyString) in S.
    apply prefix_has_char in S.
    now rewrite first_component_plain in S.
  - intros (name & Hi & L). exists (first_component name). split.
    + apply extract_loop_in. right. now exists name.
    + now left.
Qed.


Lemma fold_absorb {A B : Type} (F : option A -> B -> option A) (l : list B) :
  (forall b, F None b = None) -> fold_left F l None = None.
Proof.
  intros H. induction l as [|y l IH]; [reflexivity|].
  cbn [fold_left]. now rewrite H.
Qed.

Lemma fold_hit {A B : Type} (F : option A -> B -> option A) (l : list B)
    (x : B) :
  (forall b, F None b = None) ->
  In x l ->
  (forall a, F (Some a) x = None) ->
  forall acc, fold_left F l acc = None.
Proof.
  intros H0 Hin Hx. induction l as [|y l IH]; [destruct Hin|].
  intros acc. cbn [fold_left]. destruct Hin as [->|Hin].
  - destruct acc as [a|]; [rewrite Hx|rewrite H0]; now apply fold_absorb.
  - now apply IH.
Qed.

Lemma fold_keep {A B : Type} (F : option A -> B -> option A) (l : list B)
    (a : A) :
  (forall x, In x l -> F (Some a) x = Some a) ->
  fold_left F l (Some a) = Some a.
Proof.
  induction l as [|y l IH]; [reflexivity|].
  intros H. cbn [fold_left]. rewrite (H y (or_introl eq_refl)).
  apply IH. intros x Hx. apply H. now right.
Qed.

(** Two local modules that import each other are never done with. *)
Lemma mutual_imports (local : string -> File) (depth : nat) :
  forall (a b : string) (ta tb : list Node),
    local a = Source ta -> local b = Source tb ->
    In b (_extract_imports_from_ast ta) ->
    In a (_extract_imports_from_ast tb) ->
    _parse_imports depth local (Source ta) = None.
Proof.
  induction depth as [|depth IH]; intros a b ta tb La Lb Hb Ha;
    [reflexivity|].
  cbn [_parse_imports].
  apply (fold_hit _ _ b); [reflexivity|exact Hb|].
  intros imports. rewrite Lb.
  now rewrite (IH b a tb ta Lb La Ha Hb).
Qed.

(** X28.  When the entry file imports a local module that imports itself,
    or that imports a second local module which imports it back, the
    analysis does not return: every nesting depth the interpreter allows
    is used up, and the error that ends it is not among those the
    analysis catches. *)
Theorem mutual_imports_never_return (listing : list string -> list string)
    (depth : nat) (local : string -> File)
    (entry ta tb : list Node) (a b : string) :
  local a = Source ta ->
  local b = Source tb ->
  In b (_extract_imports_from_ast ta) ->
  In a (_extract_imports_from_ast tb) ->
  In a (_extract_imports_from_ast entry) ->
  analyze_entry_file listing depth local (Source entry) = None.
Proof.
  intros La Lb Hb Ha He. unfold analyze_entry_file.
  destruct depth as [|depth]; [reflexivity|].
  cbn [_parse_imports].
  rewrite (fold_hit _ _ a); [reflexivity|reflexivity|exact He|].
  intros imports. rewrite La.
  now rewrite (mutual_imports local depth a b ta tb La Lb Hb Ha).
Qed.

Lemma mutual_imports_never_return_witness :
  analyze_entry_file (fun s => s) 1000 cyclic_local (Source cyclic_entry)
  = None.
Proof.
  apply (mutual_imports_never_return (fun s => s) 1000 cyclic_local
           cyclic_entry
           [AstImport ["models"]] [AstImport ["views"]] "views" "models");
    try reflexivity; vm_compute; tauto.
Defined.

(** X29.  Local modules that are not there, or whose reading raises one
    of the three exceptions the analysis catches, are passed over without
    a sign: when every import of the entry file is of that kind, the
    analysis returns the plugins that the imports of the entry file ask
    for, and those imports in the order in which the interpreter lists
    the set.  A local module whose reading raises any other exception
    ends the analysis with that exception. *)
Theorem unreadable_modules_are_skipped (listing : list string -> list string)
    (depth : nat) (local : string -> File) (entry : list Node) :
  ((forall imp, In imp (_extract_imports_from_ast entry) ->
      local imp = Missing \/ local imp = Unreadable) ->
   analyze_entry_file listing (S (S depth)) local (Source entry)
   = Some (mkAnalysis
             (required (_map_imports_to_plugins
                          (_extract_imports_from_ast entry)))
             []
             (listing (_extract_imports_from_ast entry))))
  /\ ((exists imp, In imp (_extract_imports_from_ast entry)
                   /\ local imp = Broken) ->
      analyze_entry_file listing (S (S depth)) local (Source entry) = None).
Proof.
  unfold analyze_entry_file. cbn [_parse_imports]. split.
  - intros H. rewrite fold_keep; [reflexivity|].
    intros imp Hin. destruct (H imp Hin) as [-> | ->]; reflexivity.
  - intros (imp & Hin & Hb).
    rewrite (fold_hit _ _ imp); [reflexivity|reflexivity|exact Hin|].
    intros imports. now rewrite Hb.
Qed.

Section Interpreters.

Variable lower : string -> string.

Lemma seen_test (key : string) (seen : list string) :
  existsb (String.eqb key) seen = true <-> In key seen.
Proof.
  rewrite existsb_exists. split.
  - intros (x & Hx & E). apply String.eqb_eq in E. now subst.
  - intros H. exists key. split; [exact H|apply String.eqb_refl].
Qed.

Lemma deduplicate_loop_spec (pythons : list PathDetector.Python) :
  forall seen unique,
    (forall k, In k seen <-> In k (map (python_key lower) unique)) ->
    NoDup (map (python_key lower) unique) ->
    NoDup (map (python_key lower)
             (PathDetector.deduplicate_loop lower pythons seen unique))
    /\ (forall q,
          In q (PathDetector.deduplicate_loop lower pythons seen unique) ->
          In q unique \/ In q pythons)
    /\ (forall p, In p unique \/ In p pythons ->
          exists q,
            In q (PathDetector.deduplicate_loop lower pythons seen unique)
            /\ python_key lower q = python_key lower p)
    /\ (exists extra,
          PathDetector.deduplicate_loop lower pythons seen unique
          = (unique ++ extra)%list).
Proof.
  induction pythons as [|python rest IH]; intros seen unique Hs Hn.
  - cbn [PathDetector.deduplicate_loop]. split; [exact Hn|].
    split; [intros q H; now left|]. split.
    + intros p [H|[]]. now exists p.
    + exists []. now rewrite app_nil_r.
  - cbn [PathDetector.deduplicate_loop].
    fold (python_key lower python).
    destruct (existsb (String.eqb (python_key lower python)) seen) eqn:E.
    + destruct (IH seen unique Hs Hn) as (A & B & C & D).
      split; [exact A|]. split; [|split; [|exact D]].
      * intros q H. destruct (B q H) as [H1|H1]; [now left|right; now right].
      * intros p [H|[<-|H]].
        { apply C. now left. }
        { apply seen_test, Hs, in_map_iff in E as (u & Eu & Hu).
          destruct (C u (or_introl Hu)) as (q & Hq & Eq).
          exists q. split; [exact Hq|congruence]. }
        { apply C. now right. }
    + assert (Hk : ~ In (python_key lower python) seen).
      { intros H. apply seen_test in H. congruence. }
      assert (Hs' : forall k,
                 In k (python_key lower python :: seen) <->
                 In k (map (python_key lower) (unique ++ [python])%list)).
      { intros k. rewrite map_app, in_app_iff. cbn [map In]. rewrite Hs.
        tauto. }
      assert (Hn' : NoDup (map (python_key lower) (unique ++ [python])%list)).
      { rewrite map_app. apply NoDup_app; [exact Hn| |].
        - cbn [map]. constructor; [intros []|constructor].
        - intros k Hin [<-|[]]. apply Hk. now apply Hs. }
      destruct (IH _ _ Hs' Hn') as (A & B & C & (extra & D)).
      split; [exact A|]. split; [|split].
      * intros q H. destruct (B q H) as [H1|H1]; [|right; now right].
        apply in_app_iff in H1 as [H1|[<-|[]]]; [now left|right; now left].
      * intros p [H|[<-|H]]; apply C.
        { left. apply in_app_iff. now left. }
        { left. apply in_app_iff. right. now left. }
        { now right. }
      * exists (python :: extra). rewrite D, <- app_assoc. reflexivity.
Qed.

Lemma deduplicate_loop_fixed (l : list PathDetector.Python) :
  forall seen unique,
    (forall k, In k seen <-> In k (map (python_key lower) unique)) ->
    NoDup (map (python_key lower) (unique ++ l)%list) ->
    PathDetector.deduplicate_loop lower l seen unique = (unique ++ l)%list.
Proof.
  induction l as [|x l IH]; intros seen unique Hs Hn.
  - cbn [PathDetector.deduplicate_loop]. now rewrite app_nil_r.
  - cbn [PathDetector.deduplicate_loop]. fold (python_key lower x).
    assert (Hk : ~ In (python_key lower x) seen).
    { intros H. apply Hs in H. rewrite map_app in Hn. cbn [map] in Hn.
      apply NoDup_remove_2 in Hn. apply Hn, in_app_iff. now left. }
    destruct (existsb (String.eqb (python_key lower x)) seen) eqn:E;
      [apply seen_test in E; contradiction|].
    rewrite IH.
    + now rewrite <- app_assoc.
    + intros k. rewrite map_app, in_app_iff. cbn [map In]. rewrite Hs. tauto.
    + now rewrite <- app_assoc.
Qed.

(** X30.  [_deduplicate_pythons] keeps one interpreter for each path,
    compared without regard to case: the paths of the result are pairwise
    different, every interpreter found still has its path in the result,
    nothing is made up, the first interpreter found is kept, and a second
    pass changes nothing. *)
Theorem deduplicated_pythons (pythons : list PathDetector.Python) :
  NoDup (map (python_key lower)
           (PathDetector._deduplicate_pythons lower pythons))
  /\ (forall q, In q (PathDetector._deduplicate_pythons lower pythons) ->
        In q pythons)
  /\ (forall p, In p pythons ->
        exists q,
          In q (PathDetector._deduplicate_pythons lower pythons)
          /\ python_key lower q = python_key lower p)
  /\ hd_error (PathDetector._deduplicate_pythons lower pythons)
     = hd_error pythons
  /\ PathDetector._deduplicate_pythons lower
       (PathDetector._deduplicate_pythons lower pythons)
     = PathDetector._deduplicate_pythons lower pythons.
Proof.
  unfold PathDetector._deduplicate_pythons.
  assert (S0 : forall k, In k [] <-> In k (map (python_key lower) []))
    by (intros k; reflexivity).
  destruct (deduplicate_loop_spec pythons [] [] S0 (NoDup_nil _))
    as (A & B & C & _).
  split; [exact A|]. split; [|split; [|split]].
  - intros q H. destruct (B q H) as [[]|H1]. exact H1.
  - intros p H. apply C. now right.
  - destruct pythons as [|p rest]; [reflexivity|].
    cbn [PathDetector.deduplicate_loop existsb].
    assert (S1 : forall k,
               In k [lower (PathDetector.path p)] <->
               In k (map (python_key lower) ([] ++ [p])%list))
      by (intros k; reflexivity).
    assert (N1 : NoDup (map (python_key lower) ([] ++ [p])%list))
      by (constructor; [intros []|constructor]).
    destruct (deduplicate_loop_spec rest _ _ S1 N1) as (_ & _ & _ & (extra & ->)).
    reflexivity.
  - apply (deduplicate_loop_fixed _ [] [] S0). exact A.
Qed.

End Interpreters.

End AnalyzerFacts.
